(** * The fine-tuning loop of dog_identify.py

    A shallow embedding of the training script: the EMA shadow model
    ([ModelEMA]), the evaluator ([evaluate_accuracy]) and the epoch driver
    ([train]) with its gradient-accumulation window, scheduler hand-over,
    checkpoint policy and early stopping.

    Conventions of the embedding.
    - Python exceptions are values of [exn]; a function that may raise
      returns a [result].
    - A float is the rational [Q] it denotes; Python ints are [Z].  The
      arithmetic of the shadow update (lines 64-67) and of the
      early-stopping metric (line 307) rounds as IEEE 754 does, in
      binary32, binary16 and binary64 ([fl32], [fl16], [fl64]).  The
      decay schedule, the running sums of losses and accuracies and their
      quotients, and the learning rates are kept as exact rationals.
    - Tensors live in a heap ([Store]); a parameter is a location, so that
      in-place tensor operations and aliasing are visible.
    - PyTorch itself (autograd, AdamW, GradScaler, the two schedulers, the
      network's forward pass) is an interface ([TorchLib]) over an opaque
      library state; every call the script makes is also recorded in a
      trace of [Event]s.
    - A module's train/eval flag is a field of the module value;
      [net.train()] and [model.eval()] set it for the forward passes that
      follow in the same function.
    - The progress bar and wall-clock bookkeeping of the batch loop
      (lines 202-260 of the script, [time.time()] and [print]) are left
      out, as are the other [print] calls. *)

From Stdlib Require Import ZArith QArith Qminmax Qabs Qround Qpower.
From Stdlib Require Import List String Lia Lqa Bool.
From stdpp Require Import base list.

(** ** Python values, exceptions and arithmetic *)

Inductive exn : Type :=
| ValueError (msg : string)
| ZeroDivisionError
| StopIteration
| IndexError
| RuntimeError (msg : string).

Inductive result (A : Type) : Type :=
| Ok (a : A)
| Err (e : exn).
Arguments Ok {A} a.
Arguments Err {A} e.

#[global] Instance result_ret : MRet result := fun A a => Ok a.

#[global] Instance result_bind : MBind result := fun A B k r =>
  match r with
  | Ok a => k a
  | Err e => Err e
  end.

Definition is_ok {A : Type} (r : result A) : bool :=
  match r with Ok _ => true | Err _ => false end.

(** Monadic left fold: a [for] loop whose body may raise. *)
Fixpoint foldM {A S : Type} (f : S -> A -> result S) (l : list A) (s : S)
  : result S :=
  match l with
  | [] => Ok s
  | a :: l' => s' ← f s a; foldM f l' s'
  end.

(** [a > b] on floats. *)
Definition py_gt (a b : Q) : bool := negb (Qle_bool a b).

(** [max(a, b)]: Python returns the first argument unless the second is
    strictly greater. *)
Definition py_max (a b : Q) : Q := if py_gt b a then b else a.

(** [a / b] on two ints: true division, raising on a zero divisor. *)
Definition py_truediv_int (a b : Z) : result Q :=
  if (b =? 0)%Z then Err ZeroDivisionError
  else Ok (inject_Z a / inject_Z b)%Q.

(** [a / n] with a float numerator and an int denominator. *)
Definition py_truediv (a : Q) (n : Z) : result Q :=
  if (n =? 0)%Z then Err ZeroDivisionError
  else Ok (a / inject_Z n)%Q.

(** [a % b] on ints: the sign follows the divisor, as [Z.modulo] does. *)
Definition py_mod (a b : Z) : result Z :=
  if (b =? 0)%Z then Err ZeroDivisionError else Ok (a mod b)%Z.

(** [l[i]] on a list. *)
Definition py_index {A : Type} (l : list A) (i : nat) : result A :=
  match l !! i with
  | Some a => Ok a
  | None => Err IndexError
  end.

(** [range(n)] *)
Definition py_range (n : Z) : list Z := map Z.of_nat (seq 0 (Z.to_nat n)).

(** ** IEEE 754 binary floating point

    An operation of the hardware is the exact operation followed by
    rounding to the nearest value of the format, a tie going to the even
    significand.  Overflow to infinity and NaN are not modelled. *)

(** The binary exponent of [q <> 0]: [2^e <= |q| < 2^(e+1)]. *)
Definition ilog2 (q : Q) : Z :=
  let e := (Z.log2 (Z.abs (Qnum q)) - Z.log2 (Z.pos (Qden q)))%Z in
  if Qle_bool (2 ^ e) (Qabs q) then e else (e - 1)%Z.

(** The nearest integer, a tie going to the even one. *)
Definition round_half_even (q : Q) : Z :=
  let f := Qfloor q in
  match (q - inject_Z f ?= 1 # 2)%Q with
  | Lt => f
  | Gt => (f + 1)%Z
  | Eq => if Z.even f then f else (f + 1)%Z
  end.

(** Rounding to the format with [prec] significant bits whose least
    normal exponent is [emin]; below it the spacing stays that of the
    subnormals. *)
Definition round_float (prec emin : Z) (q : Q) : Q :=
  if Qeq_bool q 0 then 0
  else
    let ulp := (2 ^ (Z.max (ilog2 q) emin - prec + 1))%Q in
    Qred (inject_Z (round_half_even (q / ulp)) * ulp).

(** binary64 (a Python float), binary32 and binary16. *)
Definition fl64 : Q -> Q := round_float 53 (-1022).
Definition fl32 : Q -> Q := round_float 24 (-126).
Definition fl16 : Q -> Q := round_float 11 (-14).

(** ** Tensors and the heap *)

Inductive Dtype : Type := Float16 | Float32.

(** The conversion of an element from one dtype to another: narrowing
    rounds, everything else keeps the value. *)
Definition cast (from to : Dtype) (x : Q) : Q :=
  match from, to with
  | Float32, Float16 => fl16 x
  | _, _ => x
  end.

Record Tensor : Type := mkTensor {
  data : list Q;
  dtype : Dtype;
  requires_grad : bool
}.

#[global] Instance Tensor_inhabited : Inhabited Tensor :=
  populate (mkTensor [] Float32 false).

(** A heap location and the heap of tensors. *)
Abbreviation loc := nat (only parsing).
Abbreviation Store := (list Tensor) (only parsing).

(** An [nn.Module] as the script sees it: the tensors [parameters()]
    yields (distinct locations) and the train/eval flag. *)
Record NNModule : Type := mkModule {
  parameters : list loc;
  training : bool
}.

Definition set_training (b : bool) (m : NNModule) : NNModule :=
  {| parameters := parameters m; training := b |}.

(** [deepcopy(model)]: every parameter tensor is cloned into a fresh
    location. *)
Definition deepcopy (s : Store) (m : NNModule) : NNModule * Store :=
  ({| parameters := seq (length s) (length (parameters m));
      training := training m |},
   s ++ map (fun l => s !!! l) (parameters m)).

(** [t.requires_grad_(b)] *)
Definition requires_grad_ (t : Tensor) (b : bool) : Tensor :=
  {| data := data t; dtype := dtype t; requires_grad := b |}.

(** [dst.copy_(src)]: the values of [src], converted to the dtype of
    [dst]; shapes must agree. *)
Definition copy_ (dst src : Tensor) : result Tensor :=
  if (length (data dst) =? length (data src))%nat
  then Ok {| data := map (cast (dtype src) (dtype dst)) (data src);
             dtype := dtype dst;
             requires_grad := requires_grad dst |}
  else Err (RuntimeError "size mismatch").

(** [t.mul_(c)] with a Python float [c]: the scalar is converted to
    float32, the product is rounded to float32 and stored in the dtype of
    [t]. *)
Definition mul_ (t : Tensor) (c : Q) : Tensor :=
  {| data := map (fun x => cast Float32 (dtype t) (fl32 (x * fl32 c))) (data t);
     dtype := dtype t;
     requires_grad := requires_grad t |}.

(** [t.add_(other, alpha=a)]: [t + a * other], element by element, in
    float32 arithmetic: the scalar is converted to float32, the product
    and the sum are each rounded to float32. *)
Definition add_ (t other : Tensor) (alpha : Q) : result Tensor :=
  if (length (data t) =? length (data other))%nat
  then Ok {| data := zip_with (fun x y =>
                                 cast Float32 (dtype t)
                                      (fl32 (x + fl32 (fl32 alpha * y))))
                              (data t) (data other);
             dtype := dtype t; requires_grad := requires_grad t |}
  else Err (RuntimeError "size mismatch").

(** The result of [t.float()]: the tensor itself when it already is
    float32, a fresh float32 tensor otherwise. *)
Inductive tref : Type :=
| Shared (l : loc)
| Fresh (t : Tensor).

Definition to_float (s : Store) (l : loc) : tref :=
  match dtype (s !!! l) with
  | Float32 => Shared l
  | Float16 => Fresh {| data := data (s !!! l); dtype := Float32;
                        requires_grad := false |}
  end.

Definition deref (s : Store) (r : tref) : Tensor :=
  match r with
  | Shared l => s !!! l
  | Fresh t => t
  end.

Definition assign (s : Store) (r : tref) (t : Tensor) : Store * tref :=
  match r with
  | Shared l => (<[l := t]> s, Shared l)
  | Fresh _ => (s, Fresh t)
  end.

(** ** ModelEMA *)

Record ModelEMA : Type := mkEMA {
  ema : NNModule;
  initial_decay : Q;
  min_decay : Q;
  total_epochs : Z
}.

(** [ModelEMA.__init__(model, decay, total_epochs)] *)
Definition ModelEMA_init (s : Store) (model : NNModule) (decay : Q)
    (total : Z) : result (ModelEMA * Store) :=
  let '(cp, s1) := deepcopy s model in
  let cp := set_training false cp in
  let s2 := fold_left (fun s l => <[l := requires_grad_ (s !!! l) false]> s)
                      (parameters cp) s1 in
  s3 ← foldM (fun s '(ema_p, model_p) =>
                 t ← copy_ (s !!! ema_p) (s !!! model_p);
                 Ok (<[ema_p := t]> s))
              (zip (parameters cp) (parameters model)) s2;
  Ok ({| ema := cp; initial_decay := decay; min_decay := 995 # 1000;
         total_epochs := total |}, s3).

(** Lines 59-60: the annealed decay. *)
Definition ema_decay (self : ModelEMA) (current_epoch : Z) : result Q :=
  frac ← py_truediv_int current_epoch (total_epochs self);
  let decay :=
    (initial_decay self - (initial_decay self - min_decay self) * frac)%Q in
  Ok (py_max decay (min_decay self)).

(** Lines 64-67: one iteration of the parameter loop. *)
Definition update_param (decay : Q) (s : Store) (ema_param model_param : loc)
  : result Store :=
  let model_param_fp32 := to_float s model_param in
  let ema_param_fp32 := to_float s ema_param in
  let '(s1, ema_param_fp32) :=
    assign s ema_param_fp32 (mul_ (deref s ema_param_fp32) decay) in
  t ← add_ (deref s1 ema_param_fp32) (deref s1 model_param_fp32)
           (fl64 (1 - decay));
  let '(s2, ema_param_fp32) := assign s1 ema_param_fp32 t in
  t' ← copy_ (s2 !!! ema_param) (deref s2 ema_param_fp32);
  Ok (<[ema_param := t']> s2).

(** [ModelEMA.update(model, current_epoch)] *)
Definition ModelEMA_update (self : ModelEMA) (model : NNModule)
    (current_epoch : Z) (s : Store) : result Store :=
  decay ← ema_decay self current_epoch;
  foldM (fun s '(ema_param, model_param) =>
           update_param decay s ema_param model_param)
        (zip (parameters (ema self)) (parameters model)) s.

(** ** The PyTorch interface

    [T] is the library's own state (autograd graphs and gradient buffers,
    AdamW moments, the GradScaler's scale, both schedulers' counters,
    batch-norm buffers); [Batch] is an [(X, y)] pair of the data stream and
    [Output] the logits of a forward pass. *)

Record ParamGroup : Type := mkGroup {
  lr : Q;
  initial_lr : Q;
  weight_decay : Q
}.

Record TorchLib (T Batch Output : Type) : Type := mkTorch {
  (** [y.size(0)]; a [DataLoader] never yields an empty batch. *)
  batch_size : Batch -> positive;
  (** [model(X)] under [autocast()], in the module's current mode. *)
  forward : T -> NNModule -> Store -> Batch -> T * Output;
  (** [(output.argmax(dim=1) == y).sum().item()] *)
  num_correct : Output -> Batch -> Z;
  (** [scaler.scale(l).backward()] *)
  backward : T -> Q -> T;
  (** [scaler.unscale_(optimizer)] *)
  unscale_ : T -> T;
  (** [torch.nn.utils.clip_grad_norm_(net.parameters(), max_norm)] *)
  clip_grad_norm_ : T -> Q -> T;
  (** [scaler.step(optimizer)]: the new value of element [j] of
      parameter [i], and the library state afterwards. *)
  step_value : T -> list ParamGroup -> nat -> nat -> Q -> Q;
  step_state : T -> list ParamGroup -> T;
  (** [scaler.update()] and [optimizer.zero_grad()] *)
  scaler_update : T -> T;
  zero_grad : T -> T;
  (** [cosine_scheduler.step(epoch)] *)
  cosine_step : T -> Z -> list ParamGroup -> T * list ParamGroup;
  (** [plateau_scheduler.step(metric)], reading its [base_lrs]. *)
  plateau_step : T -> Q -> list Q -> list ParamGroup -> T * list ParamGroup
}.
Arguments batch_size {T Batch Output} _ _.
Arguments forward {T Batch Output} _ _ _ _ _.
Arguments num_correct {T Batch Output} _ _ _.
Arguments backward {T Batch Output} _ _ _.
Arguments unscale_ {T Batch Output} _ _.
Arguments clip_grad_norm_ {T Batch Output} _ _ _.
Arguments step_value {T Batch Output} _ _ _ _ _ _.
Arguments step_state {T Batch Output} _ _ _.
Arguments scaler_update {T Batch Output} _ _.
Arguments zero_grad {T Batch Output} _ _.
Arguments cosine_step {T Batch Output} _ _ _ _.
Arguments plateau_step {T Batch Output} _ _ _ _ _.

(** The calls the script makes into the library, in program order. *)
Inductive Event : Type :=
| Forward (batch_idx : Z)
| Backward
| Unscale
| ClipGradNorm (max_norm : Q)
| OptimizerStep
| ScalerUpdate
| ZeroGrad
| EmaUpdate (epoch : Z)
| CosineStep (epoch : Z)
| PlateauStep (metric : Q) (base : list Q) (groups : list ParamGroup)
| Save (path : string).

Inductive Device : Type := cpu | cuda.

Record World (T : Type) : Type := mkWorld {
  torch : T;
  heap : Store;
  (** [optimizer.param_groups] *)
  param_groups : list ParamGroup;
  (** [plateau_scheduler.base_lrs] *)
  base_lrs : list Q;
  (** files written by [torch.save], newest first *)
  files : list (string * list Tensor);
  (** [writer.add_scalar(name, value, step)], oldest first *)
  scalars : list (string * Q * Z);
  trace : list Event
}.
Arguments mkWorld {T} _ _ _ _ _ _ _.
Arguments torch {T} _.
Arguments heap {T} _.
Arguments param_groups {T} _.
Arguments base_lrs {T} _.
Arguments files {T} _.
Arguments scalars {T} _.
Arguments trace {T} _.

Definition set_torch {T} (t : T) (w : World T) : World T :=
  mkWorld t (heap w) (param_groups w) (base_lrs w) (files w) (scalars w) (trace w).
Definition set_heap {T} (h : Store) (w : World T) : World T :=
  mkWorld (torch w) h (param_groups w) (base_lrs w) (files w) (scalars w) (trace w).
Definition set_param_groups {T} (g : list ParamGroup) (w : World T) : World T :=
  mkWorld (torch w) (heap w) g (base_lrs w) (files w) (scalars w) (trace w).
Definition set_base_lrs {T} (b : list Q) (w : World T) : World T :=
  mkWorld (torch w) (heap w) (param_groups w) b (files w) (scalars w) (trace w).
Definition emit {T} (e : Event) (w : World T) : World T :=
  mkWorld (torch w) (heap w) (param_groups w) (base_lrs w) (files w) (scalars w)
          (trace w ++ [e]).
(** A library call that only advances the library's own state. *)
Definition lib_call {T} (e : Event) (f : T -> T) (w : World T) : World T :=
  emit e (set_torch (f (torch w)) w).

Definition add_scalar {T} (name : string) (v : Q) (step : Z) (w : World T)
  : World T :=
  mkWorld (torch w) (heap w) (param_groups w) (base_lrs w) (files w)
          (scalars w ++ [(name, v, step)]) (trace w).

(** [m.state_dict()]: a snapshot of the parameter tensors. *)
Definition state_dict (s : Store) (m : NNModule) : list Tensor :=
  map (fun l => s !!! l) (parameters m).

(** [torch.save(m.state_dict(), path)] *)
Definition torch_save {T} (m : NNModule) (path : string) (w : World T)
  : World T :=
  emit (Save path)
    (mkWorld (torch w) (heap w) (param_groups w) (base_lrs w)
             ((path, state_dict (heap w) m) :: files w) (scalars w) (trace w)).

(** ** The script's functions *)

Section Script.
Context {T Batch Output : Type} (lib : TorchLib T Batch Output).

Definition size_of (b : Batch) : Z := Z.pos (batch_size lib b).

(** *** evaluate_accuracy (lines 153-182) *)

(** Lines 174-181: the body of the batch loop. *)
Definition eval_batch (loss_fn : Output -> Batch -> Q) (model : NNModule)
    (st : Q * Q * Z * World T) (b : Batch) : Q * Q * Z * World T :=
  let '(acc_sum, loss_sum, n, w) := st in
  let '(t, output) := forward lib (torch w) model (heap w) b in
  let loss := loss_fn output b in
  ((acc_sum + inject_Z (num_correct lib output b))%Q,
   (loss_sum + loss * inject_Z (size_of b))%Q,
   (n + size_of b)%Z,
   set_torch t w).

Definition evaluate_accuracy (data_iter : list Batch) (net : NNModule)
    (loss_fn : Output -> Batch -> Q) (device : option Device)
    (use_ema : bool) (ema_model : option ModelEMA) (w : World T)
  : result (Q * Q * World T) :=
  (* lines 159-160: next(net.parameters()).device *)
  _ ← match device, parameters net with
      | None, [] => Err StopIteration
      | _, _ => Ok tt
      end;
  (* lines 163-168 *)
  model ← (if use_ema then
             match ema_model with
             | None => Err (ValueError
                         "ema_model must be provided when use_ema is True")
             | Some e => Ok (ema e)
             end
           else Ok net);
  let model := set_training false model in
  (* lines 172-181 *)
  let '(acc_sum, loss_sum, n, w) :=
    fold_left (eval_batch loss_fn model) data_iter (0%Q, 0%Q, 0%Z, w) in
  (* line 182 *)
  acc ← py_truediv acc_sum n;
  l ← py_truediv loss_sum n;
  Ok (acc, l, w).

(** *** train (lines 187-323): the batch loop *)

Record EpochSums : Type := mkSums {
  train_l_sum : Q;
  train_acc_sum : Q;
  n_seen : Z
}.

Definition set_data (d : list Q) (t : Tensor) : Tensor :=
  {| data := d; dtype := dtype t; requires_grad := requires_grad t |}.

(** The in-place parameter update of [scaler.step(optimizer)]. *)
Definition apply_step (f : nat -> nat -> Q -> Q) (ps : list loc) (s : Store)
  : Store :=
  fold_left (fun s '(i, l) => <[l := set_data (imap (f i) (data (s !!! l)))
                                               (s !!! l)]> s)
            (imap pair ps) s.

(** [scaler.step(optimizer)]: the parameters of [net] are updated in
    place, the optimizer and scaler state advance. *)
Definition scaler_step (net : NNModule) (w : World T) : World T :=
  emit OptimizerStep
    (set_torch (step_state lib (torch w) (param_groups w))
       (set_heap (apply_step (step_value lib (torch w) (param_groups w))
                             (parameters net) (heap w)) w)).

(** Lines 223-228: the optimizer-step block. *)
Definition optimizer_step_block (net : NNModule) (ema_obj : ModelEMA)
    (epoch : Z) (w : World T) : result (World T) :=
  let w := lib_call Unscale (unscale_ lib) w in
  let w := lib_call (ClipGradNorm 2) (fun t => clip_grad_norm_ lib t 2) w in
  let w := scaler_step net w in
  let w := lib_call ScalerUpdate (scaler_update lib) w in
  let w := lib_call ZeroGrad (zero_grad lib) w in
  h ← ModelEMA_update ema_obj net epoch (heap w);
  Ok (emit (EmaUpdate epoch) (set_heap h w)).

(** Lines 210-234: one iteration of the batch loop. *)
Definition train_batch (loss : Output -> Batch -> Q) (net : NNModule)
    (ema_obj : ModelEMA) (accum_steps epoch total_batches : Z)
    (sums : EpochSums) (w : World T) (batch_idx : Z) (b : Batch)
  : result (EpochSums * World T) :=
  (* lines 214-219 *)
  let '(t, y_hat) := forward lib (torch w) net (heap w) b in
  let w := emit (Forward batch_idx) (set_torch t w) in
  let l := (loss y_hat b / inject_Z accum_steps)%Q in
  let unscaled_loss := (l * inject_Z accum_steps)%Q in
  let w := lib_call Backward (fun t => backward lib t l) w in
  (* lines 222-228 *)
  r ← py_mod (batch_idx + 1) accum_steps;
  w ← (if (r =? 0)%Z || (batch_idx + 1 =? total_batches)%Z
       then optimizer_step_block net ema_obj epoch w
       else Ok w);
  (* lines 232-234 *)
  Ok ({| train_l_sum := (train_l_sum sums + unscaled_loss * inject_Z (size_of b))%Q;
         train_acc_sum := (train_acc_sum sums + inject_Z (num_correct lib y_hat b))%Q;
         n_seen := (n_seen sums + size_of b)%Z |}, w).

(** Line 209: [for batch_idx, (X, y) in enumerate(train_iter)]. *)
Fixpoint batch_loop (loss : Output -> Batch -> Q) (net : NNModule)
    (ema_obj : ModelEMA) (accum_steps epoch total_batches : Z)
    (batches : list Batch) (batch_idx : Z) (sums : EpochSums) (w : World T)
  : result (EpochSums * World T) :=
  match batches with
  | [] => Ok (sums, w)
  | b :: rest =>
      '(sums', w') ← train_batch loss net ema_obj accum_steps epoch
                                 total_batches sums w batch_idx b;
      batch_loop loss net ema_obj accum_steps epoch total_batches rest
                 (batch_idx + 1) sums' w'
  end.

(** Lines 200-209: an epoch of training over [train_iter]. *)
Definition run_batches (loss : Output -> Batch -> Q) (net : NNModule)
    (ema_obj : ModelEMA) (accum_steps epoch : Z) (train_iter : list Batch)
    (w : World T) : result (EpochSums * World T) :=
  let net := set_training true net in
  let total_batches := Z.of_nat (length train_iter) in
  batch_loop loss net ema_obj accum_steps epoch total_batches train_iter 0
             (mkSums 0 0 0) w.

(** *** train: the per-epoch policy *)

(** Lines 270-280: which scheduler steps. *)
Definition scheduler_phase (epoch : Z) (test_acc : Q) (w : World T)
  : World T :=
  if (epoch <? 12)%Z then
    let '(t, g) := cosine_step lib (torch w) epoch (param_groups w) in
    emit (CosineStep epoch) (set_param_groups g (set_torch t w))
  else
    let w :=
      if (epoch =? 12)%Z then
        let g := map (fun group => {| lr := lr group; initial_lr := lr group;
                                      weight_decay := weight_decay group |})
                     (param_groups w) in
        set_base_lrs (map lr g) (set_param_groups g w)
      else w in
    let '(t, g) := plateau_step lib (torch w) test_acc (base_lrs w)
                                (param_groups w) in
    emit (PlateauStep test_acc (base_lrs w) (param_groups w))
         (set_param_groups g (set_torch t w)).

(** Lines 285-293: the TensorBoard scalars. *)
Definition log_phase (epoch : Z) (train_loss train_acc test_loss test_acc
    ema_test_loss ema_test_acc : Q) (w : World T) : result (World T) :=
  let w := add_scalar "Loss/train" train_loss epoch w in
  let w := add_scalar "Accuracy/train" train_acc epoch w in
  let w := add_scalar "Loss/val" test_loss epoch w in
  let w := add_scalar "Accuracy/val" test_acc epoch w in
  g0 ← py_index (param_groups w) 0;
  let w := add_scalar "Metrics/LR_Group0" (lr g0) epoch w in
  g1 ← py_index (param_groups w) 1;
  let w := add_scalar "Metrics/LR_Group1" (lr g1) epoch w in
  let w := add_scalar "Metrics/TrainVal_Gap" (train_acc - test_acc)%Q epoch w in
  let w := add_scalar "Loss/val_ema" ema_test_loss epoch w in
  Ok (add_scalar "Accuracy/val_ema" ema_test_acc epoch w).

(** Lines 296-304: the checkpoint policy; returns the new [best_acc]. *)
Definition checkpoint_phase (net : NNModule) (ema_obj : ModelEMA)
    (test_acc ema_test_acc best_acc : Q) (w : World T) : Q * World T :=
  let '(best_acc, w) :=
    if py_gt test_acc best_acc
    then (test_acc, torch_save net "best_model.pth" w)
    else (best_acc, w) in
  if py_gt ema_test_acc best_acc
  then (ema_test_acc, torch_save (ema ema_obj) "best_model_ema.pth" w)
  else (best_acc, w).

(** Line 307: [test_acc * 0.8 + (1 - test_loss) * 0.2] on Python floats.
    The two operands reach this line as doubles, the literals are the
    doubles nearest to 0.8 and 0.2, and each operation rounds. *)
Definition composite_metric (test_acc test_loss : Q) : Q :=
  fl64 (fl64 (fl64 test_acc * fl64 (8 # 10))
        + fl64 (fl64 (1 - fl64 test_loss) * fl64 (2 # 10))).

(** Lines 307-315: the early-stopping rule; the boolean is [break]. *)
Definition early_stop_phase (patience : Z) (test_acc test_loss best_metric : Q)
    (no_improve : Z) : Q * Z * bool :=
  let current_metric := composite_metric test_acc test_loss in
  if py_gt current_metric best_metric
  then (current_metric, 0%Z, false)
  else
    let no_improve := (no_improve + 1)%Z in
    (best_metric, no_improve, (patience <=? no_improve)%Z).

Record LoopState : Type := mkLoop {
  best_acc : Q;
  best_metric : Q;
  no_improve : Z
}.

(** Lines 200-315: the body of the epoch loop. *)
Definition train_epoch (train_iter test_iter : list Batch) (net : NNModule)
    (loss : Output -> Batch -> Q) (device : Device) (accum_steps : Z)
    (ema_obj : ModelEMA) (patience : Z) (epoch : Z) (st : LoopState)
    (w : World T) : result (LoopState * bool * World T) :=
  '(sums, w) ← run_batches loss net ema_obj accum_steps epoch train_iter w;
  (* line 263 *)
  '(test_acc, test_loss, w) ←
    evaluate_accuracy test_iter net loss (Some device) false (Some ema_obj) w;
  (* line 264 *)
  train_loss ← py_truediv (train_l_sum sums) (n_seen sums);
  train_acc ← py_truediv (train_acc_sum sums) (n_seen sums);
  (* line 266 *)
  '(ema_test_acc, ema_test_loss, w) ←
    evaluate_accuracy test_iter net loss (Some device) true (Some ema_obj) w;
  let w := scheduler_phase epoch test_acc w in
  w ← log_phase epoch train_loss train_acc test_loss test_acc
                ema_test_loss ema_test_acc w;
  let '(best, w) :=
    checkpoint_phase net ema_obj test_acc ema_test_acc (best_acc st) w in
  let '(metric, count, stop) :=
    early_stop_phase patience test_acc test_loss (best_metric st)
                     (no_improve st) in
  Ok (mkLoop best metric count, stop, w).

(** Line 199: [for epoch in range(num_epochs)], left early by [break]. *)
Fixpoint epoch_loop
    (body : Z -> LoopState -> World T -> result (LoopState * bool * World T))
    (epochs : list Z) (st : LoopState) (w : World T)
  : result (LoopState * World T) :=
  match epochs with
  | [] => Ok (st, w)
  | epoch :: rest =>
      '(st', stop, w') ← body epoch st w;
      if stop : bool then Ok (st', w') else epoch_loop body rest st' w'
  end.

(** [train(train_iter, test_iter, net, loss, optimizer, device,
    num_epochs, best_acc, accum_steps)] *)
Definition train (train_iter test_iter : list Batch) (net : NNModule)
    (loss : Output -> Batch -> Q) (device : Device) (num_epochs : Z)
    (best_acc0 : Q) (accum_steps : Z) (w : World T) : result (Q * World T) :=
  let patience := 12%Z in
  '(ema_obj, h) ← ModelEMA_init (heap w) net (999 # 1000) 50;
  let w := set_heap h w in
  '(st, w) ← epoch_loop
               (train_epoch train_iter test_iter net loss device accum_steps
                            ema_obj patience)
               (py_range num_epochs) (mkLoop best_acc0 0 0) w;
  Ok (best_acc st, w).

End Script.

(** ** Vocabulary of the statements *)

(** The interpolated decay before clamping, as a function of the epoch. *)
Definition linear_decay (self : ModelEMA) (e : Z) : Q :=
  (initial_decay self
   - (initial_decay self - min_decay self)
     * (inject_Z e / inject_Z (total_epochs self)))%Q.

(** Heap typing: every parameter of the module is an allocated tensor. *)
Definition wf_module (s : Store) (m : NNModule) : Prop :=
  Forall (fun l => l < length s) (parameters m).

(** The parameters autograd would track. *)
Definition trainable (s : Store) (m : NNModule) : list loc :=
  filter (fun l => requires_grad (s !!! l) = true) (parameters m).

(** The heap after [ModelEMA(model)]: the old heap followed by one frozen
    clone per parameter. *)
Definition shadow_heap (s : Store) (model : NNModule) : Store :=
  s ++ map (fun l => requires_grad_ (s !!! l) false) (parameters model).

Definition shadow_module (s : Store) (model : NNModule) : NNModule :=
  {| parameters := seq (length s) (length (parameters model));
     training := false |}.

(** Line 66 on one element, in float32: [x.mul_(decay)] followed by
    [.add_(y, alpha=1 - decay)], the difference [1 - decay] being taken on
    doubles. *)
Definition blend32 (decay x y : Q) : Q :=
  fl32 (fl32 (x * fl32 decay) + fl32 (fl32 (fl64 (1 - decay)) * y)).

(** What one pass of lines 64-67 leaves in the shadow tensor: the float32
    blend, converted to the shadow's own dtype as it is stored. *)
Definition blend (decay : Q) (shadow live : Tensor) : Tensor :=
  {| data := zip_with (fun x y => cast Float32 (dtype shadow) (blend32 decay x y))
                      (data shadow) (data live);
     dtype := dtype shadow;
     requires_grad := requires_grad shadow |}.

(** The shadow is a separate, allocated, shape-compatible copy of the
    live model: what [ModelEMA(model)] establishes and every later step of
    the script maintains. *)
Record ema_wf (s : Store) (self : ModelEMA) (model : NNModule) : Prop := {
  wf_nodup : NoDup (parameters (ema self));
  wf_disjoint : forall l, l ∈ parameters (ema self) -> l ∉ parameters model;
  wf_alloc : Forall (fun l => l < length s) (parameters (ema self));
  wf_shapes : Forall2 (fun e m => length (data (s !!! e)) = length (data (s !!! m)))
                      (parameters (ema self)) (parameters model);
  wf_frozen : Forall (fun e => requires_grad (s !!! e) = false)
                     (parameters (ema self))
}.

(** ** A small instance of the interface, for the examples

    A batch carries its size together with the number of correct
    predictions and the loss the network attains on it; the optimizer
    halves every weight; the cosine schedule halves every learning rate. *)

Module Toy.

Definition batch : Type := positive * Z * Q.
Definition output : Type := Z * Q.

Definition lib : TorchLib nat batch output :=
  {| batch_size := fun b => fst (fst b);
     forward := fun t _ _ b => (t, (snd (fst b), snd b));
     num_correct := fun o _ => fst o;
     backward := fun t _ => t;
     unscale_ := fun t => t;
     clip_grad_norm_ := fun t _ => t;
     step_value := fun _ _ _ _ x => (x * (1 # 2))%Q;
     step_state := fun t _ => S t;
     scaler_update := fun t => t;
     zero_grad := fun t => t;
     cosine_step := fun t _ g =>
       (t, map (fun x => mkGroup (lr x * (1 # 2)) (initial_lr x)
                                 (weight_decay x)) g);
     plateau_step := fun t _ _ g => (t, g) |}.

Definition loss (o : output) (_ : batch) : Q := snd o.

Definition heap0 : Store :=
  [mkTensor [1; 2]%Q Float32 true; mkTensor [3]%Q Float16 true].

Definition net : NNModule := mkModule [0; 1] true.

(** The three parameter groups of the script's AdamW. *)
Definition groups : list ParamGroup :=
  [mkGroup (2 # 100000) (2 # 100000) (1 # 1000);
   mkGroup (5 # 10000) (5 # 10000) (3 # 1000);
   mkGroup (1 # 1000) (1 # 1000) (5 # 1000)].

Definition world : World nat := mkWorld 0 heap0 groups [] [] [] [].

(** [ModelEMA(net)] on that heap. *)
Definition shadow : ModelEMA :=
  mkEMA (mkModule [2; 3] false) (999 # 1000) (995 # 1000) 50.

Definition heap1 : Store :=
  heap0 ++ [mkTensor [1; 2]%Q Float32 false; mkTensor [3]%Q Float16 false].

Definition world1 : World nat := mkWorld 0 heap1 groups [] [] [] [].

(** The same cells some steps into training: the live values have moved
    away from the shadow's. *)
Definition heap2 : Store :=
  [mkTensor [1; 2]%Q Float32 true; mkTensor [1075 # 1024]%Q Float16 true;
   mkTensor [5; 6]%Q Float32 false; mkTensor [1]%Q Float16 false].

(** Batches of sizes 8, 8, 8 and 6; the last one is all wrong. *)
Definition ragged_batches : list batch :=
  [(8%positive, 8%Z, 1 # 2); (8%positive, 8%Z, 1 # 2);
   (8%positive, 8%Z, 1 # 2); (6%positive, 0%Z, 1 # 2)].

(** Ten batches of eight samples, six of them classified correctly. *)
Definition ten_batches : list batch := repeat (8%positive, 6%Z, 1 # 2) 10.

End Toy.


(** Two heaps with the same cells, tensor shapes and autograd flags. *)
Definition same_shapes (s s' : Store) : Prop :=
  length s' = length s
  /\ forall l, length (data (s' !!! l)) = length (data (s !!! l))
               /\ requires_grad (s' !!! l) = requires_grad (s !!! l).

(** The optimizer-step block of lines 223-228, as library calls. *)
Definition step_block_events (epoch : Z) : list Event :=
  [Unscale; ClipGradNorm 2; OptimizerStep; ScalerUpdate; ZeroGrad;
   EmaUpdate epoch].

(** The step-boundary condition of the claim, on a 0-based batch index. *)
Definition is_boundary (accum_steps total_batches i : Z) : bool :=
  ((i + 1) mod accum_steps =? 0)%Z || (i + 1 =? total_batches)%Z.

(** What one batch of the loop asks of the library. *)
Definition batch_events (accum_steps epoch total_batches i : Z) : list Event :=
  [Forward i; Backward]
  ++ (if is_boundary accum_steps total_batches i
      then step_block_events epoch else []).

(** The batch indices [i, i+1, ..., i+n-1]. *)
Definition indices_from (i : Z) (n : nat) : list Z :=
  map (fun k => (i + Z.of_nat k)%Z) (seq 0 n).

(** The batches after which an optimizer step was taken: each
    [OptimizerStep] is attributed to the latest [Forward]. *)
Fixpoint steps_fired (last : Z) (evs : list Event) : list Z :=
  match evs with
  | [] => []
  | Forward i :: rest => steps_fired i rest
  | OptimizerStep :: rest => last :: steps_fired last rest
  | _ :: rest => steps_fired last rest
  end.

(** The parts of the world the batch loop leaves alone. *)
Definition policy_state_kept {T : Type} (w w' : World T) : Prop :=
  param_groups w' = param_groups w
  /\ base_lrs w' = base_lrs w
  /\ files w' = files w
  /\ scalars w' = scalars w.

(** *** Per-batch observations and sample-weighted sums *)

Section Metrics.
Context {T Batch Output : Type} (lib : TorchLib T Batch Output).

(** The logits the evaluator sees, batch by batch. *)
Fixpoint eval_outputs (model : NNModule) (s : Store) (t : T)
    (data_iter : list Batch) : list (Batch * Output) :=
  match data_iter with
  | [] => []
  | b :: rest =>
      let '(t', output) := forward lib t model s b in
      (b, output) :: eval_outputs model s t' rest
  end.

(** The logits the batch loop of an epoch sees, batch by batch. *)
Fixpoint train_outputs (loss : Output -> Batch -> Q) (net : NNModule)
    (self : ModelEMA) (accum_steps epoch total_batches : Z)
    (batches : list Batch) (batch_idx : Z) (sums : EpochSums) (w : World T)
  : list (Batch * Output) :=
  match batches with
  | [] => []
  | b :: rest =>
      (b, snd (forward lib (torch w) net (heap w) b))
      :: match train_batch lib loss net self accum_steps epoch total_batches
                           sums w batch_idx b with
         | Ok (sums', w') =>
             train_outputs loss net self accum_steps epoch total_batches
                           rest (batch_idx + 1) sums' w'
         | Err _ => []
         end
  end.

(** Total number of samples. *)
Definition samples (outs : list (Batch * Output)) : Z :=
  fold_right (fun bo acc => (size_of lib (fst bo) + acc)%Z) 0%Z outs.

(** The accuracy of one batch: correct predictions over batch size. *)
Definition batch_accuracy (bo : Batch * Output) : Q :=
  (inject_Z (num_correct lib (snd bo) (fst bo))
   / inject_Z (size_of lib (fst bo)))%Q.

(** [sum_i size_i * a_i] *)
Definition weighted_accuracy_sum (outs : list (Batch * Output)) : Q :=
  fold_right (fun bo acc =>
                (inject_Z (size_of lib (fst bo)) * batch_accuracy bo + acc)%Q)
             0%Q outs.

(** [sum_i size_i * loss_i] *)
Definition weighted_loss_sum (loss : Output -> Batch -> Q)
    (outs : list (Batch * Output)) : Q :=
  fold_right (fun bo acc =>
                (inject_Z (size_of lib (fst bo)) * loss (snd bo) (fst bo)
                 + acc)%Q)
             0%Q outs.

(** The module the evaluator runs. *)
Definition selected_model (net : NNModule) (use_ema : bool)
    (ema_model : option ModelEMA) : NNModule :=
  set_training false
    (if use_ema then
       match ema_model with Some e => ema e | None => net end
     else net).

End Metrics.

(** The same library with another plateau scheduler. *)
Definition with_plateau {T Batch Output : Type} (lib : TorchLib T Batch Output)
    (f : T -> Q -> list Q -> list ParamGroup -> T * list ParamGroup)
  : TorchLib T Batch Output :=
  {| batch_size := batch_size lib;
     forward := forward lib;
     num_correct := num_correct lib;
     backward := backward lib;
     unscale_ := unscale_ lib;
     clip_grad_norm_ := clip_grad_norm_ lib;
     step_value := step_value lib;
     step_state := step_state lib;
     scaler_update := scaler_update lib;
     zero_grad := zero_grad lib;
     cosine_step := cosine_step lib;
     plateau_step := f |}.

(** The scheduler calls among a sequence of events. *)
Definition is_sched (ev : Event) : bool :=
  match ev with
  | CosineStep _ | PlateauStep _ _ _ => true
  | _ => false
  end.

Definition sched_events (evs : list Event) : list Event :=
  List.filter is_sched evs.

(** The scheduler call that belongs to an epoch. *)
Definition sched_match (epoch : Z) (ev : Event) : Prop :=
  if (epoch <? 12)%Z then ev = CosineStep epoch
  else exists metric base groups, ev = PlateauStep metric base groups.

(** The heap and the scheduler calls are as before. *)
Definition quiet_step {T : Type} (w w' : World T) : Prop :=
  heap w' = heap w /\ sched_events (trace w') = sched_events (trace w).

(** The learning rates and the plateau baseline are as before. *)
Definition rates_kept {T : Type} (w w' : World T) : Prop :=
  param_groups w' = param_groups w /\ base_lrs w' = base_lrs w.

(** Both schedulers return as many parameter groups as they are given. *)
Definition schedulers_keep_groups {T Batch Output : Type}
    (lib : TorchLib T Batch Output) : Prop :=
  (forall t e g, length (snd (cosine_step lib t e g)) = length g)
  /\ (forall t m b g, length (snd (plateau_step lib t m b g)) = length g).

(** *** What a run of the epoch loop leaves behind *)

(** The figures of one epoch as they reach the metrics sink. *)
Record EpochLog : Type := mkLog {
  ep_index : Z;
  ep_train_loss : Q;
  ep_train_acc : Q;
  ep_val_loss : Q;
  ep_val_acc : Q;
  ep_lr0 : Q;
  ep_lr1 : Q;
  ep_ema_loss : Q;
  ep_ema_acc : Q
}.

(** The nine [add_scalar] calls of lines 285-293. *)
Definition epoch_scalars (r : EpochLog) : list (string * Q * Z) :=
  [("Loss/train"%string, ep_train_loss r, ep_index r);
   ("Accuracy/train"%string, ep_train_acc r, ep_index r);
   ("Loss/val"%string, ep_val_loss r, ep_index r);
   ("Accuracy/val"%string, ep_val_acc r, ep_index r);
   ("Metrics/LR_Group0"%string, ep_lr0 r, ep_index r);
   ("Metrics/LR_Group1"%string, ep_lr1 r, ep_index r);
   ("Metrics/TrainVal_Gap"%string, (ep_train_acc r - ep_val_acc r)%Q, ep_index r);
   ("Loss/val_ema"%string, ep_ema_loss r, ep_index r);
   ("Accuracy/val_ema"%string, ep_ema_acc r, ep_index r)].

(** [best_acc] after the checkpoint policy has seen the given epochs. *)
Definition best_after (logs : list EpochLog) (best : Q) : Q :=
  fold_left (fun b r => py_max (py_max b (ep_val_acc r)) (ep_ema_acc r)) logs best.

(** The validation accuracies, live and EMA, of the given epochs. *)
Definition observed_accuracies (logs : list EpochLog) : list Q :=
  flat_map (fun r => [ep_val_acc r; ep_ema_acc r]) logs.

(** What the checkpoint policy writes while the accuracy record goes from
    [best] to [best']: files of the two checkpoint names, and some file
    exactly when the record rises. *)
Definition checkpoints_written {T : Type} (best best' : Q) (w w' : World T)
  : Prop :=
  exists new,
    files w' = new ++ files w
    /\ Forall (fun f => fst f = "best_model.pth"%string
                        \/ fst f = "best_model_ema.pth"%string) new
    /\ (new = [] -> best' = best)
    /\ (new <> [] -> (best < best')%Q).

(** *** Counting library calls *)

Definition is_optimizer_step (ev : Event) : bool :=
  match ev with OptimizerStep => true | _ => false end.

Definition is_ema_update (ev : Event) : bool :=
  match ev with EmaUpdate _ => true | _ => false end.

Definition count_events (p : Event -> bool) (evs : list Event) : Z :=
  Z.of_nat (length (List.filter p evs)).

(** ** The network and the optimizer's groups (lines 97-132) *)

(** A child of an [nn.Sequential] with the heap locations of the
    parameters it owns, in the order [parameters()] yields them.  A stage
    of the pretrained backbone is a [Backbone] with whatever parameters it
    has. *)
Inductive Layer : Type :=
| Dropout (p : Q)
| Linear (in_features out_features : Z) (weight bias : loc)
| BatchNorm1d (num_features : Z) (weight bias : loc)
| LayerNorm (normalized_shape : Z) (weight bias : loc)
| SiLU (inplace : bool)
| Backbone (params : list loc).

Definition layer_parameters (l : Layer) : list loc :=
  match l with
  | Dropout _ | SiLU _ => []
  | Linear _ _ w b | BatchNorm1d _ w b | LayerNorm _ w b => [w; b]
  | Backbone ps => ps
  end.

(** [parameters()] yields a shared tensor once, at its first occurrence. *)
Fixpoint py_unique (seen l : list loc) : list loc :=
  match l with
  | [] => []
  | x :: rest =>
      if bool_decide (x ∈ seen) then py_unique seen rest
      else x :: py_unique (x :: seen) rest
  end.

(** [seq.parameters()] of an [nn.Sequential]. *)
Definition sequential_parameters (ls : list Layer) : list loc :=
  py_unique [] (flat_map layer_parameters ls).

(** The position a slice bound [i] denotes in a sequence of [n] items:
    negative bounds count from the end, and both ends are clamped. *)
Definition slice_bound (n : nat) (i : Z) : nat :=
  if (i <? 0)%Z then Z.to_nat (Z.max 0 (Z.of_nat n + i))
  else Nat.min n (Z.to_nat i).

(** [l[:i]] *)
Definition slice_to {A : Type} (l : list A) (i : Z) : list A :=
  take (slice_bound (length l) i) l.

(** [l[i:]] *)
Definition slice_from {A : Type} (l : list A) (i : Z) : list A :=
  drop (slice_bound (length l) i) l.

(** The model of [efficientnet_v2_s]: the [features] and [classifier]
    containers (the pooling layer between them has no parameter). *)
Record EfficientNet : Type := mkNet {
  features : list Layer;
  classifier : list Layer
}.

(** [model.parameters()] *)
Definition net_parameters (m : EfficientNet) : list loc :=
  py_unique [] (flat_map layer_parameters (features m ++ classifier m)).

(** The model as [train] and [ModelEMA] see it. *)
Definition as_module (m : EfficientNet) : NNModule :=
  {| parameters := net_parameters m; training := true |}.

(** Lines 101-102: [param.requires_grad = False] for each parameter. *)
Definition freeze (ps : list loc) (s : Store) : Store :=
  fold_left (fun s l => <[l := requires_grad_ (s !!! l) false]> s) ps s.

(** [torch.nn.Linear(i, o)]: a weight of [o * i] and a bias of [o]
    elements, drawn by the initialiser [init] (given the location and the
    number of elements), both tracked by autograd. *)
Definition nn_Linear (init : loc -> Z -> list Q) (i o : Z) (s : Store)
  : Layer * Store :=
  let w := length s in
  let b := S (length s) in
  (Linear i o w b,
   s ++ [mkTensor (init w (o * i)%Z) Float32 true;
         mkTensor (init b o) Float32 true]).

(** [torch.nn.BatchNorm1d(n)]: a weight of ones and a bias of zeros. *)
Definition nn_BatchNorm1d (n : Z) (s : Store) : Layer * Store :=
  (BatchNorm1d n (length s) (S (length s)),
   s ++ [mkTensor (repeat 1%Q (Z.to_nat n)) Float32 true;
         mkTensor (repeat 0%Q (Z.to_nat n)) Float32 true]).

(** [torch.nn.LayerNorm(n)]: a weight of ones and a bias of zeros. *)
Definition nn_LayerNorm (n : Z) (s : Store) : Layer * Store :=
  (LayerNorm n (length s) (S (length s)),
   s ++ [mkTensor (repeat 1%Q (Z.to_nat n)) Float32 true;
         mkTensor (repeat 0%Q (Z.to_nat n)) Float32 true]).

(** Lines 97-116.  [model] is the network [efficientnet_v2_s] returns and
    [s] the heap its tensors live in. *)
Definition get_net (init : loc -> Z -> list Q) (devices : Device)
    (model : EfficientNet) (s : Store) : EfficientNet * Store :=
  (* lines 101-102 *)
  let s := freeze (sequential_parameters (slice_to (features model) 4)) s in
  (* lines 105-115 *)
  let '(linear1, s) := nn_Linear init 1280 1024 s in
  let '(norm1, s) := nn_BatchNorm1d 1024 s in
  let '(linear2, s) := nn_Linear init 1024 512 s in
  let '(norm2, s) := nn_LayerNorm 512 s in
  let '(linear3, s) := nn_Linear init 512 120 s in
  ({| features := features model;
      classifier := [Dropout (1 # 2); linear1; norm1; SiLU true;
                     Dropout (3 # 10); linear2; norm2; SiLU true; linear3] |},
   s).

(** A parameter group as it is handed to the optimizer. *)
Record OptimGroup : Type := mkOptimGroup {
  params : list loc;
  group_lr : Q;
  group_weight_decay : Q
}.

(** Lines 125-129: the three groups of the script. *)
Definition optimizer_groups (net : EfficientNet) : list OptimGroup :=
  [mkOptimGroup (sequential_parameters (slice_from (features net) 4))
                (2 # 100000) (1 # 1000);
   mkOptimGroup (sequential_parameters (slice_to (classifier net) (-4)))
                (5 # 10000) (3 # 1000);
   mkOptimGroup (sequential_parameters (slice_from (classifier net) (-4)))
                (1 # 1000) (5 # 1000)].

(** [Optimizer.add_param_group]: a group that shares a parameter with a
    group already added is refused. *)
Definition add_param_group (groups : list OptimGroup) (g : OptimGroup)
  : result (list OptimGroup) :=
  if bool_decide (Forall (fun l => l ∉ flat_map params groups) (params g))
  then Ok (groups ++ [g])
  else Err (ValueError
              "some parameters appear in more than one parameter group").

(** [torch.optim.AdamW(groups, ...)], line 124. *)
Definition AdamW (groups : list OptimGroup) : result (list OptimGroup) :=
  match groups with
  | [] => Err (ValueError "optimizer got an empty parameter list")
  | _ => foldM add_param_group groups []
  end.

Module ToyNet.

(** A backbone of six stages over eight tensors. *)
Definition pretrained : EfficientNet :=
  {| features := [Backbone [0]; Backbone [1; 2]; Backbone []; Backbone [3];
                  Backbone [4; 5]; Backbone [6]];
     classifier := [Dropout (2 # 10); Linear 1280 1000 7 8] |}.

Definition heap : Store :=
  map (fun x => mkTensor [x] Float32 true) [1; 2; 3; 4; 5; 6; 7; 8; 9]%Q.

Definition init (l : loc) (n : Z) : list Q := [inject_Z (Z.of_nat l)].

End ToyNet.

(** ** IEEE 754 rounding: error bounds *)

Lemma round_half_even_error (t : Q) :
  (Qabs (inject_Z (round_half_even t) - t) <= 1 # 2)%Q.
Proof.
  unfold round_half_even.
  pose proof (Qfloor_le t) as Hlo. pose proof (Qlt_floor t) as Hhi.
  rewrite inject_Z_plus in Hhi. change (inject_Z 1) with 1%Q in Hhi.
  apply Qabs_Qle_condition.
  destruct (Qcompare_spec (t - inject_Z (Qfloor t)) (1 # 2)) as [E | E | E].
  - destruct (Z.even (Qfloor t)).
    + split; lra.
    + rewrite inject_Z_plus. change (inject_Z 1) with 1%Q. split; lra.
  - split; lra.
  - rewrite inject_Z_plus. change (inject_Z 1) with 1%Q. split; lra.
Qed.

Lemma pow2_pos (e : Z) : (0 < 2 ^ e)%Q.
Proof. apply Qpower_0_lt. reflexivity. Qed.

Lemma pow2_plus (a b : Z) : (2 ^ (a + b) == 2 ^ a * 2 ^ b)%Q.
Proof. apply Qpower_plus. discriminate. Qed.

Lemma pow2_nat (k : Z) : (0 <= k)%Z -> (2 ^ k == inject_Z (2 ^ k))%Q.
Proof. intros Hk. now rewrite Zpower_Qpower. Qed.

Lemma ilog2_le (q : Q) : ~ (q == 0)%Q -> (2 ^ ilog2 q <= Qabs q)%Q.
Proof.
  intros Hq. unfold ilog2.
  set (n := Z.abs (Qnum q)). set (d := Z.pos (Qden q)).
  destruct (Qle_bool (2 ^ (Z.log2 n - Z.log2 d)) (Qabs q)) eqn:E.
  - now apply Qle_bool_iff.
  - clear E.
    assert (Hn : (0 < n)%Z).
    { unfold n. destruct q as [[| p | p] qd]; cbn; try lia.
      exfalso. apply Hq. reflexivity. }
    assert (Hd : (0 < d)%Z) by (unfold d; lia).
    destruct (Z.log2_spec n Hn) as [Hn1 _].
    destruct (Z.log2_spec d Hd) as [_ Hd2].
    pose proof (Z.log2_nonneg n) as Ha. pose proof (Z.log2_nonneg d) as Hb.
    assert (Habs : (Qabs q == inject_Z n / inject_Z d)%Q).
    { unfold n, d. destruct q as [qn qd]. cbn [Qnum Qden].
      rewrite <- (Zabs_Qabs qn qd). unfold Qeq, Qdiv, Qmult, Qinv, inject_Z.
      cbn. lia. }
    rewrite Habs.
    replace (Z.log2 n - Z.log2 d - 1)%Z
      with (Z.log2 n + - (Z.log2 d + 1))%Z by lia.
    rewrite pow2_plus, Qpower_opp, !pow2_nat by lia.
    rewrite <- Z.add_1_r in Hd2.
    assert (Hd' : (0 < inject_Z d)%Q)
      by (change 0%Q with (inject_Z 0); now rewrite <- Zlt_Qlt).
    assert (Hp : (0 < inject_Z (2 ^ (Z.log2 d + 1)))%Q).
    { change 0%Q with (inject_Z 0). rewrite <- Zlt_Qlt.
      apply Z.pow_pos_nonneg; lia. }
    apply Qle_shift_div_l; [exact Hd' |].
    rewrite <- Qmult_assoc, (Qmult_comm (/ _)).
    change (?a * (?b * / ?c))%Q with (a * (b / c))%Q.
    apply Qle_trans with (inject_Z (2 ^ Z.log2 n) * 1)%Q.
    + apply Qmult_le_l.
      * change 0%Q with (inject_Z 0). rewrite <- Zlt_Qlt.
        apply Z.pow_pos_nonneg; lia.
      * apply Qle_shift_div_r; [exact Hp |]. rewrite Qmult_1_l.
        rewrite <- Zle_Qle. lia.
    + rewrite Qmult_1_r. now rewrite <- Zle_Qle.
Qed.

(** The error of one rounding is at most half a unit in the last place. *)
Lemma round_float_half_ulp (prec emin : Z) (q : Q) :
  (Qabs (round_float prec emin q - q)
   <= 2 ^ (Z.max (ilog2 q) emin - prec))%Q.
Proof.
  unfold round_float. destruct (Qeq_bool q 0) eqn:E.
  - apply Qeq_bool_iff in E.
    assert (H0 : (Qabs (0 - q) == 0)%Q).
    { transitivity (Qabs 0); [apply Qabs_wd; lra | reflexivity]. }
    rewrite H0. apply Qlt_le_weak. apply (pow2_pos _).
  - rewrite Qred_correct.
    set (e := Z.max (ilog2 q) emin).
    pose proof (pow2_pos (e - prec + 1)) as Hu.
    set (ulp := (2 ^ (e - prec + 1))%Q) in *.
    pose proof (round_half_even_error (q / ulp)) as Hr.
    set (m := inject_Z (round_half_even (q / ulp))) in *.
    assert (Hq : (Qabs (m * ulp - q) == Qabs (m - q / ulp) * ulp)%Q).
    { rewrite <- (Qabs_pos ulp) at 3 by now apply Qlt_le_weak.
      rewrite <- Qabs_Qmult. apply Qabs_wd. field.
      intros H0. rewrite H0 in Hu. now apply Qlt_irrefl in Hu. }
    rewrite Hq.
    assert (Hh : (2 ^ (e - prec) == (1 # 2) * ulp)%Q).
    { unfold ulp. replace (e - prec + 1)%Z with ((e - prec) + 1)%Z by lia.
      rewrite pow2_plus. change (2 ^ 1)%Q with 2%Q. field. }
    rewrite Hh. apply Qmult_le_compat_r; [exact Hr | now apply Qlt_le_weak].
Qed.

(** The relative form, with the absolute term of the subnormal range. *)
Lemma round_float_error (prec emin : Z) (q : Q) :
  (Qabs (round_float prec emin q - q)
   <= 2 ^ (- prec) * Qabs q + 2 ^ (emin - prec))%Q.
Proof.
  destruct (Qeq_dec q 0) as [E | E].
  - unfold round_float. rewrite (proj2 (Qeq_bool_iff q 0) E).
    assert (H0 : (Qabs (0 - q) == 0)%Q).
    { transitivity (Qabs 0); [apply Qabs_wd; lra | reflexivity]. }
    pose proof (pow2_pos (- prec)). pose proof (pow2_pos (emin - prec)).
    pose proof (Qabs_nonneg q).
    assert (0 <= 2 ^ (- prec) * Qabs q)%Q by (apply Qmult_le_0_compat; lra).
    lra.
  - eapply Qle_trans; [apply round_float_half_ulp |].
    pose proof (pow2_pos (- prec)) as H1.
    pose proof (pow2_pos (emin - prec)) as H2.
    pose proof (ilog2_le q E) as Hl. pose proof (Qabs_nonneg q) as Ha.
    destruct (Z.max_spec (ilog2 q) emin) as [[_ ->] | [_ ->]].
    + assert (0 <= 2 ^ (- prec) * Qabs q)%Q by (apply Qmult_le_0_compat; lra).
      lra.
    + replace (ilog2 q - prec)%Z with (- prec + ilog2 q)%Z by lia.
      rewrite pow2_plus.
      assert (2 ^ (- prec) * 2 ^ ilog2 q <= 2 ^ (- prec) * Qabs q)%Q.
      { apply Qmult_le_l; assumption. }
      lra.
Qed.

(** *** Chains of roundings *)

Lemma Qabs_tri (a b c : Q) : (Qabs (a - c) <= Qabs (a - b) + Qabs (b - c))%Q.
Proof.
  eapply Qle_trans; [| apply Qabs_triangle].
  apply Qle_lteq. right. apply Qabs_wd. ring.
Qed.

Lemma Qabs_near (a b : Q) : (Qabs a <= Qabs b + Qabs (a - b))%Q.
Proof.
  eapply Qle_trans; [| apply Qabs_triangle].
  apply Qle_lteq. right. apply Qabs_wd. ring.
Qed.

Lemma Qabs_scale (x p c : Q) :
  (Qabs p <= c)%Q -> (Qabs (x * p) <= Qabs x * c)%Q.
Proof.
  intros H. rewrite Qabs_Qmult, !(Qmult_comm (Qabs x)).
  apply Qmult_le_compat_r; [exact H | apply Qabs_nonneg].
Qed.

Lemma Qabs_scale_diff (x p d c : Q) :
  (Qabs (p - d) <= c)%Q -> (Qabs (x * p - x * d) <= Qabs x * c)%Q.
Proof.
  intros H. eapply Qle_trans; [| apply (Qabs_scale x (p - d) c H)].
  apply Qle_lteq. right. apply Qabs_wd. ring.
Qed.

Lemma fl32_error (q : Q) :
  (Qabs (fl32 q - q) <= (1 # 16777216) * Qabs q + 2 ^ (-150))%Q.
Proof. apply (round_float_error 24 (-126) q). Qed.

Lemma fl16_error (q : Q) :
  (Qabs (fl16 q - q) <= (1 # 2048) * Qabs q + 2 ^ (-25))%Q.
Proof. apply (round_float_error 11 (-14) q). Qed.

Lemma fl64_error (q : Q) :
  (Qabs (fl64 q - q) <= (1 # 9007199254740992) * Qabs q + 2 ^ (-150))%Q.
Proof.
  eapply Qle_trans; [apply (round_float_error 53 (-1022) q) |].
  assert (2 ^ (-1022 - 53) <= 2 ^ (-150))%Q.
  { apply Qpower_le_compat_l; [lia | discriminate]. }
  change (2 ^ (- (53)))%Q with (1 # 9007199254740992)%Q. lra.
Qed.

Lemma eta_small : (0 < 2 ^ (-150) /\ 2 ^ (-150) <= 1 # 1267650600228229401496703205376)%Q.
Proof.
  split; [apply pow2_pos |].
  apply Qle_trans with (2 ^ (-100))%Q.
  - apply Qpower_le_compat_l; [lia | discriminate].
  - vm_compute. discriminate.
Qed.

Lemma blend32_error (d x y : Q) :
  (0 <= d)%Q -> (d <= 1)%Q ->
  (Qabs (blend32 d x y - (d * x + (1 - d) * y))
   <= (1 # 4194304) * (Qabs x + Qabs y) + 2 ^ (-147))%Q.
Proof.
  intros Hd0 Hd1. unfold blend32.
  destruct eta_small as [He0 He1].
  assert (He8 : (2 ^ (-147) == 8 * 2 ^ (-150))%Q).
  { change (-147)%Z with (3 + -150)%Z. rewrite pow2_plus. reflexivity. }
  rewrite He8. set (e := (2 ^ (-150))%Q) in *.
  set (p1 := fl32 d). set (v1 := (x * p1)%Q). set (t1 := fl32 v1).
  set (a0 := (1 - d)%Q). set (a := fl64 a0). set (p2 := fl32 a).
  set (v2 := (p2 * y)%Q). set (t2 := fl32 v2).
  set (s := (t1 + t2)%Q).
  pose proof (Qabs_nonneg x) as HX. pose proof (Qabs_nonneg y) as HY.
  assert (Ad : (Qabs d <= 1)%Q) by (rewrite Qabs_pos; assumption).
  assert (Aa0 : (Qabs a0 <= 1)%Q) by (unfold a0; rewrite Qabs_pos; lra).
  (* the scalars *)
  pose proof (fl32_error d) as E1. fold p1 e in E1.
  assert (E1' : (Qabs (p1 - d) <= (1 # 16777216) + (1 # 1267650600228229401496703205376))%Q) by lra.
  pose proof (Qabs_near p1 d) as N1.
  pose proof (fl64_error a0) as E2. fold a e in E2.
  pose proof (Qabs_near a a0) as N2.
  pose proof (fl32_error a) as E3. fold p2 e in E3.
  pose proof (Qabs_tri p2 a a0) as T3.
  assert (E3' : (Qabs (p2 - a0)
                 <= (1 # 16777216) + (1 # 1099511627776))%Q) by lra.
  pose proof (Qabs_near p2 a0) as N3.
  (* the products *)
  pose proof (Qabs_scale_diff x p1 d _ E1') as M1. fold v1 in M1.
  assert (B1 : (Qabs v1 <= Qabs x * (8388609 # 8388608))%Q)
    by (apply Qabs_scale; lra).
  pose proof (fl32_error v1) as R1. fold t1 e in R1.
  pose proof (Qabs_tri t1 v1 (x * d)) as T1.
  assert (M2 : (Qabs (v2 - y * a0)
                <= Qabs y * ((1 # 16777216) + (1 # 1099511627776)))%Q).
  { unfold v2. rewrite (Qmult_comm p2 y). now apply Qabs_scale_diff. }
  assert (B2 : (Qabs v2 <= Qabs y * (8388609 # 8388608))%Q).
  { unfold v2. rewrite (Qmult_comm p2 y). apply Qabs_scale. lra. }
  pose proof (fl32_error v2) as R2. fold t2 e in R2.
  pose proof (Qabs_tri t2 v2 (y * a0)) as T2.
  (* the sum *)
  assert (S1 : (Qabs (s - (x * d + y * a0))
                <= Qabs (t1 - x * d) + Qabs (t2 - y * a0))%Q).
  { eapply Qle_trans; [| apply Qabs_triangle].
    apply Qle_lteq. right. apply Qabs_wd. unfold s. ring. }
  assert (Bx : (Qabs (x * d) <= Qabs x * 1)%Q) by now apply Qabs_scale.
  assert (By : (Qabs (y * a0) <= Qabs y * 1)%Q) by now apply Qabs_scale.
  pose proof (Qabs_triangle (x * d) (y * a0)) as TB.
  pose proof (Qabs_near s (x * d + y * a0)) as NS.
  pose proof (fl32_error s) as RS. fold e in RS.
  pose proof (Qabs_tri (fl32 s) s (x * d + y * a0)) as TS.
  assert (Hgoal : (Qabs (fl32 s - (d * x + (1 - d) * y))
                   == Qabs (fl32 s - (x * d + y * a0)))%Q).
  { apply Qabs_wd. unfold a0. ring. }
  eapply Qle_trans; [apply Qle_lteq; right; exact Hgoal |]. lra.
Qed.

Lemma composite_metric_error (acc loss : Q) :
  (Qabs (composite_metric acc loss - ((8 # 10) * acc + (2 # 10) * (1 - loss)))
   <= (1 # 2251799813685248) * (Qabs acc + Qabs loss + 1) + 2 ^ (-147))%Q.
Proof.
  unfold composite_metric.
  destruct eta_small as [He0 He1].
  assert (He8 : (2 ^ (-147) == 8 * 2 ^ (-150))%Q).
  { change (-147)%Z with (3 + -150)%Z. rewrite pow2_plus. reflexivity. }
  set (c8 := fl64 (8 # 10)). set (c2 := fl64 (2 # 10)).
  assert (C8 : (Qabs (c8 - (8 # 10)) <= 1 # 18014398509481984)%Q)
    by (vm_compute; discriminate).
  assert (C8' : (Qabs c8 <= 81 # 100)%Q) by (vm_compute; discriminate).
  assert (C2 : (Qabs (c2 - (2 # 10)) <= 1 # 72057594037927936)%Q)
    by (vm_compute; discriminate).
  assert (C2' : (Qabs c2 <= 21 # 100)%Q) by (vm_compute; discriminate).
  clearbody c8 c2.
  eapply Qle_trans;
    [| apply Qle_lteq; right; rewrite He8; reflexivity].
  set (e := (2 ^ (-150))%Q) in *.
  set (a := fl64 acc). set (v1 := (a * c8)%Q). set (r1 := fl64 v1).
  set (l := fl64 loss). set (d1 := (1 - l)%Q). set (r2 := fl64 d1).
  set (v2 := (r2 * c2)%Q). set (r3 := fl64 v2). set (s := (r1 + r3)%Q).
  pose proof (Qabs_nonneg acc) as HA. pose proof (Qabs_nonneg loss) as HL.
  (* the accuracy term *)
  pose proof (fl64_error acc) as E1. fold a e in E1.
  pose proof (Qabs_near a acc) as N1.
  assert (M1 : (Qabs (v1 - acc * c8) <= Qabs (a - acc) * (81 # 100))%Q).
  { eapply Qle_trans; [| apply (Qabs_scale (a - acc) c8 _ C8')].
    apply Qle_lteq. right. apply Qabs_wd. unfold v1. ring. }
  pose proof (Qabs_scale_diff acc c8 (8 # 10) _ C8) as M1'.
  pose proof (Qabs_tri v1 (acc * c8) (acc * (8 # 10))) as T1.
  assert (B1 : (Qabs v1 <= Qabs a * (81 # 100))%Q) by now apply Qabs_scale.
  pose proof (fl64_error v1) as R1. fold r1 e in R1.
  pose proof (Qabs_tri r1 v1 (acc * (8 # 10))) as T1'.
  (* the loss term *)
  pose proof (fl64_error loss) as E2. fold l e in E2.
  pose proof (Qabs_near l loss) as N2.
  assert (D1 : (Qabs (d1 - (1 - loss)) == Qabs (l - loss))%Q).
  { rewrite (Qabs_Qminus l loss). apply Qabs_wd. unfold d1. ring. }
  assert (D0 : (Qabs (1 - loss) <= 1 + Qabs loss)%Q).
  { eapply Qle_trans; [apply Qabs_triangle |]. rewrite Qabs_opp.
    change (Qabs 1) with 1%Q. lra. }
  pose proof (Qabs_near d1 (1 - loss)) as N3.
  pose proof (fl64_error d1) as E3. fold r2 e in E3.
  pose proof (Qabs_tri r2 d1 (1 - loss)) as T3.
  pose proof (Qabs_near r2 (1 - loss)) as N4.
  assert (M2 : (Qabs (v2 - (1 - loss) * c2)
                <= Qabs (r2 - (1 - loss)) * (21 # 100))%Q).
  { eapply Qle_trans; [| apply (Qabs_scale (r2 - (1 - loss)) c2 _ C2')].
    apply Qle_lteq. right. apply Qabs_wd. unfold v2. ring. }
  pose proof (Qabs_scale_diff (1 - loss) c2 (2 # 10) _ C2) as M2'.
  pose proof (Qabs_tri v2 ((1 - loss) * c2) ((1 - loss) * (2 # 10))) as T2.
  assert (B2 : (Qabs v2 <= Qabs r2 * (21 # 100))%Q) by now apply Qabs_scale.
  pose proof (fl64_error v2) as R2. fold r3 e in R2.
  pose proof (Qabs_tri r3 v2 ((1 - loss) * (2 # 10))) as T2'.
  (* the sum *)
  set (exact := (acc * (8 # 10) + (1 - loss) * (2 # 10))%Q).
  assert (S1 : (Qabs (s - exact)
                <= Qabs (r1 - acc * (8 # 10))
                   + Qabs (r3 - (1 - loss) * (2 # 10)))%Q).
  { eapply Qle_trans; [| apply Qabs_triangle].
    apply Qle_lteq. right. apply Qabs_wd. unfold s, exact. ring. }
  assert (Bx : (Qabs exact <= Qabs acc * (8 # 10) + (1 + Qabs loss) * (2 # 10))%Q).
  { unfold exact. eapply Qle_trans; [apply Qabs_triangle |].
    rewrite !Qabs_Qmult. change (Qabs (8 # 10)) with (8 # 10)%Q.
    change (Qabs (2 # 10)) with (2 # 10)%Q.
    assert (Qabs (1 - loss) * (2 # 10) <= (1 + Qabs loss) * (2 # 10))%Q.
    { apply Qmult_le_compat_r; [exact D0 | discriminate]. }
    lra. }
  pose proof (Qabs_near s exact) as NS.
  pose proof (fl64_error s) as RS. fold e in RS.
  pose proof (Qabs_tri (fl64 s) s exact) as TS.
  assert (Hgoal : (Qabs (fl64 s - ((8 # 10) * acc + (2 # 10) * (1 - loss)))
                   == Qabs (fl64 s - exact))%Q).
  { apply Qabs_wd. unfold exact. ring. }
  eapply Qle_trans; [apply Qle_lteq; right; exact Hgoal |].
  rewrite D1 in *. lra.
Qed.

(** The roundings of some decimal literals, two ties and a subnormal, as
    the formats have them. *)
Example round_float_values :
  fl64 (1 # 10) = (3602879701896397 # 36028797018963968)%Q
  /\ fl64 (8 # 10) = (3602879701896397 # 4503599627370496)%Q
  /\ fl32 (7 # 10) = (11744051 # 16777216)%Q
  /\ fl32 (997 # 1000) = (4181721 # 4194304)%Q
  /\ fl16 (1 # 3) = (1365 # 4096)%Q
  /\ fl16 (2049 # 2048) = 1%Q
  /\ fl16 (2051 # 2048) = (513 # 512)%Q
  /\ fl32 (3 # 1427247692705959881058285969449495136382746624) = (1 # 356811923176489970264571492362373784095686656)%Q.
Proof. vm_compute. repeat split. Qed.

(** ** ModelEMA: the decay schedule *)

Lemma py_gt_true (a b : Q) : py_gt a b = true <-> (b < a)%Q.
Proof.
  unfold py_gt. rewrite negb_true_iff, <- not_true_iff_false, Qle_bool_iff.
  split; [apply Qnot_le_lt | apply Qlt_not_le].
Qed.

Lemma py_gt_false (a b : Q) : py_gt a b = false <-> (a <= b)%Q.
Proof.
  unfold py_gt. rewrite negb_false_iff. apply Qle_bool_iff.
Qed.

Lemma py_max_Qmax (a b : Q) : (py_max a b == Qmax a b)%Q.
Proof.
  unfold py_max. destruct (py_gt b a) eqn:E.
  - apply py_gt_true in E. symmetry. apply Q.max_r. now apply Qlt_le_weak.
  - apply py_gt_false in E. symmetry. now apply Q.max_l.
Qed.

Lemma py_truediv_int_ok (a b : Z) :
  b <> 0%Z -> py_truediv_int a b = Ok (inject_Z a / inject_Z b)%Q.
Proof.
  intros Hb. unfold py_truediv_int.
  destruct (Z.eqb_spec b 0); [contradiction | reflexivity].
Qed.

Lemma ema_decay_ok (self : ModelEMA) (e : Z) :
  total_epochs self <> 0%Z ->
  ema_decay self e = Ok (py_max (linear_decay self e) (min_decay self)).
Proof.
  intros Ht. unfold ema_decay. rewrite py_truediv_int_ok by assumption.
  reflexivity.
Qed.

Lemma frac_mono (t e1 e2 : Z) :
  (0 < t)%Z -> (e1 <= e2)%Z ->
  (inject_Z e1 / inject_Z t <= inject_Z e2 / inject_Z t)%Q.
Proof.
  intros Ht He. unfold Qdiv.
  apply Qmult_le_compat_r.
  - now rewrite <- Zle_Qle.
  - apply Qinv_le_0_compat. change 0%Q with (inject_Z 0). rewrite <- Zle_Qle. lia.
Qed.

Lemma linear_decay_mono (self : ModelEMA) (e1 e2 : Z) :
  (0 < total_epochs self)%Z ->
  (min_decay self <= initial_decay self)%Q ->
  (e1 <= e2)%Z ->
  (linear_decay self e2 <= linear_decay self e1)%Q.
Proof.
  intros Ht Hd He. unfold linear_decay.
  pose proof (frac_mono _ _ _ Ht He) as Hf.
  set (f1 := (inject_Z e1 / inject_Z (total_epochs self))%Q) in *.
  set (f2 := (inject_Z e2 / inject_Z (total_epochs self))%Q) in *.
  assert (Hk : (0 <= initial_decay self - min_decay self)%Q).
  { clear -Hd. unfold Qminus. rewrite <- (Qplus_opp_r (min_decay self)).
    apply Qplus_le_compat; [assumption | apply Qle_refl]. }
  assert (Hm : ((initial_decay self - min_decay self) * f1
                <= (initial_decay self - min_decay self) * f2)%Q).
  { rewrite !(Qmult_comm (initial_decay self - min_decay self)).
    now apply Qmult_le_compat_r. }
  unfold Qminus at 1 3. apply Qplus_le_compat; [apply Qle_refl |].
  now apply Qopp_le_compat.
Qed.

Lemma linear_decay_0 (self : ModelEMA) :
  (linear_decay self 0 == initial_decay self)%Q.
Proof.
  unfold linear_decay, Qdiv. change (inject_Z 0) with 0%Q. ring.
Qed.

Lemma linear_decay_total (self : ModelEMA) :
  (0 < total_epochs self)%Z ->
  (linear_decay self (total_epochs self) == min_decay self)%Q.
Proof.
  intros Ht. unfold linear_decay.
  assert (Hn : ~ (inject_Z (total_epochs self) == 0)%Q).
  { change 0%Q with (inject_Z 0). rewrite inject_Z_injective. lia. }
  unfold Qdiv. rewrite Qmult_inv_r by assumption. ring.
Qed.

(** ** ModelEMA: construction *)

Lemma foldM_fixed {A S : Type} (f : S -> A -> result S) (l : list A) (s : S) :
  Forall (fun a => f s a = Ok s) l -> foldM f l s = Ok s.
Proof.
  induction 1 as [| a l Ha _ IH]; simpl; [reflexivity |].
  rewrite Ha. exact IH.
Qed.

Lemma insert_middle {A : Type} (pre : list A) (x y : A) (post : list A) :
  <[length pre := y]> (pre ++ x :: post) = pre ++ y :: post.
Proof. induction pre as [| a pre IH]; simpl; [reflexivity | now f_equal]. Qed.

Lemma freeze_fresh (f : Tensor -> Tensor) (ts pre : list Tensor) :
  fold_left (fun s l => <[l := f (s !!! l)]> s)
            (seq (length pre) (length ts)) (pre ++ ts)
  = pre ++ map f ts.
Proof.
  revert pre. induction ts as [| t ts IH]; intros pre; simpl; [reflexivity |].
  rewrite list_lookup_total_middle by reflexivity.
  replace (<[length pre := f t]> (pre ++ t :: ts)) with ((pre ++ [f t]) ++ ts).
  - replace (S (length pre)) with (length (pre ++ [f t]))
      by (rewrite length_app; simpl; lia).
    rewrite IH, <- app_assoc. reflexivity.
  - rewrite <- app_assoc. simpl. symmetry. apply insert_middle.
Qed.

Lemma cast_same (d : Dtype) (x : Q) : cast d d x = x.
Proof. now destruct d. Qed.

Lemma map_cast_same (d : Dtype) (l : list Q) : map (cast d d) l = l.
Proof.
  induction l as [| x l IH]; cbn [map]; [reflexivity |].
  now rewrite cast_same, IH.
Qed.

Lemma copy_same (t u : Tensor) :
  data t = data u -> dtype t = dtype u -> copy_ t u = Ok t.
Proof.
  intros H D. unfold copy_. rewrite H, Nat.eqb_refl, <- D, map_cast_same.
  destruct t; simpl in *. now subst.
Qed.

Lemma shadow_heap_old (s : Store) (model : NNModule) (l : loc) :
  l < length s -> shadow_heap s model !!! l = s !!! l.
Proof. intros H. unfold shadow_heap. now rewrite lookup_total_app_l. Qed.

Lemma shadow_heap_new (s : Store) (model : NNModule) (i : nat) (l : loc) :
  parameters model !! i = Some l ->
  shadow_heap s model !!! (length s + i) = requires_grad_ (s !!! l) false.
Proof.
  intros H. unfold shadow_heap.
  rewrite lookup_total_app_r by lia.
  replace (length s + i - length s) with i by lia.
  apply list_lookup_total_correct.
  change (map ?f ?l) with (f <$> l). now rewrite list_lookup_fmap, H.
Qed.

Lemma ModelEMA_init_ok (s : Store) (model : NNModule) (decay : Q) (total : Z) :
  wf_module s model ->
  ModelEMA_init s model decay total
  = Ok ({| ema := shadow_module s model; initial_decay := decay;
           min_decay := 995 # 1000; total_epochs := total |},
        shadow_heap s model).
Proof.
  intros Hwf. unfold ModelEMA_init, deepcopy, set_training. cbn [parameters training].
  replace (length (parameters model))
    with (length (map (fun l => s !!! l) (parameters model)))
    by apply length_map.
  rewrite (freeze_fresh (fun t => requires_grad_ t false)), map_map, length_map.
  fold (shadow_heap s model).
  rewrite foldM_fixed; [reflexivity |].
  apply List.Forall_forall. intros [e m] Hin.
  apply (proj2 (list_elem_of_In _ _)) in Hin.
  apply list_elem_of_lookup in Hin. destruct Hin as [i Hi].
  apply lookup_zip_Some in Hi. destruct Hi as [He Hm].
  apply lookup_seq in He. destruct He as [-> _].
  assert (m < length s) as Hlt.
  { eapply Forall_lookup_1 in Hwf; [exact Hwf | exact Hm]. }
  rewrite (shadow_heap_new _ _ _ _ Hm), (shadow_heap_old _ _ _ Hlt).
  rewrite copy_same by reflexivity. cbn.
  f_equal. apply list_insert_id.
  apply list_lookup_alt. split.
  - unfold shadow_heap. rewrite length_app, length_map.
    apply lookup_lt_Some in Hm. lia.
  - now apply shadow_heap_new.
Qed.

(** ** ModelEMA: the update *)

Lemma zip_with_map_l {A B C D : Type} (g : A -> B) (f : B -> C -> D)
    (l : list A) (k : list C) :
  zip_with f (map g l) k = zip_with (fun x y => f (g x) y) l k.
Proof.
  revert k. induction l as [| a l IH]; intros [| c k]; simpl; try reflexivity.
  now rewrite IH.
Qed.

Lemma to_float_data (s : Store) (l : loc) :
  data (deref s (to_float s l)) = data (s !!! l).
Proof. unfold to_float. now destruct (dtype (s !!! l)). Qed.

Lemma map_zip_with {A B C D : Type} (f : C -> D) (g : A -> B -> C)
    (l : list A) (k : list B) :
  map f (zip_with g l k) = zip_with (fun x y => f (g x y)) l k.
Proof.
  revert k. induction l as [| a l IH]; intros [| b k]; simpl; try reflexivity.
  now rewrite IH.
Qed.

Lemma update_param_ok (decay : Q) (s : Store) (e m : loc) :
  e <> m -> e < length s ->
  length (data (s !!! e)) = length (data (s !!! m)) ->
  update_param decay s e m = Ok (<[e := blend decay (s !!! e) (s !!! m)]> s).
Proof.
  intros Hne Hlt Hlen. unfold update_param, blend, blend32.
  destruct (dtype (s !!! e)) eqn:De.
  - (* a float16 shadow: the arithmetic runs on a fresh float32 copy *)
    replace (to_float s e)
      with (Fresh {| data := data (s !!! e); dtype := Float32;
                     requires_grad := false |})
      by (unfold to_float; now rewrite De).
    cbn [assign deref].
    pose proof (to_float_data s m) as Hm.
    set (tm := deref s (to_float s m)) in *. clearbody tm.
    unfold add_, mul_, copy_. cbn [data dtype requires_grad cast].
    rewrite length_map, Hm, Hlen, Nat.eqb_refl. cbn [mbind result_bind].
    cbn [data dtype requires_grad cast].
    rewrite zip_with_map_l, length_zip_with_l_eq by exact Hlen.
    rewrite Hlen, Nat.eqb_refl. cbn [mbind result_bind].
    rewrite De, map_zip_with. reflexivity.
  - (* a float32 shadow is updated in place *)
    replace (to_float s e) with (Shared e) by (unfold to_float; now rewrite De).
    cbn [assign deref].
    assert (Hm : data (deref (<[e := mul_ (s !!! e) decay]> s) (to_float s m))
                 = data (s !!! m)).
    { unfold to_float. destruct (dtype (s !!! m)); simpl; [reflexivity |].
      now rewrite list_lookup_total_insert_ne. }
    set (tm := deref _ (to_float s m)) in *. clearbody tm.
    rewrite list_lookup_total_insert_eq by exact Hlt.
    unfold add_, mul_. cbn [data dtype requires_grad].
    rewrite length_map, Hm, Hlen, Nat.eqb_refl. cbn [mbind result_bind].
    cbn [assign deref].
    rewrite !list_lookup_total_insert_eq by (rewrite ?length_insert; exact Hlt).
    unfold copy_. rewrite Nat.eqb_refl. cbn [mbind result_bind].
    cbn [data dtype requires_grad].
    rewrite !list_insert_insert_eq, zip_with_map_l, map_cast_same, De.
    reflexivity.
Qed.

Lemma update_params_ok (decay : Q) (es ms : list loc) :
  forall s : Store,
    NoDup es ->
    (forall l, l ∈ es -> l ∉ ms) ->
    Forall (fun l => l < length s) es ->
    Forall2 (fun e m => length (data (s !!! e)) = length (data (s !!! m))) es ms ->
    exists s',
      foldM (fun s '(e, m) => update_param decay s e m) (zip es ms) s = Ok s'
      /\ length s' = length s
      /\ (forall l, l ∉ es -> s' !!! l = s !!! l)
      /\ (forall i e m, es !! i = Some e -> ms !! i = Some m ->
            s' !!! e = blend decay (s !!! e) (s !!! m)).
Proof.
  revert ms. induction es as [| e es IH]; intros ms s Hnd Hdis Hal Hsh.
  - exists s. simpl. repeat split; try reflexivity. intros i e m H. discriminate.
  - inversion Hsh as [| e0 m ? ms' Hlen Hsh']; subst.
    apply NoDup_cons in Hnd as [Hne Hnd].
    apply Forall_cons in Hal as [Hlt Hal].
    assert (Hem : e <> m).
    { intros ->. eapply Hdis; apply elem_of_cons; left; reflexivity. }
    cbn [zip zip_with foldM]. rewrite update_param_ok by assumption.
    cbn [mbind result_bind].
    set (s1 := <[e := blend decay (s !!! e) (s !!! m)]> s).
    assert (Hs1 : forall l, l <> e -> s1 !!! l = s !!! l).
    { intros l Hl. unfold s1. now rewrite list_lookup_total_insert_ne. }
    destruct (IH ms' s1) as (s' & Hrun & Hlen' & Hout & Hin).
    + exact Hnd.
    + intros l Hl Hl'. eapply Hdis; apply elem_of_cons; right; eassumption.
    + unfold s1. rewrite length_insert. exact Hal.
    + apply Forall2_same_length_lookup. split; [exact (Forall2_length _ _ _ Hsh') |].
      intros i e' m' He' Hm'.
      rewrite !Hs1.
      * exact (Forall2_lookup_lr _ _ _ _ _ _ Hsh' He' Hm').
      * intros ->. eapply Hdis; [apply elem_of_cons; left; reflexivity |].
        apply elem_of_cons; right. eapply list_elem_of_lookup_2; eassumption.
      * intros ->. apply Hne. eapply list_elem_of_lookup_2; eassumption.
    + exists s'. split; [exact Hrun |]. split.
      { rewrite Hlen'. unfold s1. apply length_insert. }
      split.
      * intros l Hl. apply not_elem_of_cons in Hl as [Hl1 Hl2].
        rewrite Hout by assumption. now apply Hs1.
      * intros [| i] e' m' He' Hm'; simpl in He', Hm'.
        -- injection He' as <-. injection Hm' as <-.
           rewrite Hout by assumption. unfold s1.
           now rewrite list_lookup_total_insert_eq.
        -- rewrite (Hin i e' m' He' Hm'). rewrite !Hs1; [reflexivity | |].
           ++ intros ->. eapply Hdis; [apply elem_of_cons; left; reflexivity |].
              apply elem_of_cons; right. eapply list_elem_of_lookup_2; eassumption.
           ++ intros ->. apply Hne. eapply list_elem_of_lookup_2; eassumption.
Qed.

Lemma ModelEMA_update_ok (s : Store) (self : ModelEMA) (model : NNModule)
    (epoch : Z) :
  ema_wf s self model -> total_epochs self <> 0%Z ->
  exists s',
    ModelEMA_update self model epoch s = Ok s'
    /\ length s' = length s
    /\ (forall l, l ∉ parameters (ema self) -> s' !!! l = s !!! l)
    /\ (forall i e m,
          parameters (ema self) !! i = Some e -> parameters model !! i = Some m ->
          s' !!! e = blend (py_max (linear_decay self epoch) (min_decay self))
                           (s !!! e) (s !!! m)).
Proof.
  intros [Hnd Hdis Hal Hsh _] Ht. unfold ModelEMA_update.
  rewrite ema_decay_ok by exact Ht. cbn [mbind result_bind].
  now apply update_params_ok.
Qed.

Lemma init_ema_wf (s : Store) (model : NNModule) (decay : Q) (total : Z) :
  wf_module s model ->
  ema_wf (shadow_heap s model)
         (mkEMA (shadow_module s model) decay (995 # 1000) total) model.
Proof.
  intros Hwf.
  assert (Hnew : forall e, e ∈ seq (length s) (length (parameters model)) ->
            exists i m, e = length s + i /\ parameters model !! i = Some m).
  { intros e He. apply elem_of_seq in He.
    destruct (lookup_lt_is_Some_2 (parameters model) (e - length s)) as [m Hm];
      [lia |].
    exists (e - length s), m. split; [lia | exact Hm]. }
  split; cbn [ema shadow_module parameters].
  - apply NoDup_seq.
  - intros l Hl Hl'. apply elem_of_seq in Hl.
    apply list_elem_of_lookup in Hl' as [i Hi].
    eapply Forall_lookup_1 in Hwf; [| exact Hi]. cbn beta in Hwf. lia.
  - apply Forall_forall. intros e He. apply elem_of_seq in He.
    unfold shadow_heap. rewrite length_app, length_map. lia.
  - apply Forall2_same_length_lookup. split; [apply length_seq |].
    intros i e m He Hm. apply lookup_seq in He as [-> _].
    rewrite (shadow_heap_new _ _ _ _ Hm).
    rewrite shadow_heap_old; [reflexivity |].
    eapply Forall_lookup_1 in Hwf; [exact Hwf | exact Hm].
  - apply Forall_forall. intros e He.
    destruct (Hnew e He) as (i & m & -> & Hm).
    now rewrite (shadow_heap_new _ _ _ _ Hm).
Qed.

(** C6.  With a positive epoch budget, [update] uses the decay
    [max(initial_decay - (initial_decay - min_decay) * (epoch / total_epochs),
    min_decay)]; when [initial_decay >= min_decay] this decay never
    increases as the epoch grows, is [initial_decay] at epoch 0 and is
    [min_decay] from epoch [total_epochs] on. *)
Theorem ema_decay_schedule (self : ModelEMA) :
  (0 < total_epochs self)%Z ->
  (min_decay self <= initial_decay self)%Q ->
  (forall e : Z, exists d,
      ema_decay self e = Ok d /\
      (d == Qmax (initial_decay self
                  - (initial_decay self - min_decay self)
                    * (inject_Z e / inject_Z (total_epochs self)))
                 (min_decay self))%Q)
  /\ (forall e1 e2 : Z, (e1 <= e2)%Z -> exists d1 d2,
        ema_decay self e1 = Ok d1 /\ ema_decay self e2 = Ok d2 /\ (d2 <= d1)%Q)
  /\ (exists d0, ema_decay self 0 = Ok d0 /\ (d0 == initial_decay self)%Q)
  /\ (forall e : Z, (total_epochs self <= e)%Z -> exists d,
        ema_decay self e = Ok d /\ (d == min_decay self)%Q).
Proof.
  intros Ht Hd.
  assert (Hnz : total_epochs self <> 0%Z) by lia.
  repeat split.
  - intros e. eexists. split; [apply ema_decay_ok; exact Hnz |].
    apply py_max_Qmax.
  - intros e1 e2 He. do 2 eexists.
    split; [apply ema_decay_ok; exact Hnz |].
    split; [apply ema_decay_ok; exact Hnz |].
    rewrite !py_max_Qmax. apply Q.max_le_compat_r.
    now apply linear_decay_mono.
  - eexists. split; [apply ema_decay_ok; exact Hnz |].
    rewrite py_max_Qmax, linear_decay_0. now apply Q.max_l.
  - intros e He. eexists. split; [apply ema_decay_ok; exact Hnz |].
    rewrite py_max_Qmax. apply Q.max_r.
    rewrite <- (linear_decay_total self Ht).
    now apply linear_decay_mono.
Qed.

Lemma ema_decay_schedule_witness :
  exists d1 d2,
    ema_decay Toy.shadow 10 = Ok d1 /\ ema_decay Toy.shadow 20 = Ok d2
    /\ (d2 <= d1)%Q.
Proof.
  refine (proj1 (proj2 (ema_decay_schedule Toy.shadow _ _)) 10%Z 20%Z _).
  - reflexivity.
  - vm_compute. discriminate.
  - lia.
Defined.

(** C3 (as the code has it).  [ModelEMA(model)] never fails, whether or
    not the model has trainable parameters: it returns a shadow whose
    tensors are fresh, frozen, exact value copies of all the model's
    parameters, and leaves the model's own tensors as they were. *)
Theorem ModelEMA_init_copies (s : Store) (model : NNModule) (decay : Q)
    (total : Z) :
  wf_module s model ->
  exists self s',
    ModelEMA_init s model decay total = Ok (self, s')
    /\ length (parameters (ema self)) = length (parameters model)
    /\ (forall i l, parameters model !! i = Some l ->
          exists l', parameters (ema self) !! i = Some l'
            /\ (l' ∉ parameters model)
            /\ data (s' !!! l') = data (s !!! l)
            /\ dtype (s' !!! l') = dtype (s !!! l)
            /\ requires_grad (s' !!! l') = false)
    /\ (forall l, l < length s -> s' !!! l = s !!! l).
Proof.
  intros Hwf. do 2 eexists. split; [now apply ModelEMA_init_ok |].
  cbn [ema shadow_module parameters]. split; [apply length_seq |]. split.
  - intros i l Hl. exists (length s + i). split.
    + apply lookup_seq. split; [reflexivity |]. now apply lookup_lt_Some in Hl.
    + split.
      * intros Hin. apply list_elem_of_lookup in Hin as [k Hk].
        eapply Forall_lookup_1 in Hwf; [| exact Hk]. cbn beta in Hwf. lia.
      * now rewrite (shadow_heap_new _ _ _ _ Hl).
  - intros l Hl. now apply shadow_heap_old.
Qed.

Lemma ModelEMA_init_copies_witness :
  exists self s',
    ModelEMA_init Toy.heap0 Toy.net (999 # 1000) 50 = Ok (self, s')
    /\ length (parameters (ema self)) = length (parameters Toy.net)
    /\ (forall i l, parameters Toy.net !! i = Some l ->
          exists l', parameters (ema self) !! i = Some l'
            /\ (l' ∉ parameters Toy.net)
            /\ data (s' !!! l') = data (Toy.heap0 !!! l)
            /\ dtype (s' !!! l') = dtype (Toy.heap0 !!! l)
            /\ requires_grad (s' !!! l') = false)
    /\ (forall l, l < length Toy.heap0 -> s' !!! l = Toy.heap0 !!! l).
Proof.
  apply (ModelEMA_init_copies Toy.heap0 Toy.net (999 # 1000) 50).
  repeat constructor.
Defined.

(** C3 (as stated) fails: a model without any parameter, hence without a
    trainable one, is accepted by the constructor. *)
Lemma ModelEMA_init_accepts_parameterless :
  trainable [] (mkModule [] true) = []
  /\ ModelEMA_init [] (mkModule [] true) (999 # 1000) 50
     = Ok (mkEMA (mkModule [] false) (999 # 1000) (995 # 1000) 50, []).
Proof. split; reflexivity. Qed.

(** C5.  On a shadow built by the constructor, [update(model, epoch)]
    succeeds and replaces every element of every shadow parameter by the
    blend of line 66 evaluated in float32, [blend32 decay x y], where
    [decay] is the epoch's annealed decay: the scalars are converted to
    float32 and the two products and the sum are each rounded to 24
    significant bits, whatever the dtype of the shadow.  For a decay in
    [0, 1] this value is within [2^-22 * (|x| + |y|) + 2^-147] of the
    exact [decay * x + (1 - decay) * y].  A float32 shadow holds it as it
    is; a float16 shadow holds it rounded once, as it is stored.  The
    shadow keeps its dtype and stays out of autograd ([requires_grad]
    false), and no tensor of the live model changes. *)
Theorem ema_update_blend (s : Store) (self : ModelEMA) (model : NNModule)
    (epoch : Z) :
  ema_wf s self model ->
  total_epochs self <> 0%Z ->
  exists decay s',
    ema_decay self epoch = Ok decay
    /\ ModelEMA_update self model epoch s = Ok s'
    /\ (forall i e, parameters (ema self) !! i = Some e ->
          exists m, parameters model !! i = Some m
            /\ dtype (s' !!! e) = dtype (s !!! e)
            /\ requires_grad (s' !!! e) = false
            /\ length (data (s' !!! e)) = length (data (s !!! e))
            /\ (forall j x y,
                  data (s !!! e) !! j = Some x -> data (s !!! m) !! j = Some y ->
                  exists z, data (s' !!! e) !! j = Some z
                    /\ (dtype (s !!! e) = Float32 -> z = blend32 decay x y)
                    /\ (dtype (s !!! e) = Float16 ->
                        z = fl16 (blend32 decay x y))
                    /\ ((0 <= decay)%Q -> (decay <= 1)%Q ->
                        (Qabs (blend32 decay x y
                               - (decay * x + (1 - decay) * y))
                         <= (1 # 4194304) * (Qabs x + Qabs y)
                            + 2 ^ (-147))%Q)))
    /\ (forall m, m ∈ parameters model -> s' !!! m = s !!! m).
Proof.
  intros Hwf Ht.
  destruct (ModelEMA_update_ok s self model epoch Hwf Ht)
    as (s' & Hrun & _ & Hout & Hin).
  destruct Hwf as [Hnd Hdis Hal Hsh Hfr].
  exists (py_max (linear_decay self epoch) (min_decay self)), s'.
  split; [now apply ema_decay_ok |]. split; [exact Hrun |]. split.
  - intros i e He.
    destruct (Forall2_lookup_l _ _ _ _ _ Hsh He) as (m & Hm & Hlen).
    exists m. split; [exact Hm |].
    rewrite (Hin i e m He Hm). cbn [blend data dtype requires_grad].
    split; [reflexivity |]. split.
    { eapply Forall_lookup_1 in Hfr; [exact Hfr | exact He]. }
    split.
    { now rewrite length_zip_with_l_eq. }
    intros j x y Hx Hy. eexists. split.
    + rewrite lookup_zip_with, Hx, Hy. reflexivity.
    + split; [| split].
      * intros ->. reflexivity.
      * intros ->. reflexivity.
      * intros H0 H1. now apply blend32_error.
  - intros m Hm. apply Hout. intros He. exact (Hdis m He Hm).
Qed.

(** At epoch 25 the decay is 0.997: a float32 shadow at [5; 6] against
    live values [1; 2] moves to 4.987999439239502 and 5.98799991607666
    (the exact blend is 4.988 and 5.988), and a float16 shadow at 1
    against a live 1.0498046875 stays at 1. *)
Lemma ema_update_blend_witness :
  exists s',
    ModelEMA_update Toy.shadow Toy.net 25 Toy.heap2 = Ok s'
    /\ data (s' !!! 2) = [10460593 # 2097152; 6278873 # 1048576]%Q
    /\ data (s' !!! 3) = [1]%Q
    /\ s' !!! 0 = Toy.heap2 !!! 0
    /\ s' !!! 1 = Toy.heap2 !!! 1.
Proof.
  assert (Hwf : ema_wf Toy.heap2 Toy.shadow Toy.net).
  { split; cbn [ema Toy.shadow parameters Toy.net].
    - apply (NoDup_seq 2 2).
    - intros l Hl Hl'. apply (elem_of_seq 2 2) in Hl.
      apply (elem_of_seq 0 2) in Hl'. lia.
    - repeat constructor.
    - repeat constructor.
    - repeat constructor. }
  destruct (ema_update_blend Toy.heap2 Toy.shadow Toy.net 25 Hwf)
    as (decay & s' & _ & Hrun & _ & Hlive).
  - discriminate.
  - exists s'. split; [exact Hrun |].
    vm_compute in Hrun. injection Hrun as <-.
    split; [reflexivity |]. split; [reflexivity |].
    split; apply Hlive; [left | right; left].
Defined.

(** ** The batch loop *)

Lemma same_shapes_refl (s : Store) : same_shapes s s.
Proof. split; [reflexivity | intros l; split; reflexivity]. Qed.

Lemma same_shapes_trans (s1 s2 s3 : Store) :
  same_shapes s1 s2 -> same_shapes s2 s3 -> same_shapes s1 s3.
Proof.
  intros [H1 H1'] [H2 H2']. split; [congruence |].
  intros l. destruct (H1' l), (H2' l). split; congruence.
Qed.

Lemma ema_wf_same_shapes (s s' : Store) (self : ModelEMA) (model : NNModule) :
  ema_wf s self model -> same_shapes s s' -> ema_wf s' self model.
Proof.
  intros [Hnd Hdis Hal Hsh Hfr] [Hlen Hcell]. split.
  - exact Hnd.
  - exact Hdis.
  - rewrite Hlen. exact Hal.
  - eapply Forall2_impl; [exact Hsh |]. cbn beta. intros e m He.
    destruct (Hcell e) as [-> _], (Hcell m) as [-> _]. exact He.
  - eapply Forall_impl; [exact Hfr |]. cbn beta. intros e He.
    destruct (Hcell e) as [_ ->]. exact He.
Qed.

Lemma insert_same_shapes (s : Store) (l : loc) (t : Tensor) :
  length (data t) = length (data (s !!! l)) ->
  requires_grad t = requires_grad (s !!! l) ->
  same_shapes s (<[l := t]> s).
Proof.
  intros Hd Hr. split; [apply length_insert |].
  intros l'. rewrite list_lookup_total_insert.
  destruct (decide (l = l' /\ l < length s)) as [[<- _] |]; auto.
Qed.

Lemma apply_step_same_shapes (f : nat -> nat -> Q -> Q) (ps : list loc)
    (s : Store) :
  same_shapes s (apply_step f ps s).
Proof.
  unfold apply_step. generalize (imap pair ps). intros pairs. revert s.
  induction pairs as [| [i l] pairs IH]; intros s; simpl.
  - apply same_shapes_refl.
  - eapply same_shapes_trans; [| apply IH].
    apply insert_same_shapes; unfold set_data; cbn [data requires_grad].
    + apply length_imap.
    + reflexivity.
Qed.

Lemma ModelEMA_update_same_shapes (s s' : Store) (self : ModelEMA)
    (model : NNModule) (epoch : Z) :
  ema_wf s self model ->
  ModelEMA_update self model epoch s = Ok s' ->
  same_shapes s s'.
Proof.
  intros Hwf Hrun.
  assert (Ht : total_epochs self <> 0%Z).
  { intros Hz. unfold ModelEMA_update, ema_decay, py_truediv_int in Hrun.
    rewrite Hz in Hrun. discriminate. }
  destruct (ModelEMA_update_ok s self model epoch Hwf Ht)
    as (s2 & Hrun2 & Hlen & Hout & Hin).
  rewrite Hrun in Hrun2. injection Hrun2 as <-.
  split; [exact Hlen |]. intros l.
  destruct (decide (l ∈ parameters (ema self))) as [Hl | Hl].
  - apply list_elem_of_lookup in Hl as [i Hi].
    destruct (Forall2_lookup_l _ _ _ _ _ (wf_shapes _ _ _ Hwf) Hi)
      as (m & Hm & Hsh).
    rewrite (Hin i l m Hi Hm). cbn [blend data requires_grad].
    split; [now rewrite length_zip_with_l_eq | reflexivity].
  - rewrite (Hout l Hl). split; reflexivity.
Qed.

Lemma policy_state_kept_refl {T : Type} (w : World T) : policy_state_kept w w.
Proof. repeat split. Qed.

Lemma policy_state_kept_trans {T : Type} (w1 w2 w3 : World T) :
  policy_state_kept w1 w2 -> policy_state_kept w2 w3 -> policy_state_kept w1 w3.
Proof.
  intros (A1 & B1 & C1 & D1) (A2 & B2 & C2 & D2). repeat split; congruence.
Qed.

Lemma trace_emit {T : Type} (e : Event) (w : World T) :
  trace (emit e w) = trace w ++ [e].
Proof. reflexivity. Qed.

Lemma trace_set_heap {T : Type} (h : Store) (w : World T) :
  trace (set_heap h w) = trace w.
Proof. reflexivity. Qed.

Lemma trace_lib_call {T : Type} (e : Event) (f : T -> T) (w : World T) :
  trace (lib_call e f w) = trace w ++ [e].
Proof. reflexivity. Qed.

Lemma trace_scaler_step {T Batch Output : Type} (lib : TorchLib T Batch Output)
    (net : NNModule) (w : World T) :
  trace (scaler_step lib net w) = trace w ++ [OptimizerStep].
Proof. reflexivity. Qed.

Lemma indices_from_cons (i : Z) (n : nat) :
  indices_from i (S n) = i :: indices_from (i + 1) n.
Proof.
  unfold indices_from. cbn [seq map]. rewrite Z.add_0_r. f_equal.
  rewrite <- seq_shift, map_map. apply map_ext. intros k. lia.
Qed.

Section LoopFacts.
Context {T Batch Output : Type} (lib : TorchLib T Batch Output).
Variables (loss : Output -> Batch -> Q) (net : NNModule) (self : ModelEMA).
Variables (accum_steps epoch total_batches : Z).
Hypothesis accum_nonzero : accum_steps <> 0%Z.
Hypothesis total_nonzero : total_epochs self <> 0%Z.

Lemma optimizer_step_block_ok (w : World T) :
  ema_wf (heap w) self net ->
  exists w',
    optimizer_step_block lib net self epoch w = Ok w'
    /\ trace w' = trace w ++ step_block_events epoch
    /\ same_shapes (heap w) (heap w')
    /\ policy_state_kept w w'.
Proof.
  intros Hwf. unfold optimizer_step_block.
  set (w1 := lib_call Unscale (unscale_ lib) w).
  set (w2 := lib_call (ClipGradNorm 2) _ w1).
  set (w3 := scaler_step lib net w2).
  set (w4 := lib_call ScalerUpdate (scaler_update lib) w3).
  set (w5 := lib_call ZeroGrad (zero_grad lib) w4).
  assert (Hs : same_shapes (heap w) (heap w5)) by apply apply_step_same_shapes.
  assert (Hwf5 : ema_wf (heap w5) self net)
    by (eapply ema_wf_same_shapes; eassumption).
  destruct (ModelEMA_update_ok (heap w5) self net epoch Hwf5 total_nonzero)
    as (h & Hrun & _).
  rewrite Hrun. cbn [mbind result_bind]. eexists. split; [reflexivity |].
  split; [| split].
  - rewrite trace_emit, trace_set_heap. unfold w5, w4, w3, w2, w1.
    rewrite !trace_lib_call, trace_scaler_step, !trace_lib_call.
    rewrite <- !app_assoc. reflexivity.
  - eapply same_shapes_trans; [exact Hs |].
    eapply ModelEMA_update_same_shapes; eassumption.
  - repeat split.
Qed.

Lemma py_mod_ok (a : Z) : py_mod a accum_steps = Ok (a mod accum_steps)%Z.
Proof.
  unfold py_mod. destruct (Z.eqb_spec accum_steps 0); [contradiction | reflexivity].
Qed.

Lemma train_batch_ok (sums : EpochSums) (w : World T) (i : Z) (b : Batch) :
  ema_wf (heap w) self net ->
  exists sums' w',
    train_batch lib loss net self accum_steps epoch total_batches sums w i b
    = Ok (sums', w')
    /\ trace w' = trace w ++ batch_events accum_steps epoch total_batches i
    /\ same_shapes (heap w) (heap w')
    /\ policy_state_kept w w'.
Proof.
  intros Hwf. unfold train_batch, batch_events, is_boundary.
  destruct (forward lib (torch w) net (heap w) b) as [t y_hat].
  rewrite py_mod_ok. cbn [mbind result_bind].
  set (w0 := lib_call Backward _ (emit (Forward i) (set_torch t w))).
  assert (Htr0 : trace w0 = trace w ++ [Forward i; Backward]).
  { unfold w0. rewrite trace_lib_call, trace_emit, <- app_assoc. reflexivity. }
  destruct (((i + 1) mod accum_steps =? 0)%Z || (i + 1 =? total_batches)%Z).
  - destruct (optimizer_step_block_ok w0) as (w' & Hrun & Htr & Hsh & Hkeep);
      [exact Hwf |].
    rewrite Hrun. cbn [mbind result_bind]. do 2 eexists.
    split; [reflexivity |]. split; [| split].
    + rewrite Htr, Htr0, <- app_assoc. reflexivity.
    + exact Hsh.
    + exact Hkeep.
  - cbn [mbind result_bind]. do 2 eexists. split; [reflexivity |].
    split; [| split].
    + rewrite Htr0, app_nil_r. reflexivity.
    + apply same_shapes_refl.
    + repeat split.
Qed.

Lemma batch_loop_ok (batches : list Batch) :
  forall (i : Z) (sums : EpochSums) (w : World T),
    ema_wf (heap w) self net ->
    exists sums' w',
      batch_loop lib loss net self accum_steps epoch total_batches batches
                 i sums w = Ok (sums', w')
      /\ trace w' = trace w
                    ++ concat (map (batch_events accum_steps epoch total_batches)
                                   (indices_from i (length batches)))
      /\ same_shapes (heap w) (heap w')
      /\ policy_state_kept w w'.
Proof.
  induction batches as [| b batches IH]; intros i sums w Hwf.
  - exists sums, w. split; [reflexivity |]. split; [| split].
    + simpl. now rewrite app_nil_r.
    + apply same_shapes_refl.
    + apply policy_state_kept_refl.
  - destruct (train_batch_ok sums w i b Hwf)
      as (sums1 & w1 & Hrun1 & Htr1 & Hsh1 & Hk1).
    destruct (IH (i + 1)%Z sums1 w1) as (sums2 & w2 & Hrun2 & Htr2 & Hsh2 & Hk2).
    { eapply ema_wf_same_shapes; eassumption. }
    exists sums2, w2. split; [| split; [| split]].
    + cbn [batch_loop]. rewrite Hrun1. cbn [mbind result_bind]. exact Hrun2.
    + rewrite Htr2, Htr1, <- app_assoc. cbn [length].
      rewrite indices_from_cons. reflexivity.
    + eapply same_shapes_trans; eassumption.
    + eapply policy_state_kept_trans; eassumption.
Qed.

End LoopFacts.

Lemma steps_fired_batch (accum_steps epoch total_batches i last : Z)
    (rest : list Event) :
  steps_fired last (batch_events accum_steps epoch total_batches i ++ rest)
  = (if is_boundary accum_steps total_batches i then [i] else [])
    ++ steps_fired i rest.
Proof.
  unfold batch_events. destruct (is_boundary accum_steps total_batches i);
    reflexivity.
Qed.

Lemma steps_fired_epoch (accum_steps epoch total_batches : Z) (idxs : list Z) :
  forall last,
    steps_fired last
      (concat (map (batch_events accum_steps epoch total_batches) idxs))
    = List.filter (is_boundary accum_steps total_batches) idxs.
Proof.
  induction idxs as [| i idxs IH]; intros last; [reflexivity |].
  cbn [map concat List.filter]. rewrite steps_fired_batch, IH.
  destruct (is_boundary accum_steps total_batches i); reflexivity.
Qed.

Lemma indices_from_0 (n : nat) : indices_from 0 n = py_range (Z.of_nat n).
Proof.
  unfold indices_from, py_range. rewrite Nat2Z.id. apply map_ext.
  intros k. apply Z.add_0_l.
Qed.

(** C4.  In an epoch over [N] batches with [accum_steps >= 1] the library
    is asked, batch after batch, for a forward and a backward pass, and
    the optimizer-step block (unscale, clip, step, scaler update, zero
    grad, EMA update) runs exactly after the batches whose 0-based index
    [i] has [(i+1) % accum_steps == 0] or [i+1 == N]; for
    [accum_steps = 4] and [N = 10] these are the batches of index 3, 7
    and 9. *)
Theorem optimizer_step_boundaries {T Batch Output : Type}
    (lib : TorchLib T Batch Output) (loss : Output -> Batch -> Q)
    (net : NNModule) (self : ModelEMA) (accum_steps epoch : Z)
    (train_iter : list Batch) (w : World T) :
  (1 <= accum_steps)%Z ->
  ema_wf (heap w) self net ->
  total_epochs self <> 0%Z ->
  let N := Z.of_nat (length train_iter) in
  let calls := concat (map (batch_events accum_steps epoch N) (py_range N)) in
  exists sums w',
    run_batches lib loss net self accum_steps epoch train_iter w = Ok (sums, w')
    /\ trace w' = trace w ++ calls
    /\ steps_fired (-1) calls
       = List.filter (fun i => ((i + 1) mod accum_steps =? 0)%Z
                               || (i + 1 =? N)%Z) (py_range N)
    /\ (accum_steps = 4%Z -> N = 10%Z -> steps_fired (-1) calls = [3; 7; 9]%Z).
Proof.
  intros Hacc Hwf Ht N calls. unfold run_batches.
  assert (Hnz : accum_steps <> 0%Z) by lia.
  destruct (batch_loop_ok lib loss (set_training true net) self accum_steps
              epoch N Hnz Ht train_iter 0%Z (mkSums 0 0 0) w)
    as (sums & w' & Hrun & Htr & _ & _).
  { destruct Hwf. split; assumption. }
  rewrite indices_from_0 in Htr. fold N in Htr.
  assert (Hfired : steps_fired (-1) calls
                   = List.filter (is_boundary accum_steps N) (py_range N))
    by apply steps_fired_epoch.
  exists sums, w'. split; [exact Hrun |]. split; [exact Htr |].
  split; [exact Hfired |].
  intros -> HN. rewrite Hfired, HN. reflexivity.
Qed.

Lemma optimizer_step_boundaries_witness :
  exists sums w',
    run_batches Toy.lib Toy.loss Toy.net Toy.shadow 4 0 Toy.ten_batches Toy.world1
    = Ok (sums, w')
    /\ steps_fired (-1) (trace w') = [3; 7; 9]%Z.
Proof.
  destruct (optimizer_step_boundaries Toy.lib Toy.loss Toy.net Toy.shadow 4 0
              Toy.ten_batches Toy.world1)
    as (sums & w' & Hrun & Htr & _ & Hex).
  - lia.
  - apply (init_ema_wf Toy.heap0 Toy.net (999 # 1000) 50). repeat constructor.
  - discriminate.
  - exists sums, w'. split; [exact Hrun |].
    rewrite Htr. exact (Hex eq_refl eq_refl).
Defined.

(** ** The evaluator *)

Section EvalFacts.
Context {T Batch Output : Type} (lib : TorchLib T Batch Output).
Variable loss_fn : Output -> Batch -> Q.

Lemma size_of_pos (b : Batch) : (0 < size_of lib b)%Z.
Proof. unfold size_of. lia. Qed.

Lemma samples_nonneg (outs : list (Batch * Output)) : (0 <= samples lib outs)%Z.
Proof.
  induction outs as [| bo outs IH]; simpl; [lia |].
  pose proof (size_of_pos (fst bo)). lia.
Qed.

Lemma samples_pos (outs : list (Batch * Output)) :
  outs <> [] -> (0 < samples lib outs)%Z.
Proof.
  destruct outs as [| bo outs]; [congruence | intros _]. simpl.
  pose proof (size_of_pos (fst bo)). pose proof (samples_nonneg outs). lia.
Qed.

Lemma size_times_accuracy (bo : Batch * Output) :
  (inject_Z (size_of lib (fst bo)) * batch_accuracy lib bo
   == inject_Z (num_correct lib (snd bo) (fst bo)))%Q.
Proof.
  unfold batch_accuracy. rewrite Qmult_div_r; [reflexivity |].
  change 0%Q with (inject_Z 0). rewrite inject_Z_injective.
  pose proof (size_of_pos (fst bo)). lia.
Qed.

Lemma eval_outputs_length (model : NNModule) (s : Store)
    (data_iter : list Batch) :
  forall t, length (eval_outputs lib model s t data_iter) = length data_iter.
Proof.
  induction data_iter as [| b rest IH]; intros t; simpl; [reflexivity |].
  destruct (forward lib t model s b). simpl. now rewrite IH.
Qed.

Lemma eval_fold (model : NNModule) (data_iter : list Batch) :
  forall (acc_sum loss_sum : Q) (n : Z) (w : World T),
    let outs := eval_outputs lib model (heap w) (torch w) data_iter in
    exists acc_sum' loss_sum' w',
      fold_left (eval_batch lib loss_fn model) data_iter
                (acc_sum, loss_sum, n, w)
      = (acc_sum', loss_sum', (n + samples lib outs)%Z, w')
      /\ (acc_sum' == acc_sum + weighted_accuracy_sum lib outs)%Q
      /\ (loss_sum' == loss_sum + weighted_loss_sum lib loss_fn outs)%Q
      /\ heap w' = heap w /\ trace w' = trace w /\ policy_state_kept w w'.
Proof.
  induction data_iter as [| b rest IH]; intros acc_sum loss_sum n w; cbn zeta.
  - exists acc_sum, loss_sum, w. cbn. rewrite Z.add_0_r.
    repeat split; ring.
  - cbn [fold_left eval_outputs]. unfold eval_batch at 2.
    destruct (forward lib (torch w) model (heap w) b) as [t output].
    specialize (IH (acc_sum + inject_Z (num_correct lib output b))%Q
                   (loss_sum + loss_fn output b * inject_Z (size_of lib b))%Q
                   (n + size_of lib b)%Z (set_torch t w)).
    cbn zeta in IH. cbn [set_torch heap torch] in IH.
    destruct IH as (a' & l' & w' & Hrun & Ha & Hl & Hh & Htr & Hk).
    exists a', l', w'. split; [| split; [| split; [| split; [| split]]]].
    + rewrite Hrun. cbn [samples fold_right fst]. do 2 f_equal.
      fold (samples lib (eval_outputs lib model (heap w) t rest)). lia.
    + rewrite Ha. cbn [weighted_accuracy_sum fold_right].
      rewrite size_times_accuracy. cbn [fst snd].
      fold (weighted_accuracy_sum lib (eval_outputs lib model (heap w) t rest)).
      ring.
    + rewrite Hl. cbn [weighted_loss_sum fold_right fst snd].
      fold (weighted_loss_sum lib loss_fn
              (eval_outputs lib model (heap w) t rest)).
      ring.
    + exact Hh.
    + exact Htr.
    + destruct Hk as (A & B & C & D). repeat split; assumption.
Qed.

Lemma py_truediv_ok (a : Q) (n : Z) :
  n <> 0%Z -> py_truediv a n = Ok (a / inject_Z n)%Q.
Proof.
  intros Hn. unfold py_truediv. destruct (Z.eqb_spec n 0); [contradiction | reflexivity].
Qed.

(** On an accepted call with at least one batch the evaluator returns
    the two sample-weighted means. *)
Lemma evaluate_accuracy_ok (data_iter : list Batch) (net : NNModule)
    (device : option Device) (use_ema : bool) (ema_model : option ModelEMA)
    (w : World T) :
  (device = None -> parameters net <> []) ->
  (use_ema = true -> ema_model <> None) ->
  data_iter <> [] ->
  let outs := eval_outputs lib (selected_model net use_ema ema_model)
                           (heap w) (torch w) data_iter in
  exists acc l w',
    evaluate_accuracy lib data_iter net loss_fn device use_ema ema_model w
    = Ok (acc, l, w')
    /\ (acc == weighted_accuracy_sum lib outs / inject_Z (samples lib outs))%Q
    /\ (l == weighted_loss_sum lib loss_fn outs / inject_Z (samples lib outs))%Q
    /\ heap w' = heap w /\ trace w' = trace w /\ policy_state_kept w w'.
Proof.
  intros Hdev Hema Hne outs. unfold evaluate_accuracy.
  assert (Hd : match device, parameters net with
               | None, [] => Err StopIteration
               | _, _ => Ok tt
               end = Ok tt).
  { destruct device; [reflexivity |].
    destruct (parameters net); [now specialize (Hdev eq_refl) | reflexivity]. }
  rewrite Hd. cbn [mbind result_bind].
  assert (Hsel : (if use_ema then
                    match ema_model with
                    | None => Err (ValueError
                                "ema_model must be provided when use_ema is True")
                    | Some e => Ok (ema e)
                    end
                  else Ok net)
                 = Ok (if use_ema then
                         match ema_model with Some e => ema e | None => net end
                       else net)).
  { destruct use_ema; [| reflexivity].
    destruct ema_model; [reflexivity | now specialize (Hema eq_refl)]. }
  rewrite Hsel. cbn [mbind result_bind].
  fold (selected_model net use_ema ema_model).
  destruct (eval_fold (selected_model net use_ema ema_model) data_iter 0 0 0%Z w)
    as (a' & l' & w' & Hrun & Ha & Hl & Hh & Htr & Hk).
  rewrite Hrun. fold outs. rewrite Z.add_0_l.
  assert (Hpos : (0 < samples lib outs)%Z).
  { apply samples_pos. intros Hnil. apply Hne.
    apply (f_equal (@length _)) in Hnil. unfold outs in Hnil.
    rewrite eval_outputs_length in Hnil. now destruct data_iter. }
  rewrite !py_truediv_ok by lia. cbn [mbind result_bind].
  exists (a' / inject_Z (samples lib outs))%Q,
         (l' / inject_Z (samples lib outs))%Q, w'.
  split; [reflexivity |]. fold outs in Ha, Hl.
  split; [rewrite Ha; now rewrite Qplus_0_l |].
  split; [rewrite Hl; now rewrite Qplus_0_l |].
  repeat split; try assumption; apply Hk.
Qed.

(** On an accepted call without any batch the division raises. *)
Lemma evaluate_accuracy_empty (net : NNModule) (device : option Device)
    (use_ema : bool) (ema_model : option ModelEMA) (w : World T) :
  (device = None -> parameters net <> []) ->
  (use_ema = true -> ema_model <> None) ->
  evaluate_accuracy lib [] net loss_fn device use_ema ema_model w
  = Err ZeroDivisionError.
Proof.
  intros Hdev Hema. unfold evaluate_accuracy.
  destruct device as [d |], (parameters net) as [| p ps], use_ema,
    ema_model as [e |]; try reflexivity;
    try (now specialize (Hdev eq_refl)); now specialize (Hema eq_refl).
Qed.

End EvalFacts.

(** ** The epoch's running sums *)

Section SumFacts.
Context {T Batch Output : Type} (lib : TorchLib T Batch Output).
Variables (loss : Output -> Batch -> Q) (net : NNModule) (self : ModelEMA).
Variables (accum_steps epoch total_batches : Z).
Hypothesis accum_nonzero : accum_steps <> 0%Z.

Lemma unscaled_loss_eq (l : Q) :
  (l / inject_Z accum_steps * inject_Z accum_steps == l)%Q.
Proof.
  unfold Qdiv. rewrite <- Qmult_assoc, (Qmult_comm (/ _)), Qmult_inv_r.
  - apply Qmult_1_r.
  - change 0%Q with (inject_Z 0). rewrite inject_Z_injective. lia.
Qed.

Lemma train_batch_sums (sums sums' : EpochSums) (w w' : World T) (i : Z)
    (b : Batch) :
  train_batch lib loss net self accum_steps epoch total_batches sums w i b
  = Ok (sums', w') ->
  let y_hat := snd (forward lib (torch w) net (heap w) b) in
  n_seen sums' = (n_seen sums + size_of lib b)%Z
  /\ (train_acc_sum sums'
      == train_acc_sum sums + inject_Z (num_correct lib y_hat b))%Q
  /\ (train_l_sum sums'
      == train_l_sum sums + inject_Z (size_of lib b) * loss y_hat b)%Q.
Proof.
  unfold train_batch.
  destruct (forward lib (torch w) net (heap w) b) as [t y_hat]. cbn [snd].
  destruct (py_mod (i + 1) accum_steps) as [r | e]; [| discriminate].
  cbn [mbind result_bind].
  match goal with
  | |- context [if ?c then _ else _] => destruct c
  end.
  - match goal with
    | |- context [optimizer_step_block ?a ?b ?c ?d ?e] =>
        destruct (optimizer_step_block a b c d e) as [w1 | e1]; [| discriminate]
    end.
    cbn [mbind result_bind]. intros H. injection H as <- _.
    cbn [n_seen train_acc_sum train_l_sum].
    split; [reflexivity |]. split; [reflexivity |].
    rewrite unscaled_loss_eq. ring.
  - cbn [mbind result_bind]. intros H. injection H as <- _.
    cbn [n_seen train_acc_sum train_l_sum].
    split; [reflexivity |]. split; [reflexivity |].
    rewrite unscaled_loss_eq. ring.
Qed.

Lemma batch_loop_sums (batches : list Batch) :
  forall (i : Z) (sums sums' : EpochSums) (w w' : World T),
    batch_loop lib loss net self accum_steps epoch total_batches batches
               i sums w = Ok (sums', w') ->
    let outs := train_outputs lib loss net self accum_steps epoch
                              total_batches batches i sums w in
    length outs = length batches
    /\ n_seen sums' = (n_seen sums + samples lib outs)%Z
    /\ (train_acc_sum sums'
        == train_acc_sum sums + weighted_accuracy_sum lib outs)%Q
    /\ (train_l_sum sums'
        == train_l_sum sums + weighted_loss_sum lib loss outs)%Q.
Proof.
  induction batches as [| b rest IH]; intros i sums sums' w w' Hrun; cbn zeta.
  - injection Hrun as <- _. cbn. rewrite Z.add_0_r. repeat split; ring.
  - cbn [batch_loop] in Hrun. cbn [train_outputs].
    destruct (train_batch lib loss net self accum_steps epoch total_batches
                          sums w i b) as [[sums1 w1] | e] eqn:Hb;
      [| discriminate].
    cbn [mbind result_bind] in Hrun.
    destruct (train_batch_sums _ _ _ _ _ _ Hb) as (Hn & Ha & Hl).
    destruct (IH _ _ _ _ _ Hrun) as (Hlen & Hn' & Ha' & Hl').
    set (rest_outs := train_outputs lib loss net self accum_steps epoch
                        total_batches rest (i + 1) sums1 w1) in *.
    cbn [length samples weighted_accuracy_sum weighted_loss_sum fold_right
         fst snd].
    fold (samples lib rest_outs). fold (weighted_accuracy_sum lib rest_outs).
    fold (weighted_loss_sum lib loss rest_outs).
    split; [now rewrite Hlen |]. split; [lia |]. split.
    + rewrite Ha', Ha.
      rewrite (size_times_accuracy lib
                 (b, snd (forward lib (torch w) net (heap w) b))).
      cbn [fst snd]. ring.
    + rewrite Hl', Hl. ring.
Qed.

End SumFacts.

(** C9.  Training and evaluation metrics are sample-weighted.  After an
    epoch over a non-empty stream, the training loss and accuracy line 264
    reports are [sum_i size_i * loss_i / sum_i size_i] and
    [sum_i size_i * a_i / sum_i size_i] ([loss_i] the batch loss before
    the division by [accum_steps], [a_i] the batch accuracy); the
    evaluator returns the same two weighted means over its stream; and for
    four batches of sizes 8, 8, 8 and 6 the evaluated accuracy is
    [(8*a1 + 8*a2 + 8*a3 + 6*a4) / 30]. *)
Theorem sample_weighted_metrics {T Batch Output : Type}
    (lib : TorchLib T Batch Output) (loss : Output -> Batch -> Q) :
  (forall (net : NNModule) (self : ModelEMA) (accum_steps epoch : Z)
          (train_iter : list Batch) (w : World T),
      (1 <= accum_steps)%Z -> ema_wf (heap w) self net ->
      total_epochs self <> 0%Z -> train_iter <> [] ->
      let outs := train_outputs lib loss (set_training true net) self
                    accum_steps epoch (Z.of_nat (length train_iter))
                    train_iter 0 (mkSums 0 0 0) w in
      exists sums w' train_loss train_acc,
        run_batches lib loss net self accum_steps epoch train_iter w
        = Ok (sums, w')
        /\ py_truediv (train_l_sum sums) (n_seen sums) = Ok train_loss
        /\ py_truediv (train_acc_sum sums) (n_seen sums) = Ok train_acc
        /\ n_seen sums = samples lib outs
        /\ (train_loss
            == weighted_loss_sum lib loss outs / inject_Z (samples lib outs))%Q
        /\ (train_acc
            == weighted_accuracy_sum lib outs / inject_Z (samples lib outs))%Q)
  /\ (forall (data_iter : list Batch) (net : NNModule) (device : Device)
             (use_ema : bool) (e : ModelEMA) (w : World T),
        data_iter <> [] ->
        let outs := eval_outputs lib (selected_model net use_ema (Some e))
                                 (heap w) (torch w) data_iter in
        exists acc l w',
          evaluate_accuracy lib data_iter net loss (Some device) use_ema
                            (Some e) w = Ok (acc, l, w')
          /\ (acc == weighted_accuracy_sum lib outs
                     / inject_Z (samples lib outs))%Q
          /\ (l == weighted_loss_sum lib loss outs
                   / inject_Z (samples lib outs))%Q)
  /\ (forall (data_iter : list Batch) (net : NNModule) (device : Device)
             (use_ema : bool) (e : ModelEMA) (w : World T),
        map (size_of lib) data_iter = [8; 8; 8; 6]%Z ->
        let outs := eval_outputs lib (selected_model net use_ema (Some e))
                                 (heap w) (torch w) data_iter in
        exists acc l w' a1 a2 a3 a4,
          evaluate_accuracy lib data_iter net loss (Some device) use_ema
                            (Some e) w = Ok (acc, l, w')
          /\ map (batch_accuracy lib) outs = [a1; a2; a3; a4]
          /\ (acc == (8 * a1 + 8 * a2 + 8 * a3 + 6 * a4) / 30)%Q).
Proof.
  split; [| split].
  - intros net self accum_steps epoch train_iter w Hacc Hwf Ht Hne outs.
    unfold run_batches. assert (Hnz : accum_steps <> 0%Z) by lia.
    destruct (batch_loop_ok lib loss (set_training true net) self accum_steps
                epoch (Z.of_nat (length train_iter)) Hnz Ht train_iter 0%Z
                (mkSums 0 0 0) w)
      as (sums & w' & Hrun & _).
    { destruct Hwf. split; assumption. }
    destruct (batch_loop_sums lib loss _ _ _ _ _ Hnz _ _ _ _ _ _ Hrun)
      as (Hlen & Hn & Ha & Hl).
    fold outs in Hlen, Hn, Ha, Hl. cbn [n_seen train_acc_sum train_l_sum] in *.
    rewrite Z.add_0_l in Hn. rewrite Qplus_0_l in Ha, Hl.
    assert (Hpos : (0 < samples lib outs)%Z).
    { apply samples_pos. intros Hnil. rewrite Hnil in Hlen.
      destruct train_iter; [congruence | discriminate]. }
    exists sums, w', (train_l_sum sums / inject_Z (n_seen sums))%Q,
           (train_acc_sum sums / inject_Z (n_seen sums))%Q.
    split; [exact Hrun |].
    rewrite !py_truediv_ok by lia.
    split; [reflexivity |]. split; [reflexivity |]. split; [exact Hn |].
    rewrite Hn, Ha, Hl. split; reflexivity.
  - intros data_iter net device use_ema e w Hne outs.
    destruct (evaluate_accuracy_ok lib loss data_iter net (Some device) use_ema
                (Some e) w) as (acc & l & w' & Hrun & Ha & Hl & _);
      [discriminate | discriminate | exact Hne |].
    exists acc, l, w'. auto.
  - intros data_iter net device use_ema e w Hsz outs.
    destruct (evaluate_accuracy_ok lib loss data_iter net (Some device) use_ema
                (Some e) w) as (acc & l & w' & Hrun & Ha & _);
      [discriminate | discriminate | now destruct data_iter |].
    fold outs in Ha.
    assert (Hsizes : map (fun bo => size_of lib (fst bo)) outs = [8; 8; 8; 6]%Z).
    { rewrite <- Hsz. unfold outs. clear.
      generalize (torch w). induction data_iter as [| b rest IH]; intros t;
        simpl; [reflexivity |].
      destruct (forward lib t _ (heap w) b). simpl. now rewrite IH. }
    destruct outs as [| o1 [| o2 [| o3 [| o4 [| o5 outs]]]]]; try discriminate.
    cbn [map] in Hsizes. injection Hsizes as H1 H2 H3 H4.
    exists acc, l, w', (batch_accuracy lib o1), (batch_accuracy lib o2),
           (batch_accuracy lib o3), (batch_accuracy lib o4).
    split; [exact Hrun |]. split; [reflexivity |].
    rewrite Ha. cbn [weighted_accuracy_sum samples fold_right].
    unfold size_of. rewrite H1, H2, H3, H4.
    generalize (batch_accuracy lib o1), (batch_accuracy lib o2),
      (batch_accuracy lib o3), (batch_accuracy lib o4).
    intros a1 a2 a3 a4.
    change (inject_Z (Z.pos 8 + (Z.pos 8 + (Z.pos 8 + (Z.pos 6 + 0))))) with 30%Q.
    change (inject_Z (Z.pos 8)) with 8%Q. change (inject_Z (Z.pos 6)) with 6%Q.
    apply Qmult_inj_r with (z := 30%Q); [discriminate |].
    field.
Qed.

Lemma sample_weighted_metrics_witness :
  (exists sums w' train_loss train_acc,
      run_batches Toy.lib Toy.loss Toy.net Toy.shadow 4 0 Toy.ragged_batches
                  Toy.world1 = Ok (sums, w')
      /\ py_truediv (train_l_sum sums) (n_seen sums) = Ok train_loss
      /\ py_truediv (train_acc_sum sums) (n_seen sums) = Ok train_acc
      /\ n_seen sums = 30%Z
      /\ (train_acc == 24 # 30)%Q)
  /\ (exists acc l w',
        evaluate_accuracy Toy.lib Toy.ragged_batches Toy.net Toy.loss (Some cpu)
                          false (Some Toy.shadow) Toy.world1 = Ok (acc, l, w')
        /\ (acc == 24 # 30)%Q
        /\ ~ (acc == (1 + 1 + 1 + 0) / 4)%Q).
Proof.
  destruct (sample_weighted_metrics Toy.lib Toy.loss) as (Htrain & Heval & _).
  split.
  - destruct (Htrain Toy.net Toy.shadow 4%Z 0%Z Toy.ragged_batches Toy.world1)
      as (sums & w' & tl & ta & Hrun & Hl & Ha & Hn & _ & Hacc).
    + lia.
    + apply (init_ema_wf Toy.heap0 Toy.net (999 # 1000) 50). repeat constructor.
    + discriminate.
    + discriminate.
    + exists sums, w', tl, ta. repeat split; try assumption.
      rewrite Hacc. vm_compute. reflexivity.
  - destruct (Heval Toy.ragged_batches Toy.net cpu false Toy.shadow Toy.world1)
      as (acc & l & w' & Hrun & Hacc & _).
    + discriminate.
    + exists acc, l, w'. split; [exact Hrun |]. split.
      * rewrite Hacc. vm_compute. reflexivity.
      * rewrite Hacc. vm_compute. discriminate.
Defined.

(** ** Empty streams and the evaluator's errors *)

Lemma py_range_first (n : Z) :
  (1 <= n)%Z -> exists rest, py_range n = 0%Z :: rest.
Proof.
  intros Hn. unfold py_range.
  destruct (Z.to_nat n) as [| k] eqn:E; [lia |].
  eexists. reflexivity.
Qed.

Section EmptyStream.
Context {T Batch Output : Type} (lib : TorchLib T Batch Output).
Variable loss : Output -> Batch -> Q.

Lemma batch_loop_zero_accum (net : NNModule) (self : ModelEMA)
    (epoch total_batches i : Z) (b : Batch) (rest : list Batch)
    (sums : EpochSums) (w : World T) :
  batch_loop lib loss net self 0 epoch total_batches (b :: rest) i sums w
  = Err ZeroDivisionError.
Proof.
  cbn [batch_loop]. unfold train_batch.
  destruct (forward lib (torch w) net (heap w) b). reflexivity.
Qed.

Lemma train_epoch_empty_stream (train_iter test_iter : list Batch)
    (net : NNModule) (device : Device) (accum_steps : Z) (self : ModelEMA)
    (patience epoch : Z) (st : LoopState) (w : World T) :
  ema_wf (heap w) self net -> total_epochs self <> 0%Z ->
  train_iter = [] \/ test_iter = [] ->
  train_epoch lib train_iter test_iter net loss device accum_steps self
              patience epoch st w = Err ZeroDivisionError.
Proof.
  intros Hwf Ht Hempty. unfold train_epoch.
  assert (Hrun : run_batches lib loss net self accum_steps epoch train_iter w
                 = Err ZeroDivisionError
                 \/ exists sums w',
                      run_batches lib loss net self accum_steps epoch
                                  train_iter w = Ok (sums, w')
                      /\ (train_iter = [] -> n_seen sums = 0%Z)).
  { destruct train_iter as [| b rest].
    - right. exists (mkSums 0 0 0), w. split; [reflexivity |]. reflexivity.
    - destruct (Z.eq_dec accum_steps 0%Z) as [-> | Hnz].
      + left. apply batch_loop_zero_accum.
      + right. unfold run_batches.
        destruct (batch_loop_ok lib loss (set_training true net) self
                    accum_steps epoch (Z.of_nat (length (b :: rest))) Hnz Ht
                    (b :: rest) 0%Z (mkSums 0 0 0) w)
          as (sums & w' & Hok & _).
        { destruct Hwf. split; assumption. }
        exists sums, w'. split; [exact Hok | discriminate]. }
  destruct Hrun as [-> | (sums & w' & -> & Hn)]; [reflexivity |].
  cbn [mbind result_bind].
  destruct test_iter as [| tb trest].
  - rewrite evaluate_accuracy_empty by discriminate. reflexivity.
  - destruct Hempty as [-> | Hne]; [| discriminate].
    destruct (evaluate_accuracy_ok lib loss (tb :: trest) net (Some device)
                false (Some self) w')
      as (acc & l & w2 & -> & _); try discriminate.
    cbn [mbind result_bind]. rewrite (Hn eq_refl). reflexivity.
Qed.

End EmptyStream.

(** C1 (as the code has it).  A stream without samples makes the division
    by the sample count raise Python's own [ZeroDivisionError]: in
    [evaluate_accuracy] on every accepted call, and in the first epoch of
    [train] whenever the training or the validation stream is empty.  No
    value is returned, so no NaN is propagated; no dedicated
    empty-stream condition exists. *)
Theorem empty_stream_raises_ZeroDivisionError {T Batch Output : Type}
    (lib : TorchLib T Batch Output) (loss : Output -> Batch -> Q) :
  (forall (net : NNModule) (device : option Device) (use_ema : bool)
          (ema_model : option ModelEMA) (w : World T),
      ~ (device = None /\ parameters net = []) ->
      ~ (use_ema = true /\ ema_model = None) ->
      evaluate_accuracy lib [] net loss device use_ema ema_model w
      = Err ZeroDivisionError)
  /\ (forall (train_iter test_iter : list Batch) (net : NNModule)
             (device : Device) (num_epochs : Z) (best_acc0 : Q)
             (accum_steps : Z) (w : World T),
        wf_module (heap w) net ->
        (1 <= num_epochs)%Z ->
        train_iter = [] \/ test_iter = [] ->
        train lib train_iter test_iter net loss device num_epochs best_acc0
              accum_steps w = Err ZeroDivisionError).
Proof.
  split.
  - intros net device use_ema ema_model w Hdev Hema.
    apply evaluate_accuracy_empty.
    + intros -> Hp. apply Hdev. now split.
    + intros -> He. apply Hema. now split.
  - intros train_iter test_iter net device num_epochs best_acc0 accum_steps w
           Hwf Hn Hempty.
    unfold train. rewrite ModelEMA_init_ok by exact Hwf.
    cbn [mbind result_bind].
    destruct (py_range_first num_epochs Hn) as (rest & ->).
    cbn [epoch_loop]. rewrite train_epoch_empty_stream; [reflexivity | | | exact Hempty].
    + cbn [set_heap heap]. now apply init_ema_wf.
    + discriminate.
Qed.

Lemma empty_stream_raises_ZeroDivisionError_witness :
  evaluate_accuracy Toy.lib [] Toy.net Toy.loss None true (Some Toy.shadow)
                    Toy.world1 = Err ZeroDivisionError
  /\ train Toy.lib Toy.ten_batches [] Toy.net Toy.loss cuda 50 0 4 Toy.world
     = Err ZeroDivisionError.
Proof.
  destruct (empty_stream_raises_ZeroDivisionError Toy.lib Toy.loss)
    as [Heval Htrain].
  split.
  - apply Heval; intros [_ H]; discriminate.
  - apply Htrain.
    + repeat constructor.
    + lia.
    + right. reflexivity.
Defined.

(** C1 (as stated) fails: on an empty validation stream the evaluator,
    and with it [train], ends in the raw division error. *)
Lemma empty_stream_is_raw_division_error :
  evaluate_accuracy Toy.lib [] Toy.net Toy.loss (Some cpu) false
                    (Some Toy.shadow) Toy.world1 = Err ZeroDivisionError
  /\ train Toy.lib [] Toy.ten_batches Toy.net Toy.loss cpu 50 0 4 Toy.world
     = Err ZeroDivisionError.
Proof. split; vm_compute; reflexivity. Qed.

(** C10 (as the code has it).  [evaluate_accuracy] raises in exactly three
    situations: no device and a net without parameters, EMA evaluation
    requested without an EMA model, or a stream without batches.  The
    [ValueError] is raised exactly when [use_ema] is true and [ema_model]
    is [None] (the device lookup permitting).  With [use_ema] false the
    outcome does not depend on [ema_model], and on a stream with at least
    one batch the call succeeds with the live model's sample-weighted
    accuracy and loss. *)
Theorem evaluate_accuracy_failures {T Batch Output : Type}
    (lib : TorchLib T Batch Output) (loss_fn : Output -> Batch -> Q)
    (data_iter : list Batch) (net : NNModule) (device : option Device)
    (use_ema : bool) (ema_model : option ModelEMA) (w : World T) :
  let r := evaluate_accuracy lib data_iter net loss_fn device use_ema
                             ema_model w in
  let no_device := device = None /\ parameters net = [] in
  (is_ok r = false <->
     no_device \/ (use_ema = true /\ ema_model = None) \/ data_iter = [])
  /\ ((exists msg, r = Err (ValueError msg)) <->
        ~ no_device /\ use_ema = true /\ ema_model = None)
  /\ (use_ema = false ->
        r = evaluate_accuracy lib data_iter net loss_fn device false None w)
  /\ (use_ema = false -> ~ no_device -> data_iter <> [] ->
        let outs := eval_outputs lib (set_training false net) (heap w)
                                 (torch w) data_iter in
        exists acc l w',
          r = Ok (acc, l, w')
          /\ (acc == weighted_accuracy_sum lib outs
                     / inject_Z (samples lib outs))%Q
          /\ (l == weighted_loss_sum lib loss_fn outs
                   / inject_Z (samples lib outs))%Q).
Proof.
  intros r no_device.
  assert (Hdec : no_device \/ ~ no_device).
  { unfold no_device. destruct device; [right; intros [? _]; discriminate |].
    destruct (parameters net); [left; now split | right; intros [_ ?]; discriminate]. }
  assert (Hnd : no_device -> r = Err StopIteration).
  { intros [-> Hp]. unfold r, evaluate_accuracy. now rewrite Hp. }
  assert (Hve : ~ no_device -> use_ema = true -> ema_model = None ->
                r = Err (ValueError
                           "ema_model must be provided when use_ema is True")).
  { intros Hn -> ->. unfold r, evaluate_accuracy.
    destruct device; [reflexivity |].
    destruct (parameters net); [| reflexivity].
    exfalso. apply Hn. now split. }
  assert (Hzd : ~ no_device -> ~ (use_ema = true /\ ema_model = None) ->
                data_iter = [] -> r = Err ZeroDivisionError).
  { intros Hn He ->. unfold r. apply evaluate_accuracy_empty.
    - intros -> Hp. apply Hn. now split.
    - intros -> Hm. apply He. now split. }
  assert (Hok : ~ no_device -> ~ (use_ema = true /\ ema_model = None) ->
                data_iter <> [] ->
                let outs := eval_outputs lib (selected_model net use_ema ema_model)
                                         (heap w) (torch w) data_iter in
                exists acc l w',
                  r = Ok (acc, l, w')
                  /\ (acc == weighted_accuracy_sum lib outs
                             / inject_Z (samples lib outs))%Q
                  /\ (l == weighted_loss_sum lib loss_fn outs
                           / inject_Z (samples lib outs))%Q).
  { intros Hn He Hne outs.
    destruct (evaluate_accuracy_ok lib loss_fn data_iter net device use_ema
                ema_model w) as (acc & l & w' & Hr & Ha & Hl & _).
    - intros -> Hp. apply Hn. now split.
    - intros -> Hm. apply He. now split.
    - exact Hne.
    - exists acc, l, w'. auto. }
  assert (Hema : (use_ema = true /\ ema_model = None)
                 \/ ~ (use_ema = true /\ ema_model = None)).
  { destruct use_ema; [| right; intros [? _]; discriminate].
    destruct ema_model; [right; intros [_ ?]; discriminate | left; now split]. }
  split; [| split; [| split]].
  - split.
    + intros Hfail. destruct Hdec as [Hd | Hd]; [now left |].
      destruct Hema as [He | He]; [right; now left |].
      right; right. destruct data_iter as [| b rest]; [reflexivity |].
      destruct (Hok Hd He) as (acc & l & w' & Hr & _); [discriminate |].
      rewrite Hr in Hfail. discriminate.
    + intros [Hd | [[Hu Hm] | Hnil]].
      * now rewrite (Hnd Hd).
      * destruct Hdec as [Hd | Hd]; [now rewrite (Hnd Hd) |].
        now rewrite (Hve Hd Hu Hm).
      * destruct Hdec as [Hd | Hd]; [now rewrite (Hnd Hd) |].
        destruct Hema as [[Hu Hm] | He]; [now rewrite (Hve Hd Hu Hm) |].
        now rewrite (Hzd Hd He Hnil).
  - split.
    + intros [msg Hr]. destruct Hdec as [Hd | Hd].
      { rewrite (Hnd Hd) in Hr. discriminate. }
      split; [exact Hd |]. destruct Hema as [He | He]; [exact He |].
      destruct data_iter as [| b rest].
      * rewrite (Hzd Hd He eq_refl) in Hr. discriminate.
      * destruct (Hok Hd He) as (acc & l & w' & Hr' & _); [discriminate |].
        rewrite Hr' in Hr. discriminate.
    + intros (Hd & Hu & Hm). eexists. exact (Hve Hd Hu Hm).
  - intros ->. unfold r, evaluate_accuracy. reflexivity.
  - intros -> Hd Hne. apply (Hok Hd); [intros [? _]; discriminate | exact Hne].
Qed.

(** C10 (as stated) fails: with [use_ema] false the call still raises when
    the stream is empty. *)
Lemma evaluate_accuracy_raises_without_ema_request :
  evaluate_accuracy Toy.lib [] Toy.net Toy.loss (Some cpu) false None Toy.world
  = Err ZeroDivisionError.
Proof. reflexivity. Qed.

Lemma evaluate_accuracy_failures_witness :
  exists acc l w',
    evaluate_accuracy Toy.lib Toy.ragged_batches Toy.net Toy.loss (Some cpu)
                      false None Toy.world = Ok (acc, l, w')
    /\ (acc == 24 # 30)%Q /\ (l == 1 # 2)%Q.
Proof.
  destruct (evaluate_accuracy_failures Toy.lib Toy.loss Toy.ragged_batches
              Toy.net (Some cpu) false None Toy.world) as (_ & _ & _ & Hok).
  destruct Hok as (acc & l & w' & Hr & Ha & Hl).
  - reflexivity.
  - intros [H _]. discriminate.
  - discriminate.
  - exists acc, l, w'. split; [exact Hr |]. split.
    + rewrite Ha. vm_compute. reflexivity.
    + rewrite Hl. vm_compute. reflexivity.
Defined.

(** ** The per-epoch policy *)

Lemma epoch_loop_invariant {T : Type}
    (body : Z -> LoopState -> World T -> result (LoopState * bool * World T))
    (R : LoopState -> LoopState -> Prop) :
  (forall st, R st st) ->
  (forall a b c, R a b -> R b c -> R a c) ->
  (forall epoch st w st' stop w',
      body epoch st w = Ok (st', stop, w') -> R st st') ->
  forall epochs st w st' w',
    epoch_loop body epochs st w = Ok (st', w') -> R st st'.
Proof.
  intros Hrefl Htrans Hbody. induction epochs as [| e rest IH];
    intros st w st' w' Hrun; cbn [epoch_loop] in Hrun.
  - injection Hrun as <- _. apply Hrefl.
  - destruct (body e st w) as [[[st1 stop] w1] | err] eqn:Hb; [| discriminate].
    cbn [mbind result_bind] in Hrun. destruct stop.
    + injection Hrun as <- _. eapply Hbody; eassumption.
    + eapply Htrans; [eapply Hbody; eassumption | eapply IH; eassumption].
Qed.

Lemma checkpoint_phase_best {T : Type} (net : NNModule) (self : ModelEMA)
    (test_acc ema_test_acc best : Q) (w : World T) :
  fst (checkpoint_phase net self test_acc ema_test_acc best w)
  = py_max (py_max best test_acc) ema_test_acc.
Proof.
  unfold checkpoint_phase, py_max.
  destruct (py_gt test_acc best); destruct (py_gt ema_test_acc _); reflexivity.
Qed.

Lemma py_max_ge_l (a b : Q) : (a <= py_max a b)%Q.
Proof. rewrite py_max_Qmax. apply Q.le_max_l. Qed.

(** The stages of one epoch, read off a successful run of its body. *)
Lemma train_epoch_inv {T Batch Output : Type} (lib : TorchLib T Batch Output)
    (train_iter test_iter : list Batch) (net : NNModule)
    (loss : Output -> Batch -> Q) (device : Device) (accum_steps : Z)
    (self : ModelEMA) (patience epoch : Z) (st st' : LoopState) (stop : bool)
    (w w' : World T) :
  train_epoch lib train_iter test_iter net loss device accum_steps self
              patience epoch st w = Ok (st', stop, w') ->
  exists sums w1 test_acc test_loss w2 train_loss train_acc
         ema_test_acc ema_test_loss w3 w4,
    run_batches lib loss net self accum_steps epoch train_iter w = Ok (sums, w1)
    /\ evaluate_accuracy lib test_iter net loss (Some device) false (Some self) w1
       = Ok (test_acc, test_loss, w2)
    /\ py_truediv (train_l_sum sums) (n_seen sums) = Ok train_loss
    /\ py_truediv (train_acc_sum sums) (n_seen sums) = Ok train_acc
    /\ evaluate_accuracy lib test_iter net loss (Some device) true (Some self) w2
       = Ok (ema_test_acc, ema_test_loss, w3)
    /\ log_phase epoch train_loss train_acc test_loss test_acc ema_test_loss
                 ema_test_acc (scheduler_phase lib epoch test_acc w3) = Ok w4
    /\ checkpoint_phase net self test_acc ema_test_acc (best_acc st) w4
       = (best_acc st', w')
    /\ early_stop_phase patience test_acc test_loss (best_metric st)
                        (no_improve st)
       = (best_metric st', no_improve st', stop).
Proof.
  unfold train_epoch. intros H.
  destruct (run_batches lib loss net self accum_steps epoch train_iter w)
    as [[sums w1] | e] eqn:Hb; [| discriminate].
  cbn [mbind result_bind] in H.
  destruct (evaluate_accuracy lib test_iter net loss (Some device) false
                              (Some self) w1)
    as [[[test_acc test_loss] w2] | e] eqn:He1; [| discriminate].
  cbn [mbind result_bind] in H.
  destruct (py_truediv (train_l_sum sums) (n_seen sums)) as [train_loss | e]
    eqn:Htl; [| discriminate].
  cbn [mbind result_bind] in H.
  destruct (py_truediv (train_acc_sum sums) (n_seen sums)) as [train_acc | e]
    eqn:Hta; [| discriminate].
  cbn [mbind result_bind] in H.
  destruct (evaluate_accuracy lib test_iter net loss (Some device) true
                              (Some self) w2)
    as [[[ema_test_acc ema_test_loss] w3] | e] eqn:He2; [| discriminate].
  cbn [mbind result_bind] in H.
  destruct (log_phase epoch train_loss train_acc test_loss test_acc
                      ema_test_loss ema_test_acc
                      (scheduler_phase lib epoch test_acc w3))
    as [w4 | e] eqn:Hlog; [| discriminate].
  cbn [mbind result_bind] in H.
  destruct (checkpoint_phase net self test_acc ema_test_acc (best_acc st) w4)
    as [best w5] eqn:Hc.
  destruct (early_stop_phase patience test_acc test_loss (best_metric st)
                             (no_improve st)) as [[metric count] stop'] eqn:Hes.
  injection H as <- <- <-.
  exists sums, w1, test_acc, test_loss, w2, train_loss, train_acc,
         ema_test_acc, ema_test_loss, w3, w4.
  cbn [best_acc best_metric no_improve].
  repeat split; assumption.
Qed.

Lemma train_epoch_best {T Batch Output : Type} (lib : TorchLib T Batch Output)
    (train_iter test_iter : list Batch) (net : NNModule)
    (loss : Output -> Batch -> Q) (device : Device) (accum_steps : Z)
    (self : ModelEMA) (patience epoch : Z) (st st' : LoopState) (stop : bool)
    (w w' : World T) :
  train_epoch lib train_iter test_iter net loss device accum_steps self
              patience epoch st w = Ok (st', stop, w') ->
  (best_acc st <= best_acc st')%Q.
Proof.
  intros H.
  destruct (train_epoch_inv _ _ _ _ _ _ _ _ _ _ _ _ _ _ _ H)
    as (sums & w1 & test_acc & test_loss & w2 & tl & ta & ea & el & w3 & w4
        & _ & _ & _ & _ & _ & _ & Hck & _).
  pose proof (checkpoint_phase_best net self test_acc ea (best_acc st) w4) as Hb.
  rewrite Hck in Hb. cbn [fst] in Hb. rewrite Hb.
  eapply Qle_trans; apply py_max_ge_l.
Qed.

Lemma checkpoint_phase_best_any {T : Type} (net : NNModule) (self : ModelEMA)
    (a b c : Q) (w w' : World T) :
  fst (checkpoint_phase net self a b c w)
  = fst (checkpoint_phase net self a b c w').
Proof. now rewrite !checkpoint_phase_best. Qed.

Section WithPlateau.
Context {T Batch Output : Type} (lib : TorchLib T Batch Output).
Variable f : T -> Q -> list Q -> list ParamGroup -> T * list ParamGroup.

Lemma batch_loop_with_plateau (loss : Output -> Batch -> Q) (net : NNModule)
    (self : ModelEMA) (accum_steps epoch total : Z) (batches : list Batch) :
  forall (i : Z) (sums : EpochSums) (w : World T),
    batch_loop (with_plateau lib f) loss net self accum_steps epoch total
               batches i sums w
    = batch_loop lib loss net self accum_steps epoch total batches i sums w.
Proof.
  induction batches as [| b rest IH]; intros i sums w; [reflexivity |].
  cbn [batch_loop].
  change (train_batch (with_plateau lib f)) with (train_batch lib).
  destruct (train_batch lib loss net self accum_steps epoch total sums w i b)
    as [[s1 w1] | e]; [| reflexivity].
  cbn [mbind result_bind]. apply IH.
Qed.

Lemma run_batches_with_plateau (loss : Output -> Batch -> Q) (net : NNModule)
    (self : ModelEMA) (accum_steps epoch : Z) (train_iter : list Batch)
    (w : World T) :
  run_batches (with_plateau lib f) loss net self accum_steps epoch train_iter w
  = run_batches lib loss net self accum_steps epoch train_iter w.
Proof. unfold run_batches. apply batch_loop_with_plateau. Qed.

Lemma evaluate_accuracy_with_plateau (data_iter : list Batch)
    (net : NNModule) (loss_fn : Output -> Batch -> Q)
    (device : option Device) (use_ema : bool) (ema_model : option ModelEMA)
    (w : World T) :
  evaluate_accuracy (with_plateau lib f) data_iter net loss_fn device use_ema
                    ema_model w
  = evaluate_accuracy lib data_iter net loss_fn device use_ema ema_model w.
Proof. reflexivity. Qed.

End WithPlateau.

(** C2 (as the code has it).  The checkpoint policy keeps one best-accuracy
    record shared by the live model and the EMA shadow.  In every epoch
    [best_model.pth] is written exactly when the live validation accuracy
    strictly exceeds that record, and [best_model_ema.pth] exactly when the
    EMA validation accuracy strictly exceeds the record as the live check
    of the same epoch left it (the larger of the old record and the live
    accuracy); both are written when EMA accuracy > live accuracy > record;
    each file holds the parameter snapshot of its model; the record becomes
    the largest of the three values and never decreases, within an epoch
    and over a whole run of [train]. *)
Theorem checkpoint_shared_best :
  (forall (T : Type) (net : NNModule) (self : ModelEMA)
          (test_acc ema_test_acc best : Q) (w : World T),
      exists (live_saved ema_saved : bool) (best' : Q) (w' : World T),
        checkpoint_phase net self test_acc ema_test_acc best w = (best', w')
        /\ trace w' = trace w
             ++ (if live_saved then [Save "best_model.pth"] else [])
             ++ (if ema_saved then [Save "best_model_ema.pth"] else [])
        /\ files w'
           = (if ema_saved
              then [("best_model_ema.pth"%string, state_dict (heap w) (ema self))]
              else [])
             ++ (if live_saved
                 then [("best_model.pth"%string, state_dict (heap w) net)]
                 else [])
             ++ files w
        /\ (live_saved = true <-> (best < test_acc)%Q)
        /\ (ema_saved = true <-> (Qmax best test_acc < ema_test_acc)%Q)
        /\ (best' == Qmax (Qmax best test_acc) ema_test_acc)%Q
        /\ (best <= best')%Q
        /\ ((best < test_acc)%Q -> (test_acc < ema_test_acc)%Q ->
            live_saved = true /\ ema_saved = true))
  /\ (forall (T Batch Output : Type) (lib : TorchLib T Batch Output)
             (train_iter test_iter : list Batch) (net : NNModule)
             (loss : Output -> Batch -> Q) (device : Device) (num_epochs : Z)
             (best_acc0 : Q) (accum_steps : Z) (w w' : World T) (best : Q),
        train lib train_iter test_iter net loss device num_epochs best_acc0
              accum_steps w = Ok (best, w') ->
        (best_acc0 <= best)%Q).
Proof.
  split.
  - intros T net self test_acc ema_test_acc best w.
    exists (py_gt test_acc best), (py_gt ema_test_acc (py_max best test_acc)).
    assert (Hmax : py_max best test_acc
                   = if py_gt test_acc best then test_acc else best)
      by reflexivity.
    assert (Hlive : py_gt test_acc best = true <-> (best < test_acc)%Q)
      by apply py_gt_true.
    assert (Hema : py_gt ema_test_acc (py_max best test_acc) = true
                   <-> (Qmax best test_acc < ema_test_acc)%Q).
    { rewrite py_gt_true. now rewrite py_max_Qmax. }
    pose proof (checkpoint_phase_best net self test_acc ema_test_acc best w) as Hb.
    destruct (checkpoint_phase net self test_acc ema_test_acc best w)
      as [best' w'] eqn:Hrun.
    exists best', w'. split; [reflexivity |]. cbn [fst] in Hb.
    assert (Hw : trace w' = trace w
                   ++ (if py_gt test_acc best then [Save "best_model.pth"] else [])
                   ++ (if py_gt ema_test_acc (py_max best test_acc)
                       then [Save "best_model_ema.pth"] else [])
                 /\ files w'
                    = (if py_gt ema_test_acc (py_max best test_acc)
                       then [("best_model_ema.pth"%string,
                              state_dict (heap w) (ema self))]
                       else [])
                      ++ (if py_gt test_acc best
                          then [("best_model.pth"%string, state_dict (heap w) net)]
                          else [])
                      ++ files w).
    { unfold checkpoint_phase in Hrun. rewrite Hmax.
      destruct (py_gt test_acc best);
        match type of Hrun with
        | context [py_gt ema_test_acc ?b] => destruct (py_gt ema_test_acc b)
        end;
        injection Hrun as _ <-;
        unfold torch_save, emit; cbn [trace files heap];
        rewrite ?app_nil_r, <- ?app_assoc; split; reflexivity. }
    destruct Hw as [Htr Hfiles].
    split; [exact Htr |]. split; [exact Hfiles |].
    split; [exact Hlive |]. split; [exact Hema |].
    split; [| split].
    + rewrite Hb. now rewrite !py_max_Qmax.
    + rewrite Hb. eapply Qle_trans; apply py_max_ge_l.
    + intros H1 H2. split; [now apply Hlive |]. apply Hema.
      apply Q.max_lub_lt; [| exact H2]. eapply Qlt_trans; eassumption.
  - intros T Batch Output lib train_iter test_iter net loss device num_epochs
           best_acc0 accum_steps w w' best Hrun.
    unfold train in Hrun.
    destruct (ModelEMA_init (heap w) net (999 # 1000) 50) as [[self h] | e];
      [| discriminate].
    cbn [mbind result_bind] in Hrun.
    match type of Hrun with
    | mbind _ ?r = _ => destruct r as [[st wf] | e] eqn:Hloop; [| discriminate]
    end.
    cbn [mbind result_bind] in Hrun. injection Hrun as <- _.
    change best_acc0 with (best_acc (mkLoop best_acc0 0 0)).
    eapply (epoch_loop_invariant _ (fun a b => (best_acc a <= best_acc b)%Q));
      [| | | exact Hloop].
    + intros st0. apply Qle_refl.
    + intros a b c. apply Qle_trans.
    + intros epoch st0 w0 st1 stop w1. apply train_epoch_best.
Qed.

(** C2 (as stated) fails: from the initial record 0, an epoch with live
    accuracy 0.9 and EMA accuracy 0.8 writes the live checkpoint only,
    although 0.8 exceeds every EMA accuracy seen before. *)
Lemma ema_checkpoint_is_gated_by_live_best :
  py_gt (8 # 10) 0 = true
  /\ trace (snd (checkpoint_phase Toy.net Toy.shadow (9 # 10) (8 # 10) 0
                                  Toy.world1))
     = [Save "best_model.pth"].
Proof. split; reflexivity. Qed.

Lemma checkpoint_shared_best_witness :
  exists best w',
    train Toy.lib Toy.ten_batches Toy.ragged_batches Toy.net Toy.loss cpu 2 0 4
          Toy.world = Ok (best, w')
    /\ (0 <= best)%Q.
Proof.
  destruct (train Toy.lib Toy.ten_batches Toy.ragged_batches Toy.net Toy.loss
                  cpu 2 0 4 Toy.world) as [[best w'] | e] eqn:Hrun.
  - exists best, w'. split; [reflexivity |].
    exact (proj2 checkpoint_shared_best _ _ _ _ _ _ _ _ _ _ _ _ _ _ _ Hrun).
  - vm_compute in Hrun. discriminate.
Defined.

(** ** The scheduler calls of a run *)

Lemma sched_events_app (a b : list Event) :
  sched_events (a ++ b) = sched_events a ++ sched_events b.
Proof. unfold sched_events. apply List.filter_app. Qed.

Lemma sched_events_batches (accum_steps epoch total_batches : Z)
    (idxs : list Z) :
  sched_events (concat (map (batch_events accum_steps epoch total_batches) idxs))
  = [].
Proof.
  induction idxs as [| i idxs IH]; [reflexivity |].
  cbn [map concat]. rewrite sched_events_app, IH.
  unfold batch_events. destruct (is_boundary accum_steps total_batches i);
    reflexivity.
Qed.

Lemma scheduler_phase_cases {T Batch Output : Type}
    (lib : TorchLib T Batch Output) (epoch : Z) (test_acc : Q) (w : World T) :
  let w' := scheduler_phase lib epoch test_acc w in
  let current := map lr (param_groups w) in
  let rebased := map (fun group => {| lr := lr group; initial_lr := lr group;
                                      weight_decay := weight_decay group |})
                     (param_groups w) in
  heap w' = heap w
  /\ ((epoch < 12)%Z ->
        trace w' = trace w ++ [CosineStep epoch]
        /\ base_lrs w' = base_lrs w
        /\ (torch w', param_groups w')
           = cosine_step lib (torch w) epoch (param_groups w))
  /\ (epoch = 12%Z ->
        trace w' = trace w ++ [PlateauStep test_acc current rebased]
        /\ base_lrs w' = current
        /\ (torch w', param_groups w')
           = plateau_step lib (torch w) test_acc current rebased)
  /\ ((12 < epoch)%Z ->
        trace w' = trace w ++ [PlateauStep test_acc (base_lrs w) (param_groups w)]
        /\ base_lrs w' = base_lrs w
        /\ (torch w', param_groups w')
           = plateau_step lib (torch w) test_acc (base_lrs w) (param_groups w)).
Proof.
  intros w' current rebased. unfold w', scheduler_phase.
  destruct (Z.ltb_spec epoch 12) as [Hlt | Hge].
  - destruct (cosine_step lib (torch w) epoch (param_groups w)) as [t g].
    split; [reflexivity |]. split; [intros _; repeat split |].
    split; intros; lia.
  - destruct (Z.eqb_spec epoch 12) as [-> | Hne].
    + cbn [set_base_lrs set_param_groups torch param_groups base_lrs].
      fold rebased.
      replace (map lr rebased) with current
        by (unfold rebased, current; now rewrite map_map).
      destruct (plateau_step lib (torch w) test_acc current rebased) as [t g].
      split; [reflexivity |]. split; [intros; lia |].
      split; [intros _; repeat split | intros; lia].
    + destruct (plateau_step lib (torch w) test_acc (base_lrs w) (param_groups w))
        as [t g].
      split; [reflexivity |]. split; [intros; lia |].
      split; [intros; lia | intros _; repeat split].
Qed.

Lemma scheduler_phase_sched {T Batch Output : Type}
    (lib : TorchLib T Batch Output) (epoch : Z) (test_acc : Q) (w : World T) :
  exists ev,
    trace (scheduler_phase lib epoch test_acc w) = trace w ++ [ev]
    /\ is_sched ev = true
    /\ sched_match epoch ev.
Proof.
  destruct (scheduler_phase_cases lib epoch test_acc w) as (_ & Hc & He & Hp).
  unfold sched_match.
  destruct (Z.ltb_spec epoch 12) as [Hlt | Hge].
  - destruct (Hc Hlt) as (Htr & _). eexists. split; [exact Htr |]. now split.
  - destruct (Z.eq_dec epoch 12%Z) as [Heq | Hne].
    + destruct (He Heq) as (Htr & _). eexists. split; [exact Htr |].
      split; [reflexivity | eauto].
    + destruct Hp as (Htr & _); [lia |]. eexists. split; [exact Htr |].
      split; [reflexivity | eauto].
Qed.

Lemma quiet_step_refl {T : Type} (w : World T) : quiet_step w w.
Proof. split; reflexivity. Qed.

Lemma quiet_step_trans {T : Type} (w1 w2 w3 : World T) :
  quiet_step w1 w2 -> quiet_step w2 w3 -> quiet_step w1 w3.
Proof. intros [A B] [C D]. split; congruence. Qed.

Lemma evaluate_accuracy_quiet {T Batch Output : Type}
    (lib : TorchLib T Batch Output) (data_iter : list Batch) (net : NNModule)
    (loss_fn : Output -> Batch -> Q) (device : option Device) (use_ema : bool)
    (ema_model : option ModelEMA) (w w' : World T) (acc l : Q) :
  evaluate_accuracy lib data_iter net loss_fn device use_ema ema_model w
  = Ok (acc, l, w') ->
  quiet_step w w'.
Proof.
  unfold evaluate_accuracy. intros H.
  destruct (match device, parameters net with
            | None, [] => Err StopIteration
            | _, _ => Ok tt
            end); [| discriminate].
  cbn [mbind result_bind] in H.
  destruct (if use_ema then _ else _) as [model | e]; [| discriminate].
  cbn [mbind result_bind] in H.
  destruct (eval_fold lib loss_fn (set_training false model) data_iter 0 0 0%Z w)
    as (a' & l' & w1 & Hrun & _ & _ & Hh & Htr & _).
  rewrite Hrun in H.
  destruct (py_truediv a' _) as [x | e]; [| discriminate].
  cbn [mbind result_bind] in H.
  destruct (py_truediv l' _) as [y | e]; [| discriminate].
  cbn [mbind result_bind] in H. injection H as _ _ <-.
  split; [exact Hh | now rewrite Htr].
Qed.

Lemma log_phase_quiet {T : Type} (epoch : Z) (a b c d e f : Q) (w w' : World T) :
  log_phase epoch a b c d e f w = Ok w' -> quiet_step w w'.
Proof.
  unfold log_phase. intros H.
  destruct (py_index _ 0) as [g0 | err]; [| discriminate].
  cbn [mbind result_bind] in H.
  destruct (py_index _ 1) as [g1 | err]; [| discriminate].
  cbn [mbind result_bind] in H. injection H as <-. split; reflexivity.
Qed.

Lemma checkpoint_phase_quiet {T : Type} (net : NNModule) (self : ModelEMA)
    (a b c : Q) (w : World T) :
  quiet_step w (snd (checkpoint_phase net self a b c w)).
Proof.
  unfold checkpoint_phase.
  destruct (py_gt a c);
    match goal with
    | |- context [py_gt b ?x] => destruct (py_gt b x)
    end;
    split; try reflexivity;
    unfold torch_save, emit; cbn [snd trace];
    rewrite ?sched_events_app; cbn; now rewrite ?app_nil_r.
Qed.

Lemma rates_kept_trans {T : Type} (w1 w2 w3 : World T) :
  rates_kept w1 w2 -> rates_kept w2 w3 -> rates_kept w1 w3.
Proof. intros [A B] [C D]. split; congruence. Qed.

Lemma policy_state_rates {T : Type} (w w' : World T) :
  policy_state_kept w w' -> rates_kept w w'.
Proof. intros (A & B & _). now split. Qed.

Lemma evaluate_accuracy_rates {T Batch Output : Type}
    (lib : TorchLib T Batch Output) (data_iter : list Batch) (net : NNModule)
    (loss_fn : Output -> Batch -> Q) (device : option Device) (use_ema : bool)
    (ema_model : option ModelEMA) (w w' : World T) (acc l : Q) :
  evaluate_accuracy lib data_iter net loss_fn device use_ema ema_model w
  = Ok (acc, l, w') ->
  rates_kept w w'.
Proof.
  unfold evaluate_accuracy. intros H.
  destruct (match device, parameters net with
            | None, [] => Err StopIteration
            | _, _ => Ok tt
            end); [| discriminate].
  cbn [mbind result_bind] in H.
  destruct (if use_ema then _ else _) as [model | e]; [| discriminate].
  cbn [mbind result_bind] in H.
  destruct (eval_fold lib loss_fn (set_training false model) data_iter 0 0 0%Z w)
    as (a' & l' & w1 & Hrun & _ & _ & _ & _ & Hk).
  rewrite Hrun in H.
  destruct (py_truediv a' _) as [x | e]; [| discriminate].
  cbn [mbind result_bind] in H.
  destruct (py_truediv l' _) as [y | e]; [| discriminate].
  cbn [mbind result_bind] in H. injection H as _ _ <-.
  now apply policy_state_rates.
Qed.

Lemma log_phase_rates {T : Type} (epoch : Z) (a b c d e f : Q) (w w' : World T) :
  log_phase epoch a b c d e f w = Ok w' -> rates_kept w w'.
Proof.
  unfold log_phase. intros H.
  destruct (py_index _ 0) as [g0 | err]; [| discriminate].
  cbn [mbind result_bind] in H.
  destruct (py_index _ 1) as [g1 | err]; [| discriminate].
  cbn [mbind result_bind] in H. injection H as <-. split; reflexivity.
Qed.

Lemma checkpoint_phase_rates {T : Type} (net : NNModule) (self : ModelEMA)
    (a b c : Q) (w : World T) :
  rates_kept w (snd (checkpoint_phase net self a b c w)).
Proof.
  unfold checkpoint_phase.
  destruct (py_gt a c);
    match goal with
    | |- context [py_gt b ?x] => destruct (py_gt b x)
    end;
    split; reflexivity.
Qed.

Section RunFacts.
Context {T Batch Output : Type} (lib : TorchLib T Batch Output).
Variables (train_iter test_iter : list Batch) (net : NNModule).
Variables (loss : Output -> Batch -> Q) (device : Device) (accum_steps : Z).
Variables (self : ModelEMA) (patience : Z).
Hypothesis total_nonzero : total_epochs self <> 0%Z.

Lemma train_epoch_ok_inputs (epoch : Z) (st st' : LoopState) (stop : bool)
    (w w' : World T) :
  ema_wf (heap w) self net ->
  train_epoch lib train_iter test_iter net loss device accum_steps self
              patience epoch st w = Ok (st', stop, w') ->
  train_iter <> [] /\ test_iter <> [] /\ accum_steps <> 0%Z.
Proof.
  intros Hwf H.
  assert (Hne : train_iter <> []).
  { intros Hnil. rewrite train_epoch_empty_stream in H; auto. discriminate. }
  assert (Hte : test_iter <> []).
  { intros Hnil. rewrite train_epoch_empty_stream in H; auto. discriminate. }
  split; [exact Hne |]. split; [exact Hte |].
  intros Hz. unfold train_epoch, run_batches in H. rewrite Hz in H.
  destruct train_iter as [| b rest]; [congruence |].
  rewrite batch_loop_zero_accum in H. discriminate.
Qed.

Lemma train_epoch_sched (epoch : Z) (st st' : LoopState) (stop : bool)
    (w w' : World T) :
  ema_wf (heap w) self net ->
  train_epoch lib train_iter test_iter net loss device accum_steps self
              patience epoch st w = Ok (st', stop, w') ->
  exists ev,
    sched_events (trace w') = sched_events (trace w) ++ [ev]
    /\ sched_match epoch ev
    /\ ema_wf (heap w') self net.
Proof.
  intros Hwf H.
  destruct (train_epoch_ok_inputs _ _ _ _ _ _ Hwf H) as (Hne & _ & Hnz).
  destruct (train_epoch_inv _ _ _ _ _ _ _ _ _ _ _ _ _ _ _ H)
    as (sums & w1 & test_acc & test_loss & w2 & tl & ta & ea & el & w3 & w4
        & Hb & He1 & _ & _ & He2 & Hlog & Hck & _).
  unfold run_batches in Hb.
  destruct (batch_loop_ok lib loss (set_training true net) self accum_steps
              epoch (Z.of_nat (length train_iter)) Hnz total_nonzero
              train_iter 0%Z (mkSums 0 0 0) w)
    as (sums' & w1' & Hb' & Htr1 & Hsh1 & _).
  { destruct Hwf. split; assumption. }
  rewrite Hb in Hb'. injection Hb' as <- <-.
  destruct (evaluate_accuracy_quiet _ _ _ _ _ _ _ _ _ _ _ He1) as [Hh2 Hs2].
  destruct (evaluate_accuracy_quiet _ _ _ _ _ _ _ _ _ _ _ He2) as [Hh3 Hs3].
  destruct (scheduler_phase_sched lib epoch test_acc w3) as (ev & Htrs & Hev & Hm).
  destruct (scheduler_phase_cases lib epoch test_acc w3) as (Hhs & _).
  destruct (log_phase_quiet _ _ _ _ _ _ _ _ _ Hlog) as [Hh4 Hs4].
  pose proof (checkpoint_phase_quiet net self test_acc ea (best_acc st) w4)
    as [Hh5 Hs5].
  rewrite Hck in Hh5, Hs5. cbn [snd] in Hh5, Hs5.
  exists ev. split; [| split].
  - rewrite Hs5, Hs4, Htrs, sched_events_app, Hs3, Hs2, Htr1.
    rewrite sched_events_app, sched_events_batches, app_nil_r.
    cbn. now rewrite Hev.
  - exact Hm.
  - eapply ema_wf_same_shapes; [exact Hwf |].
    rewrite Hh5, Hh4, Hhs, Hh3, Hh2. exact Hsh1.
Qed.

Lemma train_epoch_rates (epoch : Z) (st st' : LoopState) (stop : bool)
    (w w' : World T) :
  ema_wf (heap w) self net ->
  train_epoch lib train_iter test_iter net loss device accum_steps self
              patience epoch st w = Ok (st', stop, w') ->
  exists test_acc w3,
    rates_kept w w3
    /\ rates_kept (scheduler_phase lib epoch test_acc w3) w'.
Proof.
  intros Hwf H.
  destruct (train_epoch_ok_inputs _ _ _ _ _ _ Hwf H) as (_ & _ & Hnz).
  destruct (train_epoch_inv _ _ _ _ _ _ _ _ _ _ _ _ _ _ _ H)
    as (sums & w1 & test_acc & test_loss & w2 & tl & ta & ea & el & w3 & w4
        & Hb & He1 & _ & _ & He2 & Hlog & Hck & _).
  unfold run_batches in Hb.
  destruct (batch_loop_ok lib loss (set_training true net) self accum_steps
              epoch (Z.of_nat (length train_iter)) Hnz total_nonzero
              train_iter 0%Z (mkSums 0 0 0) w)
    as (sums' & w1' & Hb' & _ & _ & Hk1).
  { destruct Hwf. split; assumption. }
  rewrite Hb in Hb'. injection Hb' as <- <-.
  exists test_acc, w3. split.
  - eapply rates_kept_trans; [apply policy_state_rates; exact Hk1 |].
    eapply rates_kept_trans; eapply evaluate_accuracy_rates; eassumption.
  - eapply rates_kept_trans; [eapply log_phase_rates; exact Hlog |].
    pose proof (checkpoint_phase_rates net self test_acc ea (best_acc st) w4)
      as Hr.
    now rewrite Hck in Hr.
Qed.

Lemma epoch_loop_sched (epochs : list Z) :
  forall (st st' : LoopState) (w w' : World T),
    ema_wf (heap w) self net ->
    epoch_loop (train_epoch lib train_iter test_iter net loss device
                            accum_steps self patience) epochs st w
    = Ok (st', w') ->
    exists k evs,
      sched_events (trace w') = sched_events (trace w) ++ evs
      /\ Forall2 sched_match (firstn k epochs) evs.
Proof.
  induction epochs as [| e rest IH]; intros st st' w w' Hwf H;
    cbn [epoch_loop] in H.
  - injection H as _ <-. exists 0%nat, []. split; [now rewrite app_nil_r |].
    constructor.
  - destruct (train_epoch lib train_iter test_iter net loss device accum_steps
                          self patience e st w)
      as [[[st1 stop] w1] | err] eqn:Hb; [| discriminate].
    cbn [mbind result_bind] in H.
    destruct (train_epoch_sched e st st1 stop w w1 Hwf Hb) as (ev & Hs & Hm & Hwf1).
    destruct stop.
    + injection H as _ <-. exists 1%nat, [ev]. split; [exact Hs |].
      cbn. repeat constructor. exact Hm.
    + destruct (IH st1 st' w1 w' Hwf1 H) as (k & evs & Hs' & Hf).
      exists (S k), (ev :: evs). split.
      * rewrite Hs', Hs, <- app_assoc. reflexivity.
      * cbn. constructor; assumption.
Qed.

End RunFacts.

Lemma py_range_lookup (n : Z) (i : nat) (e : Z) :
  py_range n !! i = Some e -> e = Z.of_nat i.
Proof.
  unfold py_range. change (map ?f ?l) with (f <$> l).
  rewrite list_lookup_fmap. intros H.
  destruct (seq 0 (Z.to_nat n) !! i) as [k |] eqn:Hk; [| discriminate].
  apply lookup_seq in Hk as [-> _]. now injection H as <-.
Qed.

(** C7.  Which scheduler an epoch steps, and on what.  Before epoch 12 the
    cosine scheduler alone is stepped, with the epoch index, and the
    plateau baseline is untouched.  At epoch 12 every group's [initial_lr]
    and the plateau scheduler's [base_lrs] are first set to the group's
    current learning rate (what the cosine phase left), the learning rates
    themselves unchanged, and only then is the plateau scheduler stepped,
    for the first time.  After epoch 12 the plateau scheduler alone is
    stepped, on the state as it stands.  Nothing else in an epoch touches
    the learning rates or the baseline, so the rates captured at epoch 12
    are those the last cosine step left.  In a run of [train] the
    scheduler call number [i] is [cosine_scheduler.step(i)] when [i < 12]
    and a plateau step otherwise, so the hand-over is one-way. *)
Theorem scheduler_handover {T Batch Output : Type}
    (lib : TorchLib T Batch Output) :
  (forall (epoch : Z) (test_acc : Q) (w : World T),
      let w' := scheduler_phase lib epoch test_acc w in
      let current := map lr (param_groups w) in
      ((epoch < 12)%Z ->
         trace w' = trace w ++ [CosineStep epoch]
         /\ base_lrs w' = base_lrs w
         /\ (torch w', param_groups w')
            = cosine_step lib (torch w) epoch (param_groups w))
      /\ (epoch = 12%Z ->
            exists rebased,
              trace w' = trace w ++ [PlateauStep test_acc current rebased]
              /\ map lr rebased = current
              /\ map initial_lr rebased = current
              /\ map weight_decay rebased = map weight_decay (param_groups w)
              /\ base_lrs w' = current
              /\ (torch w', param_groups w')
                 = plateau_step lib (torch w) test_acc current rebased)
      /\ ((12 < epoch)%Z ->
            trace w' = trace w
                       ++ [PlateauStep test_acc (base_lrs w) (param_groups w)]
            /\ base_lrs w' = base_lrs w
            /\ (torch w', param_groups w')
               = plateau_step lib (torch w) test_acc (base_lrs w)
                              (param_groups w)))
  /\ (forall (train_iter test_iter : list Batch) (net : NNModule)
             (loss : Output -> Batch -> Q) (device : Device)
             (accum_steps : Z) (self : ModelEMA) (patience epoch : Z)
             (st st' : LoopState) (stop : bool) (w w' : World T),
        ema_wf (heap w) self net ->
        total_epochs self <> 0%Z ->
        train_epoch lib train_iter test_iter net loss device accum_steps self
                    patience epoch st w = Ok (st', stop, w') ->
        exists test_acc w3,
          rates_kept w w3
          /\ rates_kept (scheduler_phase lib epoch test_acc w3) w')
  /\ (forall (train_iter test_iter : list Batch) (net : NNModule)
             (loss : Output -> Batch -> Q) (device : Device) (num_epochs : Z)
             (best_acc0 : Q) (accum_steps : Z) (w w' : World T) (best : Q),
        wf_module (heap w) net ->
        train lib train_iter test_iter net loss device num_epochs best_acc0
              accum_steps w = Ok (best, w') ->
        exists evs,
          sched_events (trace w') = sched_events (trace w) ++ evs
          /\ forall i ev, evs !! i = Some ev -> sched_match (Z.of_nat i) ev).
Proof.
  split; [| split].
  - intros epoch test_acc w w' current.
    destruct (scheduler_phase_cases lib epoch test_acc w) as (_ & Hc & He & Hp).
    split; [exact Hc |]. split; [| exact Hp].
    intros Heq. destruct (He Heq) as (Htr & Hb & Hstep).
    eexists. split; [exact Htr |].
    rewrite !map_map. cbn [lr initial_lr weight_decay].
    split; [reflexivity |]. split; [reflexivity |]. split; [reflexivity |].
    split; [exact Hb | exact Hstep].
  - intros train_iter test_iter net loss device accum_steps self patience
           epoch st st' stop w w' Hwf Ht Hrun.
    eapply train_epoch_rates; eassumption.
  - intros train_iter test_iter net loss device num_epochs best_acc0 accum_steps
           w w' best Hwf Hrun.
    unfold train in Hrun. rewrite ModelEMA_init_ok in Hrun by exact Hwf.
    cbn [mbind result_bind] in Hrun.
    match type of Hrun with
    | mbind _ ?r = _ => destruct r as [[st wf] | e] eqn:Hloop; [| discriminate]
    end.
    cbn [mbind result_bind] in Hrun. injection Hrun as _ <-.
    apply epoch_loop_sched in Hloop.
    + destruct Hloop as (k & evs & Hs & Hf). exists evs. split; [exact Hs |].
      intros i ev Hev.
      destruct (Forall2_lookup_r _ _ _ _ _ Hf Hev) as (e & He & Hm).
      apply lookup_take_Some in He as [He _].
      apply py_range_lookup in He. now subst e.
    + discriminate.
    + cbn [set_heap heap]. now apply init_ema_wf.
Qed.

Lemma scheduler_handover_witness :
  (let w' := scheduler_phase Toy.lib 12 (7 # 10) Toy.world1 in
   exists rebased,
     trace w' = [PlateauStep (7 # 10) (map lr Toy.groups) rebased]
     /\ map initial_lr rebased = map lr Toy.groups
     /\ base_lrs w' = map lr Toy.groups)
  /\ (exists best w',
        train Toy.lib Toy.ten_batches Toy.ragged_batches Toy.net Toy.loss cpu
              14 0 4 Toy.world = Ok (best, w')
        /\ exists evs,
             sched_events (trace w') = evs
             /\ forall i ev, evs !! i = Some ev -> sched_match (Z.of_nat i) ev).
Proof.
  destruct (scheduler_handover Toy.lib) as (Hphase & _ & Hrun). split.
  - destruct (proj1 (proj2 (Hphase 12%Z (7 # 10) Toy.world1)) eq_refl)
      as (rebased & Htr & _ & Hinit & _ & Hbase & _).
    exists rebased. split; [exact Htr |]. split; [exact Hinit | exact Hbase].
  - destruct (train Toy.lib Toy.ten_batches Toy.ragged_batches Toy.net Toy.loss
                    cpu 14 0 4 Toy.world) as [[best w'] | e] eqn:Htrain.
    + exists best, w'. split; [reflexivity |].
      apply (Hrun _ _ _ _ _ _ _ _ _ _ _) in Htrain; [| repeat constructor].
      exact Htrain.
    + vm_compute in Htrain. discriminate.
Defined.
(** C8.  The early-stopping metric of an epoch is
    [0.8 * val_accuracy + 0.2 * (1 - val_loss)] on the live model's
    validation results, as Python evaluates it on doubles
    ([composite_metric]): it lies within
    [2^-51 * (|val_accuracy| + |val_loss| + 1) + 2^-147] of the exact
    value.  When it strictly exceeds the running best, the best becomes
    the metric and the counter 0; otherwise the best stays, the counter
    grows by one, and the loop is left exactly when the counter has
    reached [patience].  Leaving means that no later epoch runs.  The
    counter and its threshold live in the loop state of [train], not in
    the plateau scheduler: replacing that scheduler by any other changes
    neither the loop state nor the decision of an epoch. *)
Theorem early_stopping_rule :
  (forall (patience : Z) (test_acc test_loss best : Q) (count : Z),
      let metric := composite_metric test_acc test_loss in
      (Qabs (metric - ((8 # 10) * test_acc + (2 # 10) * (1 - test_loss)))
       <= (1 # 2251799813685248) * (Qabs test_acc + Qabs test_loss + 1)
          + 2 ^ (-147))%Q
      /\ ((best < metric)%Q ->
          early_stop_phase patience test_acc test_loss best count
          = (metric, 0%Z, false))
      /\ ((metric <= best)%Q ->
          early_stop_phase patience test_acc test_loss best count
          = (best, (count + 1)%Z, (patience <=? count + 1)%Z)))
  /\ (forall (T : Type)
             (body : Z -> LoopState -> World T
                     -> result (LoopState * bool * World T))
             (epoch : Z) (rest : list Z) (st st' : LoopState) (w w' : World T),
        (body epoch st w = Ok (st', true, w') ->
         epoch_loop body (epoch :: rest) st w = Ok (st', w'))
        /\ (body epoch st w = Ok (st', false, w') ->
            epoch_loop body (epoch :: rest) st w = epoch_loop body rest st' w'))
  /\ (forall (T Batch Output : Type) (lib : TorchLib T Batch Output)
             (train_iter test_iter : list Batch) (net : NNModule)
             (loss : Output -> Batch -> Q) (device : Device) (accum_steps : Z)
             (self : ModelEMA) (patience epoch : Z) (st st' : LoopState)
             (stop : bool) (w w' : World T),
        train_epoch lib train_iter test_iter net loss device accum_steps self
                    patience epoch st w = Ok (st', stop, w') ->
        (exists sums w1 test_acc test_loss w2,
            run_batches lib loss net self accum_steps epoch train_iter w
            = Ok (sums, w1)
            /\ evaluate_accuracy lib test_iter net loss (Some device) false
                                 (Some self) w1 = Ok (test_acc, test_loss, w2)
            /\ early_stop_phase patience test_acc test_loss (best_metric st)
                                (no_improve st)
               = (best_metric st', no_improve st', stop))
        /\ (forall f st2 stop2 w2,
              train_epoch (with_plateau lib f) train_iter test_iter net loss
                          device accum_steps self patience epoch st w
              = Ok (st2, stop2, w2) ->
              st2 = st' /\ stop2 = stop)).
Proof.
  split; [| split].
  - intros patience test_acc test_loss best count metric.
    split; [apply composite_metric_error |].
    unfold early_stop_phase. fold metric. split.
    + intros H. apply py_gt_true in H. now rewrite H.
    + intros H. apply py_gt_false in H. now rewrite H.
  - intros T body epoch rest st st' w w'. split; intros H; cbn [epoch_loop];
      rewrite H; reflexivity.
  - intros T Batch Output lib train_iter test_iter net loss device accum_steps
           self patience epoch st st' stop w w' H.
    destruct (train_epoch_inv _ _ _ _ _ _ _ _ _ _ _ _ _ _ _ H)
      as (sums & w1 & test_acc & test_loss & w2 & tl & ta & ea & el & w3 & w4
          & Hb & He1 & Htl & Hta & He2 & Hlog & Hck & Hes).
    split.
    + exists sums, w1, test_acc, test_loss, w2. auto.
    + intros f st2 stop2 wx H2.
      destruct (train_epoch_inv _ _ _ _ _ _ _ _ _ _ _ _ _ _ _ H2)
        as (sums' & w1' & test_acc' & test_loss' & w2' & tl' & ta' & ea' & el'
            & w3' & w4' & Hb' & He1' & Htl' & Hta' & He2' & Hlog' & Hck' & Hes').
      rewrite run_batches_with_plateau, Hb in Hb'. injection Hb' as <- <-.
      rewrite evaluate_accuracy_with_plateau, He1 in He1'.
      injection He1' as <- <- <-.
      rewrite evaluate_accuracy_with_plateau, He2 in He2'.
      injection He2' as <- <- <-.
      rewrite Hes in Hes'. injection Hes' as Hm Hn <-.
      pose proof (checkpoint_phase_best_any net self test_acc ea (best_acc st)
                    w4 w4') as Hbest.
      rewrite Hck, Hck' in Hbest. cbn [fst] in Hbest.
      split; [| reflexivity].
      destruct st2, st'. cbn in *. congruence.
Qed.

(** Two instances.  With a best of 0.676 and two epochs without
    improvement behind it, an epoch at accuracy 0.71 and loss 0.5 (metric
    0.668) is the third and, at patience 3, the last.  After an epoch at
    accuracy 5/8 and loss 0, an epoch at accuracy 6/8 and loss 0.5 has the
    same exact composite, 0.7, but on doubles the second evaluates to
    0.7000000000000001 and the first to 0.7: the counter is reset. *)
Lemma early_stopping_rule_witness :
  early_stop_phase 3 (71 # 100) (1 # 2) (676 # 1000) 2
  = (676 # 1000, 3%Z, true)
  /\ ((8 # 10) * (5 # 8) + (2 # 10) * (1 - 0)
      == (8 # 10) * (6 # 8) + (2 # 10) * (1 - (1 # 2)))%Q
  /\ early_stop_phase 12 (6 # 8) (1 # 2) (composite_metric (5 # 8) 0) 3
     = (composite_metric (6 # 8) (1 # 2), 0%Z, false).
Proof.
  split; [| split].
  - apply (proj1 early_stopping_rule 3%Z (71 # 100) (1 # 2) (676 # 1000) 2%Z).
    vm_compute. discriminate.
  - reflexivity.
  - apply (proj1 early_stopping_rule 12%Z (6 # 8) (1 # 2)
             (composite_metric (5 # 8) 0) 3%Z).
    vm_compute. reflexivity.
Defined.

(** ** [train] returns *)

Section Totality.
Context {T Batch Output : Type} (lib : TorchLib T Batch Output).
Variables (train_iter test_iter : list Batch) (net : NNModule).
Variables (loss : Output -> Batch -> Q) (device : Device) (accum_steps : Z).
Variables (self : ModelEMA) (patience : Z).
Hypothesis total_nonzero : total_epochs self <> 0%Z.
Hypothesis train_nonempty : train_iter <> [].
Hypothesis test_nonempty : test_iter <> [].
Hypothesis accum_nonzero : accum_steps <> 0%Z.
Hypothesis keep_groups : schedulers_keep_groups lib.

Lemma scheduler_phase_groups (epoch : Z) (test_acc : Q) (w : World T) :
  length (param_groups (scheduler_phase lib epoch test_acc w))
  = length (param_groups w).
Proof.
  destruct keep_groups as [Hcos Hpla].
  destruct (scheduler_phase_cases lib epoch test_acc w) as (_ & Hc & He & Hp).
  destruct (Z.lt_trichotomy epoch 12) as [Hlt | [Heq | Hgt]].
  - destruct (Hc Hlt) as (_ & _ & Hstep).
    apply (f_equal snd) in Hstep. cbn [snd] in Hstep. rewrite Hstep. apply Hcos.
  - destruct (He Heq) as (_ & _ & Hstep).
    apply (f_equal snd) in Hstep. cbn [snd] in Hstep. rewrite Hstep, Hpla.
    apply length_map.
  - destruct (Hp Hgt) as (_ & _ & Hstep).
    apply (f_equal snd) in Hstep. cbn [snd] in Hstep. rewrite Hstep. apply Hpla.
Qed.

Lemma log_phase_ok (epoch : Z) (a b c d e f : Q) (w : World T) :
  2 <= length (param_groups w) ->
  exists w', log_phase epoch a b c d e f w = Ok w'.
Proof.
  intros Hlen. unfold log_phase, py_index.
  cbn [add_scalar param_groups].
  destruct (param_groups w) as [| g0 [| g1 gs]]; cbn in Hlen; try lia.
  cbn. eexists. reflexivity.
Qed.

Lemma train_epoch_ok (epoch : Z) (st : LoopState) (w : World T) :
  ema_wf (heap w) self net ->
  2 <= length (param_groups w) ->
  exists st' stop w',
    train_epoch lib train_iter test_iter net loss device accum_steps self
                patience epoch st w = Ok (st', stop, w')
    /\ ema_wf (heap w') self net
    /\ 2 <= length (param_groups w').
Proof.
  intros Hwf Hlen. unfold train_epoch, run_batches.
  destruct (batch_loop_ok lib loss (set_training true net) self accum_steps
              epoch (Z.of_nat (length train_iter)) accum_nonzero total_nonzero
              train_iter 0%Z (mkSums 0 0 0) w)
    as (sums & w1 & Hb & _ & Hsh1 & Hk1).
  { destruct Hwf. split; assumption. }
  rewrite Hb. cbn [mbind result_bind].
  destruct (batch_loop_sums lib loss _ _ _ _ _ accum_nonzero _ _ _ _ _ _ Hb)
    as (Hlo & Hn & _).
  cbn [n_seen] in Hn. rewrite Z.add_0_l in Hn.
  assert (Hpos : (0 < n_seen sums)%Z).
  { rewrite Hn. apply samples_pos. intros Hnil. rewrite Hnil in Hlo.
    destruct train_iter; [congruence | discriminate]. }
  destruct (evaluate_accuracy_ok lib loss test_iter net (Some device) false
              (Some self) w1)
    as (acc & l & w2 & He1 & _ & _ & Hh2 & _ & Hk2);
    [discriminate | discriminate | exact test_nonempty |].
  rewrite He1. cbn [mbind result_bind].
  rewrite !py_truediv_ok by lia. cbn [mbind result_bind].
  destruct (evaluate_accuracy_ok lib loss test_iter net (Some device) true
              (Some self) w2)
    as (eacc & el & w3 & He2 & _ & _ & Hh3 & _ & Hk3);
    [discriminate | discriminate | exact test_nonempty |].
  rewrite He2. cbn [mbind result_bind].
  assert (Hg3 : param_groups w3 = param_groups w).
  { destruct Hk1 as (A1 & _), Hk2 as (A2 & _), Hk3 as (A3 & _). congruence. }
  set (w3' := scheduler_phase lib epoch acc w3).
  assert (Hlen' : 2 <= length (param_groups w3')).
  { unfold w3'. rewrite scheduler_phase_groups, Hg3. exact Hlen. }
  match goal with
  | |- context [log_phase ?e ?a ?b ?c ?d ?f ?g w3'] =>
      destruct (log_phase_ok e a b c d f g w3' Hlen') as (w4 & Hlog);
        pose proof (log_phase_quiet _ _ _ _ _ _ _ _ _ Hlog) as [Hh4 _];
        pose proof (log_phase_rates _ _ _ _ _ _ _ _ _ Hlog) as [Hg4 _]
  end.
  rewrite Hlog. cbn [mbind result_bind].
  pose proof (checkpoint_phase_quiet net self acc eacc (best_acc st) w4)
    as [Hh5 _].
  pose proof (checkpoint_phase_rates net self acc eacc (best_acc st) w4)
    as [Hg5 _].
  destruct (checkpoint_phase net self acc eacc (best_acc st) w4) as [best w5].
  cbn [snd] in Hh5, Hg5.
  destruct (early_stop_phase patience acc l (best_metric st) (no_improve st))
    as [[metric count] stop].
  do 3 eexists. split; [reflexivity |]. split.
  - eapply ema_wf_same_shapes; [exact Hwf |].
    destruct (scheduler_phase_cases lib epoch acc w3) as (Hhs & _).
    fold w3' in Hhs. rewrite Hh5, Hh4, Hhs, Hh3, Hh2. exact Hsh1.
  - rewrite Hg5, Hg4. exact Hlen'.
Qed.

Lemma epoch_loop_ok (epochs : list Z) :
  forall (st : LoopState) (w : World T),
    ema_wf (heap w) self net ->
    2 <= length (param_groups w) ->
    exists st' w',
      epoch_loop (train_epoch lib train_iter test_iter net loss device
                              accum_steps self patience) epochs st w
      = Ok (st', w').
Proof.
  induction epochs as [| e rest IH]; intros st w Hwf Hlen; cbn [epoch_loop].
  - do 2 eexists. reflexivity.
  - destruct (train_epoch_ok e st w Hwf Hlen)
      as (st1 & stop & w1 & Hrun & Hwf1 & Hlen1).
    rewrite Hrun. cbn [mbind result_bind]. destruct stop.
    + do 2 eexists. reflexivity.
    + apply IH; assumption.
Qed.

End Totality.

(** X12.  [train] returns: on non-empty training and validation streams,
    with a non-zero accumulation window, an optimizer of at least two
    parameter groups and schedulers that keep the number of groups, every
    epoch runs to its end and [train] returns a best accuracy, whatever
    [num_epochs] is. *)
Lemma train_returns {T Batch Output : Type} (lib : TorchLib T Batch Output)
    (train_iter test_iter : list Batch) (net : NNModule)
    (loss : Output -> Batch -> Q) (device : Device) (num_epochs : Z)
    (best_acc0 : Q) (accum_steps : Z) (w : World T) :
  wf_module (heap w) net ->
  train_iter <> [] -> test_iter <> [] -> accum_steps <> 0%Z ->
  schedulers_keep_groups lib ->
  2 <= length (param_groups w) ->
  exists best w',
    train lib train_iter test_iter net loss device num_epochs best_acc0
          accum_steps w = Ok (best, w').
Proof.
  intros Hwf Htr Hte Hacc Hkeep Hlen. unfold train.
  rewrite ModelEMA_init_ok by exact Hwf. cbn [mbind result_bind].
  set (self := mkEMA (shadow_module (heap w) net) (999 # 1000) (995 # 1000) 50).
  assert (Ht : total_epochs self <> 0%Z) by discriminate.
  match goal with
  | |- context [epoch_loop ?body ?epochs ?st ?w0] =>
      destruct (epoch_loop_ok lib train_iter test_iter net loss device
                  accum_steps self 12%Z Ht Htr Hte Hacc Hkeep
                  epochs st w0) as (st' & w' & Hrun)
  end.
  - cbn [set_heap heap]. now apply init_ema_wf.
  - exact Hlen.
  - rewrite Hrun. cbn [mbind result_bind]. do 2 eexists. reflexivity.
Qed.

(** ** Worked examples *)

(** The checkpoint-policy scenario of the design notes: validation
    accuracies 0.70, 0.72, 0.71, 0.71, 0.71 at a constant loss and a
    patience of 3.  The loop is left after the fifth epoch, with three
    epochs without improvement behind it. *)
Example early_stop_after_three_flat_epochs :
  let step := fun (st : Q * Z * bool) (acc : Q) =>
                early_stop_phase 3 acc (1 # 2) (fst (fst st)) (snd (fst st)) in
  map (fun st : Q * Z * bool => (snd (fst st), snd st))
      [fold_left step [70 # 100; 72 # 100] (0%Q, 0%Z, false);
       fold_left step [70 # 100; 72 # 100; 71 # 100; 71 # 100] (0%Q, 0%Z, false);
       fold_left step [70 # 100; 72 # 100; 71 # 100; 71 # 100; 71 # 100]
                 (0%Q, 0%Z, false)]
  = [(0%Z, false); (2%Z, false); (3%Z, true)].
Proof. reflexivity. Qed.

(** In the same scenario the live checkpoint is written in the first two
    epochs only. *)
Example checkpoint_written_on_improvement :
  let step := fun (st : Q * World nat) (acc : Q) =>
                checkpoint_phase Toy.net Toy.shadow acc 0 (fst st) (snd st) in
  trace (snd (fold_left step [70 # 100; 72 # 100; 71 # 100; 71 # 100; 71 # 100]
                        (0%Q, Toy.world1)))
  = [Save "best_model.pth"; Save "best_model.pth"].
Proof. reflexivity. Qed.

(** A run of [train] on the toy instance: fifty epochs are asked for, the
    composite metric improves in the first epoch only, and the loop is
    left after epoch 12, the first and only epoch to step the plateau
    scheduler. *)
Example toy_run_stops_early :
  match train Toy.lib Toy.ragged_batches Toy.ragged_batches Toy.net Toy.loss
              cpu 50 0 4 Toy.world with
  | Ok (best, w) =>
      Some (Qred best, length (sched_events (trace w)), map fst (files w),
            base_lrs w, map initial_lr (param_groups w))
  | Err _ => None
  end
  = Some (4 # 5, 13, ["best_model.pth"%string],
          [2 # 409600000; 5 # 40960000; 1 # 4096000],
          [2 # 409600000; 5 # 40960000; 1 # 4096000]).
Proof. vm_compute. reflexivity. Qed.

(** ** More on ModelEMA *)

Lemma ema_decay_range (self : ModelEMA) (e : Z) :
  (0 < total_epochs self)%Z ->
  (min_decay self <= initial_decay self)%Q ->
  (0 <= e)%Z ->
  (min_decay self <= py_max (linear_decay self e) (min_decay self))%Q
  /\ (py_max (linear_decay self e) (min_decay self) <= initial_decay self)%Q.
Proof.
  intros Ht Hd He. rewrite py_max_Qmax. split.
  - apply Q.le_max_r.
  - apply Q.max_lub; [| exact Hd].
    rewrite <- (linear_decay_0 self). now apply linear_decay_mono.
Qed.

(** X1.  From epoch 0 on, the decay [update] computes stays between
    [min_decay] and [initial_decay]. *)
Theorem ema_decay_bounds (self : ModelEMA) (epoch : Z) :
  (0 < total_epochs self)%Z ->
  (min_decay self <= initial_decay self)%Q ->
  (0 <= epoch)%Z ->
  exists d,
    ema_decay self epoch = Ok d
    /\ (min_decay self <= d)%Q /\ (d <= initial_decay self)%Q.
Proof.
  intros Ht Hd He. eexists. split; [apply ema_decay_ok; lia |].
  now apply ema_decay_range.
Qed.

Lemma ema_decay_bounds_witness :
  exists d,
    ema_decay Toy.shadow 30 = Ok d
    /\ (995 # 1000 <= d)%Q /\ (d <= 999 # 1000)%Q.
Proof.
  apply (ema_decay_bounds Toy.shadow 30).
  - reflexivity.
  - vm_compute. discriminate.
  - lia.
Defined.

(** X4.  The constructor accepts [total_epochs = 0], but every later
    [update] then raises [ZeroDivisionError]; with any other
    [total_epochs] an update of a well-formed shadow succeeds. *)
Theorem ema_update_zero_total_epochs (s : Store) (self : ModelEMA)
    (model : NNModule) (epoch : Z) :
  (total_epochs self = 0%Z ->
   ModelEMA_update self model epoch s = Err ZeroDivisionError)
  /\ (ema_wf s self model ->
      (is_ok (ModelEMA_update self model epoch s) = false
       <-> total_epochs self = 0%Z))
  /\ (wf_module s model ->
      exists self0 s0,
        ModelEMA_init s model (initial_decay self) 0 = Ok (self0, s0)
        /\ ModelEMA_update self0 model epoch s0 = Err ZeroDivisionError).
Proof.
  assert (Hzero : forall (x : ModelEMA) (h : Store),
             total_epochs x = 0%Z ->
             ModelEMA_update x model epoch h = Err ZeroDivisionError).
  { intros x h Hx. unfold ModelEMA_update, ema_decay, py_truediv_int.
    now rewrite Hx. }
  split; [apply Hzero |]. split.
  - intros Hwf. split.
    + intros Hfail. destruct (Z.eq_dec (total_epochs self) 0%Z) as [Hz | Hnz];
        [exact Hz |].
      destruct (ModelEMA_update_ok s self model epoch Hwf Hnz) as (s' & Hrun & _).
      rewrite Hrun in Hfail. discriminate.
    + intros Hz. now rewrite (Hzero self s Hz).
  - intros Hwf. do 2 eexists. split; [now apply ModelEMA_init_ok |].
    now apply Hzero.
Qed.

Lemma ema_update_zero_total_epochs_witness :
  (is_ok (ModelEMA_update Toy.shadow Toy.net 5 Toy.heap1) = false
   <-> total_epochs Toy.shadow = 0%Z)
  /\ exists self0 s0,
       ModelEMA_init Toy.heap0 Toy.net (999 # 1000) 0 = Ok (self0, s0)
       /\ ModelEMA_update self0 Toy.net 5 s0 = Err ZeroDivisionError.
Proof.
  split.
  - apply (proj1 (proj2 (ema_update_zero_total_epochs Toy.heap1 Toy.shadow
                           Toy.net 5))).
    apply (init_ema_wf Toy.heap0 Toy.net (999 # 1000) 50). repeat constructor.
  - apply (proj2 (proj2 (ema_update_zero_total_epochs Toy.heap0 Toy.shadow
                           Toy.net 5))).
    repeat constructor.
Defined.

Lemma zip_app_surplus {A B : Type} (l : list A) (k extra : list B) :
  length l = length k -> zip l (k ++ extra) = zip l k.
Proof.
  revert k. induction l as [| a l IH]; intros [| b k] Hlen; cbn in *;
    try discriminate; try reflexivity.
  f_equal. apply IH. lia.
Qed.

(** X5.  [update] never compares the two parameter lists: parameters the
    live model has beyond the shadow's are ignored, and when the live
    model has fewer, the shadow's surplus parameters are left as they
    are; neither case raises. *)
Theorem ema_update_ignores_length_mismatch (s : Store) (self : ModelEMA)
    (model : NNModule) (epoch : Z) :
  ema_wf s self model -> total_epochs self <> 0%Z ->
  (forall extra : list loc,
      ModelEMA_update self (mkModule (parameters model ++ extra) (training model))
                      epoch s
      = ModelEMA_update self model epoch s)
  /\ (forall k : nat,
        exists s',
          ModelEMA_update self (mkModule (take k (parameters model))
                                         (training model)) epoch s = Ok s'
          /\ forall i e, parameters (ema self) !! i = Some e -> k <= i ->
                         s' !!! e = s !!! e).
Proof.
  intros Hwf Ht. split.
  - intros extra. unfold ModelEMA_update. cbn [parameters].
    rewrite zip_app_surplus; [reflexivity |].
    exact (Forall2_length _ _ _ (wf_shapes _ _ _ Hwf)).
  - intros k. destruct Hwf as [Hnd Hdis Hal Hsh _].
    unfold ModelEMA_update. rewrite ema_decay_ok by exact Ht.
    cbn [mbind result_bind parameters].
    assert (Hzip : zip (parameters (ema self)) (take k (parameters model))
                   = zip (take k (parameters (ema self)))
                         (take k (parameters model))).
    { clear -Hsh. revert k. induction Hsh as [| e m es ms _ _ IH]; intros [| k];
        cbn; try reflexivity.
      f_equal. apply IH. }
    rewrite Hzip.
    destruct (update_params_ok
                (py_max (linear_decay self epoch) (min_decay self))
                (take k (parameters (ema self))) (take k (parameters model)) s)
      as (s' & Hrun & _ & Hout & _).
    + eapply sublist_NoDup; [exact Hnd | apply sublist_take].
    + intros l Hl Hl'. apply elem_of_take in Hl as (i & Hi & _).
      apply elem_of_take in Hl' as (j & Hj & _).
      apply (Hdis l); eapply list_elem_of_lookup_2; eassumption.
    + apply Forall_take. exact Hal.
    + apply Forall2_take. exact Hsh.
    + exists s'. split; [exact Hrun |].
      intros i e Hi Hk. apply Hout. intros Hin.
      apply list_elem_of_lookup in Hin as [j Hj].
      apply lookup_take_Some in Hj as [Hj Hjk].
      pose proof (NoDup_lookup _ _ _ _ Hnd Hi Hj). lia.
Qed.

Lemma ema_update_ignores_length_mismatch_witness :
  ModelEMA_update Toy.shadow (mkModule [0; 1; 0] true) 5 Toy.heap1
  = ModelEMA_update Toy.shadow Toy.net 5 Toy.heap1
  /\ exists s',
       ModelEMA_update Toy.shadow (mkModule [0] true) 5 Toy.heap1 = Ok s'
       /\ s' !!! 3 = Toy.heap1 !!! 3.
Proof.
  destruct (ema_update_ignores_length_mismatch Toy.heap1 Toy.shadow Toy.net 5)
    as [Hmore Hfewer].
  - apply (init_ema_wf Toy.heap0 Toy.net (999 # 1000) 50). repeat constructor.
  - discriminate.
  - split; [exact (Hmore [0]) |].
    destruct (Hfewer 1) as (s' & Hrun & Hkeep).
    exists s'. split; [exact Hrun |]. apply (Hkeep 1); [reflexivity | lia].
Defined.
(** ** Whole runs of [train] *)

Lemma evaluate_accuracy_frame {T Batch Output : Type}
    (lib : TorchLib T Batch Output) (data_iter : list Batch) (net : NNModule)
    (loss_fn : Output -> Batch -> Q) (device : option Device) (use_ema : bool)
    (ema_model : option ModelEMA) (w w' : World T) (acc l : Q) :
  evaluate_accuracy lib data_iter net loss_fn device use_ema ema_model w
  = Ok (acc, l, w') ->
  heap w' = heap w /\ trace w' = trace w /\ policy_state_kept w w'.
Proof.
  unfold evaluate_accuracy. intros H.
  destruct (match device, parameters net with
            | None, [] => Err StopIteration
            | _, _ => Ok tt
            end); [| discriminate].
  cbn [mbind result_bind] in H.
  destruct (if use_ema then _ else _) as [model | e]; [| discriminate].
  cbn [mbind result_bind] in H.
  destruct (eval_fold lib loss_fn (set_training false model) data_iter 0 0 0%Z w)
    as (a' & l' & w1 & Hrun & _ & _ & Hh & Htr & Hk).
  rewrite Hrun in H.
  destruct (py_truediv a' _) as [x | e]; [| discriminate].
  cbn [mbind result_bind] in H.
  destruct (py_truediv l' _) as [y | e]; [| discriminate].
  cbn [mbind result_bind] in H. injection H as _ _ <-. auto.
Qed.

Lemma scheduler_phase_sink {T Batch Output : Type}
    (lib : TorchLib T Batch Output) (epoch : Z) (test_acc : Q) (w : World T) :
  scalars (scheduler_phase lib epoch test_acc w) = scalars w
  /\ files (scheduler_phase lib epoch test_acc w) = files w.
Proof.
  unfold scheduler_phase. destruct (epoch <? 12)%Z.
  - destruct (cosine_step lib (torch w) epoch (param_groups w)). now split.
  - destruct (epoch =? 12)%Z;
      match goal with
      | |- context [plateau_step lib ?a ?b ?c ?d] =>
          destruct (plateau_step lib a b c d)
      end; now split.
Qed.

Lemma scalars_add_scalar {T : Type} (name : string) (v : Q) (step : Z)
    (w : World T) :
  scalars (add_scalar name v step w) = scalars w ++ [(name, v, step)].
Proof. reflexivity. Qed.

Lemma files_add_scalar {T : Type} (name : string) (v : Q) (step : Z)
    (w : World T) :
  files (add_scalar name v step w) = files w.
Proof. reflexivity. Qed.

Lemma log_phase_scalars {T : Type} (epoch : Z)
    (train_loss train_acc test_loss test_acc ema_test_loss ema_test_acc : Q)
    (w w' : World T) :
  log_phase epoch train_loss train_acc test_loss test_acc ema_test_loss
            ema_test_acc w = Ok w' ->
  exists lr0 lr1,
    scalars w'
    = scalars w ++ epoch_scalars (mkLog epoch train_loss train_acc test_loss
                                        test_acc lr0 lr1 ema_test_loss
                                        ema_test_acc)
    /\ files w' = files w.
Proof.
  unfold log_phase. intros H.
  destruct (py_index _ 0) as [g0 | err]; [| discriminate].
  cbn [mbind result_bind] in H.
  destruct (py_index _ 1) as [g1 | err]; [| discriminate].
  cbn [mbind result_bind] in H. injection H as <-.
  exists (lr g0), (lr g1). rewrite !scalars_add_scalar, !files_add_scalar.
  split; [| reflexivity]. rewrite <- !app_assoc. reflexivity.
Qed.

Lemma checkpoint_phase_scalars {T : Type} (net : NNModule) (self : ModelEMA)
    (a b c : Q) (w : World T) :
  scalars (snd (checkpoint_phase net self a b c w)) = scalars w.
Proof.
  unfold checkpoint_phase.
  destruct (py_gt a c);
    match goal with
    | |- context [py_gt b ?x] => destruct (py_gt b x)
    end; reflexivity.
Qed.

Section RunLogs.
Context {T Batch Output : Type} (lib : TorchLib T Batch Output).
Variables (train_iter test_iter : list Batch) (net : NNModule).
Variables (loss : Output -> Batch -> Q) (device : Device) (accum_steps : Z).
Variables (self : ModelEMA) (patience : Z).
Hypothesis total_nonzero : total_epochs self <> 0%Z.

Lemma train_epoch_log (epoch : Z) (st st' : LoopState) (stop : bool)
    (w w' : World T) :
  ema_wf (heap w) self net ->
  train_epoch lib train_iter test_iter net loss device accum_steps self
              patience epoch st w = Ok (st', stop, w') ->
  exists r,
    ep_index r = epoch
    /\ scalars w' = scalars w ++ epoch_scalars r
    /\ best_acc st' = py_max (py_max (best_acc st) (ep_val_acc r)) (ep_ema_acc r)
    /\ early_stop_phase patience (ep_val_acc r) (ep_val_loss r) (best_metric st)
                        (no_improve st)
       = (best_metric st', no_improve st', stop)
    /\ same_shapes (heap w) (heap w').
Proof.
  intros Hwf H.
  destruct (train_epoch_ok_inputs lib _ _ _ _ _ _ _ _ total_nonzero _ _ _ _ _ _
              Hwf H) as (_ & _ & Hnz).
  destruct (train_epoch_inv _ _ _ _ _ _ _ _ _ _ _ _ _ _ _ H)
    as (sums & w1 & test_acc & test_loss & w2 & tl & ta & ea & el & w3 & w4
        & Hb & He1 & _ & _ & He2 & Hlog & Hck & Hes).
  unfold run_batches in Hb.
  destruct (batch_loop_ok lib loss (set_training true net) self accum_steps
              epoch (Z.of_nat (length train_iter)) Hnz total_nonzero
              train_iter 0%Z (mkSums 0 0 0) w)
    as (sums' & w1' & Hb' & _ & Hsh1 & Hk1).
  { destruct Hwf. split; assumption. }
  rewrite Hb in Hb'. injection Hb' as <- <-.
  destruct (evaluate_accuracy_frame _ _ _ _ _ _ _ _ _ _ _ He1) as (Hh2 & _ & Hk2).
  destruct (evaluate_accuracy_frame _ _ _ _ _ _ _ _ _ _ _ He2) as (Hh3 & _ & Hk3).
  destruct (scheduler_phase_cases lib epoch test_acc w3) as (Hhs & _).
  destruct (scheduler_phase_sink lib epoch test_acc w3) as (Hss & _).
  destruct (log_phase_scalars _ _ _ _ _ _ _ _ _ Hlog) as (lr0 & lr1 & Hsc & _).
  destruct (log_phase_quiet _ _ _ _ _ _ _ _ _ Hlog) as [Hh4 _].
  pose proof (checkpoint_phase_scalars net self test_acc ea (best_acc st) w4) as Hs5.
  pose proof (checkpoint_phase_quiet net self test_acc ea (best_acc st) w4)
    as [Hh5 _].
  pose proof (checkpoint_phase_best net self test_acc ea (best_acc st) w4) as Hbest.
  rewrite Hck in Hs5, Hh5, Hbest. cbn [fst snd] in Hs5, Hh5, Hbest.
  exists (mkLog epoch tl ta test_loss test_acc lr0 lr1 el ea).
  cbn [ep_index ep_val_acc ep_val_loss ep_ema_acc].
  split; [reflexivity |]. split; [| split; [exact Hbest | split; [exact Hes |]]].
  - rewrite Hs5, Hsc, Hss.
    destruct Hk1 as (_ & _ & _ & S1), Hk2 as (_ & _ & _ & S2),
      Hk3 as (_ & _ & _ & S3).
    now rewrite S3, S2, S1.
  - destruct Hsh1 as [L1 C1]. split.
    + now rewrite Hh5, Hh4, Hhs, Hh3, Hh2.
    + intros l. rewrite Hh5, Hh4, Hhs, Hh3, Hh2. apply C1.
Qed.

Lemma epoch_loop_logs (epochs : list Z) :
  forall (st st' : LoopState) (w w' : World T),
    ema_wf (heap w) self net ->
    epoch_loop (train_epoch lib train_iter test_iter net loss device
                            accum_steps self patience) epochs st w
    = Ok (st', w') ->
    exists logs,
      map ep_index logs = take (length logs) epochs
      /\ length logs <= length epochs
      /\ scalars w' = scalars w ++ concat (map epoch_scalars logs)
      /\ best_acc st' = best_after logs (best_acc st)
      /\ (length logs < length epochs -> (patience <= no_improve st')%Z)
      /\ ((0 <= no_improve st)%Z ->
          (0 <= no_improve st' <= no_improve st + Z.of_nat (length logs))%Z)
      /\ same_shapes (heap w) (heap w').
Proof.
  induction epochs as [| e rest IH]; intros st st' w w' Hwf H;
    cbn [epoch_loop] in H.
  - injection H as <- <-. exists []. cbn.
    split; [reflexivity |]. split; [lia |]. split; [now rewrite app_nil_r |].
    split; [reflexivity |]. split; [lia |]. split; [lia | apply same_shapes_refl].
  - destruct (train_epoch lib train_iter test_iter net loss device accum_steps
                          self patience e st w)
      as [[[st1 stop] w1] | err] eqn:Hb; [| discriminate].
    cbn [mbind result_bind] in H.
    destruct (train_epoch_log e st st1 stop w w1 Hwf Hb)
      as (r & Hidx & Hsc & Hbest & Hes & Hsh).
    assert (Hcount : (0 <= no_improve st)%Z ->
                     (0 <= no_improve st1 <= no_improve st + 1)%Z).
    { intros H0. unfold early_stop_phase in Hes.
      destruct (py_gt _ (best_metric st)); injection Hes as _ <- _; lia. }
    assert (Hstop : stop = true -> (patience <= no_improve st1)%Z).
    { intros ->. unfold early_stop_phase in Hes.
      destruct (py_gt _ (best_metric st)); injection Hes as _ <- Hs;
        [discriminate |]. now apply Z.leb_le in Hs. }
    destruct stop.
    + injection H as <- <-. exists [r]. cbn [length map concat take].
      split; [now rewrite Hidx |]. split; [lia |].
      split; [now rewrite app_nil_r |]. split; [exact Hbest |].
      split; [intros _; now apply Hstop |].
      split; [intros H0; specialize (Hcount H0); lia | exact Hsh].
    + assert (Hwf1 : ema_wf (heap w1) self net)
        by (eapply ema_wf_same_shapes; eassumption).
      destruct (IH st1 st' w1 w' Hwf1 H)
        as (logs & Hi & Hlen & Hsc' & Hbest' & Hearly & Hcnt & Hsh').
      exists (r :: logs). cbn [length map concat take].
      split; [now rewrite Hidx, Hi |]. split; [lia |].
      split; [now rewrite Hsc', Hsc, <- app_assoc |].
      split; [unfold best_after in *; cbn [fold_left]; now rewrite <- Hbest |].
      split; [intros Hlt; apply Hearly; lia |].
      split; [| eapply same_shapes_trans; eassumption].
      intros H0. specialize (Hcount H0).
      destruct Hcnt as [A B]; [lia |]. lia.
Qed.

End RunLogs.

(** The same facts for [train], whose loop starts from the state lines
    189-194 set up. *)
Lemma train_logs {T Batch Output : Type} (lib : TorchLib T Batch Output)
    (train_iter test_iter : list Batch) (net : NNModule)
    (loss : Output -> Batch -> Q) (device : Device) (num_epochs : Z)
    (best_acc0 : Q) (accum_steps : Z) (w w' : World T) (best : Q) :
  wf_module (heap w) net ->
  train lib train_iter test_iter net loss device num_epochs best_acc0
        accum_steps w = Ok (best, w') ->
  exists logs,
    map ep_index logs = py_range (Z.of_nat (length logs))
    /\ (Z.of_nat (length logs) <= Z.max 0 num_epochs)%Z
    /\ (Z.min 12 (Z.max 0 num_epochs) <= Z.of_nat (length logs))%Z
    /\ scalars w' = scalars w ++ concat (map epoch_scalars logs)
    /\ best = best_after logs best_acc0
    /\ same_shapes (shadow_heap (heap w) net) (heap w').
Proof.
  intros Hwf Hrun. unfold train in Hrun.
  rewrite ModelEMA_init_ok in Hrun by exact Hwf.
  cbn [mbind result_bind] in Hrun.
  match type of Hrun with
  | mbind _ ?r = _ => destruct r as [[st wf] | e] eqn:Hloop; [| discriminate]
  end.
  cbn [mbind result_bind] in Hrun. injection Hrun as <- <-.
  apply epoch_loop_logs in Hloop;
    [| discriminate | cbn [set_heap heap]; now apply init_ema_wf].
  destruct Hloop as (logs & Hi & Hlen & Hsc & Hbest & Hearly & Hcnt & Hsh).
  cbn [no_improve best_acc set_heap heap scalars] in *.
  assert (Hrl : length (py_range num_epochs) = Z.to_nat num_epochs).
  { unfold py_range. now rewrite length_map, length_seq. }
  rewrite Hrl in *.
  exists logs. split; [| split; [lia | split; [| auto]]].
  - rewrite Hi. unfold py_range. rewrite Nat2Z.id.
    change (map ?f ?l) with (f <$> l). rewrite <- fmap_take. f_equal.
    rewrite take_seq. f_equal. lia.
  - destruct (Hcnt ltac:(lia)) as [_ Hup].
    destruct (Nat.lt_ge_cases (length logs) (Z.to_nat num_epochs)) as [Hlt | Hge].
    + specialize (Hearly Hlt). lia.
    + lia.
Qed.

Lemma best_after_facts (logs : list EpochLog) :
  forall best : Q,
    (best <= best_after logs best)%Q
    /\ (forall a, In a (observed_accuracies logs) -> (a <= best_after logs best)%Q)
    /\ (best_after logs best = best
        \/ In (best_after logs best) (observed_accuracies logs)).
Proof.
  induction logs as [| r logs IH]; intros best; cbn [best_after fold_left].
  - split; [apply Qle_refl |]. split; [intros a [] | now left].
  - fold (best_after logs (py_max (py_max best (ep_val_acc r)) (ep_ema_acc r))).
    set (b1 := py_max (py_max best (ep_val_acc r)) (ep_ema_acc r)).
    destruct (IH b1) as (Hge & Hall & Hatt).
    assert (H1 : (best <= b1)%Q)
      by (eapply Qle_trans; apply py_max_ge_l).
    assert (H2 : (ep_val_acc r <= b1)%Q).
    { unfold b1. eapply Qle_trans; [| apply py_max_ge_l].
      rewrite py_max_Qmax. apply Q.le_max_r. }
    assert (H3 : (ep_ema_acc r <= b1)%Q).
    { unfold b1. rewrite py_max_Qmax. apply Q.le_max_r. }
    assert (H4 : b1 = best \/ b1 = ep_val_acc r \/ b1 = ep_ema_acc r).
    { unfold b1, py_max. destruct (py_gt (ep_val_acc r) best);
        destruct (py_gt (ep_ema_acc r) _); auto. }
    split; [eapply Qle_trans; eassumption |]. split.
    + cbn [observed_accuracies flat_map app]. intros a [<- | [<- | Ha]].
      * eapply Qle_trans; eassumption.
      * eapply Qle_trans; eassumption.
      * now apply Hall.
    + cbn [observed_accuracies flat_map app].
      destruct Hatt as [-> | Hin]; [| right; right; right; exact Hin].
      destruct H4 as [-> | [-> | ->]]; [now left | right; now left |].
      right; right; now left.
Qed.

(** X7.  The metrics sink after a run: [train] appends, for the epochs
    0, 1, ..., k-1 it executed and in that order, exactly the nine scalars
    of lines 285-293, each tagged with its epoch index; nothing else is
    written to the sink. *)
Theorem train_metrics_sink {T Batch Output : Type}
    (lib : TorchLib T Batch Output) (train_iter test_iter : list Batch)
    (net : NNModule) (loss : Output -> Batch -> Q) (device : Device)
    (num_epochs : Z) (best_acc0 : Q) (accum_steps : Z) (w w' : World T)
    (best : Q) :
  wf_module (heap w) net ->
  train lib train_iter test_iter net loss device num_epochs best_acc0
        accum_steps w = Ok (best, w') ->
  exists logs,
    scalars w' = scalars w ++ concat (map epoch_scalars logs)
    /\ map ep_index logs = py_range (Z.of_nat (length logs))
    /\ (Z.of_nat (length logs) <= Z.max 0 num_epochs)%Z
    /\ length (scalars w') = length (scalars w) + 9 * length logs.
Proof.
  intros Hwf Hrun.
  destruct (train_logs _ _ _ _ _ _ _ _ _ _ _ _ Hwf Hrun)
    as (logs & Hidx & Hmax & _ & Hsc & _).
  exists logs. split; [exact Hsc |]. split; [exact Hidx |]. split; [exact Hmax |].
  rewrite Hsc, length_app. f_equal. clear.
  induction logs as [| r logs IH]; [reflexivity |].
  cbn [map concat]. rewrite length_app, IH. cbn [epoch_scalars length]. lia.
Qed.

(** X8.  Early stopping cannot end a run before twelve epochs have been
    executed: a run that returns has executed at least
    [min(12, num_epochs)] and at most [num_epochs] epochs (counted by the
    nine scalars each epoch logs). *)
Theorem train_runs_at_least_patience {T Batch Output : Type}
    (lib : TorchLib T Batch Output) (train_iter test_iter : list Batch)
    (net : NNModule) (loss : Output -> Batch -> Q) (device : Device)
    (num_epochs : Z) (best_acc0 : Q) (accum_steps : Z) (w w' : World T)
    (best : Q) :
  wf_module (heap w) net ->
  (0 <= num_epochs)%Z ->
  train lib train_iter test_iter net loss device num_epochs best_acc0
        accum_steps w = Ok (best, w') ->
  exists k : nat,
    length (scalars w') = length (scalars w) + 9 * k
    /\ (Z.min 12 num_epochs <= Z.of_nat k <= num_epochs)%Z.
Proof.
  intros Hwf Hn Hrun.
  destruct (train_logs _ _ _ _ _ _ _ _ _ _ _ _ Hwf Hrun)
    as (logs & _ & Hmax & Hmin & Hsc & _).
  exists (length logs). split; [| lia].
  rewrite Hsc, length_app. f_equal. clear.
  induction logs as [| r logs IH]; [reflexivity |].
  cbn [map concat]. rewrite length_app, IH. cbn [epoch_scalars length]. lia.
Qed.

(** X9.  The value [train] returns is the best accuracy of the run: it is
    at least [best_acc] as passed in and at least every validation
    accuracy, live or EMA, logged during the run, and it is one of these
    values. *)
Theorem train_returns_best_observed {T Batch Output : Type}
    (lib : TorchLib T Batch Output) (train_iter test_iter : list Batch)
    (net : NNModule) (loss : Output -> Batch -> Q) (device : Device)
    (num_epochs : Z) (best_acc0 : Q) (accum_steps : Z) (w w' : World T)
    (best : Q) :
  wf_module (heap w) net ->
  train lib train_iter test_iter net loss device num_epochs best_acc0
        accum_steps w = Ok (best, w') ->
  exists logs,
    scalars w' = scalars w ++ concat (map epoch_scalars logs)
    /\ (best_acc0 <= best)%Q
    /\ (forall a, In a (observed_accuracies logs) -> (a <= best)%Q)
    /\ (best = best_acc0 \/ In best (observed_accuracies logs)).
Proof.
  intros Hwf Hrun.
  destruct (train_logs _ _ _ _ _ _ _ _ _ _ _ _ Hwf Hrun)
    as (logs & _ & _ & _ & Hsc & -> & _).
  exists logs. split; [exact Hsc |]. apply best_after_facts.
Qed.

(** X10.  [train] allocates one shadow tensor per parameter of the net and
    nothing else, and never changes the shape or the [requires_grad] flag
    of any tensor; at the end the shadow is still a separate,
    shape-compatible, frozen copy of the net. *)
Theorem train_keeps_shapes {T Batch Output : Type}
    (lib : TorchLib T Batch Output) (train_iter test_iter : list Batch)
    (net : NNModule) (loss : Output -> Batch -> Q) (device : Device)
    (num_epochs : Z) (best_acc0 : Q) (accum_steps : Z) (w w' : World T)
    (best : Q) :
  wf_module (heap w) net ->
  train lib train_iter test_iter net loss device num_epochs best_acc0
        accum_steps w = Ok (best, w') ->
  length (heap w') = length (heap w) + length (parameters net)
  /\ (forall l, l < length (heap w) ->
        length (data (heap w' !!! l)) = length (data (heap w !!! l))
        /\ requires_grad (heap w' !!! l) = requires_grad (heap w !!! l))
  /\ ema_wf (heap w')
            (mkEMA (shadow_module (heap w) net) (999 # 1000) (995 # 1000) 50)
            net.
Proof.
  intros Hwf Hrun.
  destruct (train_logs _ _ _ _ _ _ _ _ _ _ _ _ Hwf Hrun)
    as (logs & _ & _ & _ & _ & _ & Hsh).
  pose proof Hsh as [Hlen Hcell]. split; [| split].
  - rewrite Hlen. unfold shadow_heap. now rewrite length_app, length_map.
  - intros l Hl. destruct (Hcell l) as [-> ->].
    now rewrite shadow_heap_old.
  - eapply ema_wf_same_shapes; [| exact Hsh]. now apply init_ema_wf.
Qed.

(** X11.  With [num_epochs <= 0] no epoch runs: [train] builds the shadow
    and returns [best_acc] as passed in, without a library call, a scalar
    or a checkpoint, also on empty streams. *)
Theorem train_no_epochs {T Batch Output : Type}
    (lib : TorchLib T Batch Output) (train_iter test_iter : list Batch)
    (net : NNModule) (loss : Output -> Batch -> Q) (device : Device)
    (num_epochs : Z) (best_acc0 : Q) (accum_steps : Z) (w : World T) :
  wf_module (heap w) net ->
  (num_epochs <= 0)%Z ->
  train lib train_iter test_iter net loss device num_epochs best_acc0
        accum_steps w
  = Ok (best_acc0, set_heap (shadow_heap (heap w) net) w).
Proof.
  intros Hwf Hn. unfold train. rewrite ModelEMA_init_ok by exact Hwf.
  cbn [mbind result_bind]. unfold py_range.
  replace (Z.to_nat num_epochs) with 0 by lia. reflexivity.
Qed.

Lemma train_metrics_sink_witness :
  exists best w' logs,
    train Toy.lib Toy.ten_batches Toy.ragged_batches Toy.net Toy.loss cpu 2 0 4
          Toy.world = Ok (best, w')
    /\ scalars w' = concat (map epoch_scalars logs)
    /\ map ep_index logs = py_range (Z.of_nat (length logs)).
Proof.
  assert (Hwf : wf_module (heap Toy.world) Toy.net) by repeat constructor.
  destruct (train Toy.lib Toy.ten_batches Toy.ragged_batches Toy.net Toy.loss
                  cpu 2 0 4 Toy.world) as [[best w'] | e] eqn:Hrun.
  - destruct (train_metrics_sink _ _ _ _ _ _ _ _ _ _ _ _ Hwf
                Hrun) as (logs & Hsc & Hidx & _).
    exists best, w', logs. split; [reflexivity |]. split; [exact Hsc | exact Hidx].
  - vm_compute in Hrun. discriminate.
Defined.

Lemma train_runs_at_least_patience_witness :
  exists best w' k,
    train Toy.lib Toy.ten_batches Toy.ragged_batches Toy.net Toy.loss cpu 20 0 4
          Toy.world = Ok (best, w')
    /\ length (scalars w') = 9 * k
    /\ (12 <= Z.of_nat k <= 20)%Z.
Proof.
  assert (Hwf : wf_module (heap Toy.world) Toy.net) by repeat constructor.
  destruct (train Toy.lib Toy.ten_batches Toy.ragged_batches Toy.net Toy.loss
                  cpu 20 0 4 Toy.world) as [[best w'] | e] eqn:Hrun.
  - assert (Hn : (0 <= 20)%Z) by lia.
    destruct (train_runs_at_least_patience _ _ _ _ _ _ _ _ _ _ _ _
                Hwf Hn Hrun) as (k & Hlen & Hk).
    exists best, w', k. split; [reflexivity |]. split; [exact Hlen | exact Hk].
  - vm_compute in Hrun. discriminate.
Defined.

Lemma train_returns_best_observed_witness :
  exists best w' logs,
    train Toy.lib Toy.ten_batches Toy.ragged_batches Toy.net Toy.loss cpu 2
          (1 # 10) 4 Toy.world = Ok (best, w')
    /\ scalars w' = concat (map epoch_scalars logs)
    /\ (1 # 10 <= best)%Q
    /\ (forall a, In a (observed_accuracies logs) -> (a <= best)%Q).
Proof.
  assert (Hwf : wf_module (heap Toy.world) Toy.net) by repeat constructor.
  destruct (train Toy.lib Toy.ten_batches Toy.ragged_batches Toy.net Toy.loss
                  cpu 2 (1 # 10) 4 Toy.world) as [[best w'] | e] eqn:Hrun.
  - destruct (train_returns_best_observed _ _ _ _ _ _ _ _ _ _ _ _
                Hwf Hrun) as (logs & Hsc & Hge & Hall & _).
    exists best, w', logs. split; [reflexivity |]. auto.
  - vm_compute in Hrun. discriminate.
Defined.

Lemma train_keeps_shapes_witness :
  exists best w',
    train Toy.lib Toy.ten_batches Toy.ragged_batches Toy.net Toy.loss cpu 2 0 4
          Toy.world = Ok (best, w')
    /\ length (heap w') = 4.
Proof.
  assert (Hwf : wf_module (heap Toy.world) Toy.net) by repeat constructor.
  destruct (train Toy.lib Toy.ten_batches Toy.ragged_batches Toy.net Toy.loss
                  cpu 2 0 4 Toy.world) as [[best w'] | e] eqn:Hrun.
  - destruct (train_keeps_shapes _ _ _ _ _ _ _ _ _ _ _ _
                Hwf Hrun) as (Hlen & _).
    exists best, w'. split; [reflexivity | exact Hlen].
  - vm_compute in Hrun. discriminate.
Defined.

Lemma train_no_epochs_witness :
  train Toy.lib [] [] Toy.net Toy.loss cpu (-3) (1 # 2) 4 Toy.world
  = Ok (1 # 2, Toy.world1).
Proof.
  apply (train_no_epochs Toy.lib [] [] Toy.net Toy.loss cpu (-3) (1 # 2) 4
           Toy.world).
  - repeat constructor.
  - lia.
Defined.

(** ** Misconfigured runs *)

Lemma log_phase_too_few_groups {T : Type} (epoch : Z) (a b c d e f : Q)
    (w : World T) :
  length (param_groups w) < 2 ->
  log_phase epoch a b c d e f w = Err IndexError.
Proof.
  intros Hlen. unfold log_phase, py_index.
  cbn [add_scalar param_groups].
  destruct (param_groups w) as [| g0 [| g1 gs]]; cbn in Hlen; try lia;
    reflexivity.
Qed.

Section FewGroups.
Context {T Batch Output : Type} (lib : TorchLib T Batch Output).
Variables (train_iter test_iter : list Batch) (net : NNModule).
Variables (loss : Output -> Batch -> Q) (device : Device) (accum_steps : Z).
Variables (self : ModelEMA) (patience : Z).
Hypothesis total_nonzero : total_epochs self <> 0%Z.
Hypothesis train_nonempty : train_iter <> [].
Hypothesis test_nonempty : test_iter <> [].
Hypothesis accum_nonzero : accum_steps <> 0%Z.
Hypothesis keep_groups : schedulers_keep_groups lib.

Lemma train_epoch_too_few_groups (epoch : Z) (st : LoopState) (w : World T) :
  ema_wf (heap w) self net ->
  length (param_groups w) < 2 ->
  train_epoch lib train_iter test_iter net loss device accum_steps self
              patience epoch st w = Err IndexError.
Proof.
  intros Hwf Hlen. unfold train_epoch, run_batches.
  destruct (batch_loop_ok lib loss (set_training true net) self accum_steps
              epoch (Z.of_nat (length train_iter)) accum_nonzero total_nonzero
              train_iter 0%Z (mkSums 0 0 0) w)
    as (sums & w1 & Hb & _ & Hsh1 & Hk1).
  { destruct Hwf. split; assumption. }
  rewrite Hb. cbn [mbind result_bind].
  destruct (batch_loop_sums lib loss _ _ _ _ _ accum_nonzero _ _ _ _ _ _ Hb)
    as (Hlo & Hn & _).
  cbn [n_seen] in Hn. rewrite Z.add_0_l in Hn.
  assert (Hpos : (0 < n_seen sums)%Z).
  { rewrite Hn. apply samples_pos. intros Hnil. rewrite Hnil in Hlo.
    destruct train_iter; [congruence | discriminate]. }
  destruct (evaluate_accuracy_ok lib loss test_iter net (Some device) false
              (Some self) w1)
    as (acc & l & w2 & He1 & _ & _ & Hh2 & _ & Hk2);
    [discriminate | discriminate | exact test_nonempty |].
  rewrite He1. cbn [mbind result_bind].
  rewrite !py_truediv_ok by lia. cbn [mbind result_bind].
  destruct (evaluate_accuracy_ok lib loss test_iter net (Some device) true
              (Some self) w2)
    as (eacc & el & w3 & He2 & _ & _ & Hh3 & _ & Hk3);
    [discriminate | discriminate | exact test_nonempty |].
  rewrite He2. cbn [mbind result_bind].
  assert (Hg3 : param_groups w3 = param_groups w).
  { destruct Hk1 as (A1 & _), Hk2 as (A2 & _), Hk3 as (A3 & _). congruence. }
  rewrite log_phase_too_few_groups; [reflexivity |].
  rewrite (scheduler_phase_groups lib keep_groups), Hg3. exact Hlen.
Qed.

End FewGroups.

(** X13.  The logging of lines 289-290 reads the learning rates of
    parameter groups 0 and 1.  With an optimizer of fewer than two groups,
    a run that is otherwise in order and has at least one epoch to do
    does not return: [train] raises [IndexError]. *)
Theorem train_needs_two_param_groups {T Batch Output : Type}
    (lib : TorchLib T Batch Output) (train_iter test_iter : list Batch)
    (net : NNModule) (loss : Output -> Batch -> Q) (device : Device)
    (num_epochs : Z) (best_acc0 : Q) (accum_steps : Z) (w : World T) :
  wf_module (heap w) net ->
  train_iter <> [] -> test_iter <> [] -> accum_steps <> 0%Z ->
  schedulers_keep_groups lib ->
  (1 <= num_epochs)%Z ->
  length (param_groups w) < 2 ->
  train lib train_iter test_iter net loss device num_epochs best_acc0
        accum_steps w = Err IndexError.
Proof.
  intros Hwf Htr Hte Hacc Hkeep Hn Hlen. unfold train.
  rewrite ModelEMA_init_ok by exact Hwf. cbn [mbind result_bind].
  destruct (py_range_first num_epochs Hn) as (rest & ->).
  cbn [epoch_loop].
  rewrite (train_epoch_too_few_groups lib); try assumption.
  - reflexivity.
  - discriminate.
  - cbn [set_heap heap]. now apply init_ema_wf.
Qed.

(** X14.  [accum_steps = 0] is not rejected up front: with a non-empty
    training stream and at least one epoch to do, [train] raises
    [ZeroDivisionError] (the modulo of line 222, at the first batch). *)
Theorem train_zero_accum_steps {T Batch Output : Type}
    (lib : TorchLib T Batch Output) (train_iter test_iter : list Batch)
    (net : NNModule) (loss : Output -> Batch -> Q) (device : Device)
    (num_epochs : Z) (best_acc0 : Q) (w : World T) :
  wf_module (heap w) net ->
  train_iter <> [] ->
  (1 <= num_epochs)%Z ->
  train lib train_iter test_iter net loss device num_epochs best_acc0 0 w
  = Err ZeroDivisionError.
Proof.
  intros Hwf Htr Hn. unfold train.
  rewrite ModelEMA_init_ok by exact Hwf. cbn [mbind result_bind].
  destruct (py_range_first num_epochs Hn) as (rest & ->).
  cbn [epoch_loop]. unfold train_epoch, run_batches.
  destruct train_iter as [| b bs]; [congruence |].
  rewrite batch_loop_zero_accum. reflexivity.
Qed.

Lemma toy_schedulers_keep_groups : schedulers_keep_groups Toy.lib.
Proof.
  split; intros; cbn; [apply length_map | reflexivity].
Qed.

Lemma train_returns_witness :
  exists best w',
    train Toy.lib Toy.ten_batches Toy.ragged_batches Toy.net Toy.loss cuda 20
          0 4 Toy.world = Ok (best, w').
Proof.
  apply train_returns.
  - repeat constructor.
  - discriminate.
  - discriminate.
  - discriminate.
  - exact toy_schedulers_keep_groups.
  - cbn. lia.
Defined.

Lemma train_needs_two_param_groups_witness :
  train Toy.lib Toy.ten_batches Toy.ragged_batches Toy.net Toy.loss cuda 20
        0 4 (set_param_groups (take 1 Toy.groups) Toy.world)
  = Err IndexError.
Proof.
  apply train_needs_two_param_groups.
  - repeat constructor.
  - discriminate.
  - discriminate.
  - discriminate.
  - exact toy_schedulers_keep_groups.
  - lia.
  - cbn. lia.
Defined.

Lemma train_zero_accum_steps_witness :
  train Toy.lib Toy.ten_batches Toy.ragged_batches Toy.net Toy.loss cuda 20
        0 0 Toy.world
  = Err ZeroDivisionError.
Proof.
  apply train_zero_accum_steps.
  - repeat constructor.
  - discriminate.
  - lia.
Defined.

(** ** The range of the evaluator's results *)

Section EvalRange.
Context {T Batch Output : Type} (lib : TorchLib T Batch Output).
Variable loss_fn : Output -> Batch -> Q.

Lemma weighted_accuracy_sum_range (outs : list (Batch * Output)) :
  Forall (fun bo => (0 <= num_correct lib (snd bo) (fst bo)
                     <= size_of lib (fst bo))%Z) outs ->
  (0 <= weighted_accuracy_sum lib outs)%Q
  /\ (weighted_accuracy_sum lib outs <= inject_Z (samples lib outs))%Q.
Proof.
  induction 1 as [| bo outs [Hlo Hhi] _ [IHlo IHhi]]; simpl.
  - split; apply Qle_refl.
  - rewrite size_times_accuracy, inject_Z_plus.
    rewrite Zle_Qle in Hlo, Hhi. change (inject_Z 0) with 0%Q in Hlo.
    split; lra.
Qed.

Lemma weighted_loss_sum_range (lo hi : Q) (outs : list (Batch * Output)) :
  Forall (fun bo => (lo <= loss_fn (snd bo) (fst bo))%Q
                    /\ (loss_fn (snd bo) (fst bo) <= hi)%Q) outs ->
  (lo * inject_Z (samples lib outs) <= weighted_loss_sum lib loss_fn outs)%Q
  /\ (weighted_loss_sum lib loss_fn outs <= hi * inject_Z (samples lib outs))%Q.
Proof.
  induction 1 as [| bo outs [Hlo Hhi] _ [IHlo IHhi]]; simpl.
  - change (inject_Z 0) with 0%Q. split; lra.
  - rewrite inject_Z_plus.
    assert (Hs : (0 < inject_Z (size_of lib (fst bo)))%Q).
    { change 0%Q with (inject_Z 0). rewrite <- Zlt_Qlt. apply size_of_pos. }
    split; nra.
Qed.

Lemma evaluate_accuracy_inputs (data_iter : list Batch) (net : NNModule)
    (device : option Device) (use_ema : bool) (ema_model : option ModelEMA)
    (w w' : World T) (acc l : Q) :
  evaluate_accuracy lib data_iter net loss_fn device use_ema ema_model w
  = Ok (acc, l, w') ->
  (device = None -> parameters net <> [])
  /\ (use_ema = true -> ema_model <> None)
  /\ data_iter <> [].
Proof.
  intros H.
  assert (Hdev : device = None -> parameters net <> []).
  { intros -> Hnil. unfold evaluate_accuracy in H. rewrite Hnil in H.
    discriminate. }
  assert (Hema : use_ema = true -> ema_model <> None).
  { intros -> ->. unfold evaluate_accuracy in H.
    destruct device, (parameters net); discriminate. }
  repeat split; try assumption.
  intros ->. rewrite evaluate_accuracy_empty in H by assumption.
  discriminate.
Qed.

End EvalRange.

(** X15.  What [evaluate_accuracy] returns is a proportion and a mean: if
    in every batch the count of correct predictions lies between 0 and the
    batch size, the accuracy is in [0, 1], and if every batch loss lies in
    [lo, hi], so does the returned loss. *)
Theorem evaluate_accuracy_range {T Batch Output : Type}
    (lib : TorchLib T Batch Output) (loss_fn : Output -> Batch -> Q)
    (data_iter : list Batch) (net : NNModule) (device : option Device)
    (use_ema : bool) (ema_model : option ModelEMA) (w w' : World T)
    (lo hi acc l : Q) :
  let outs := eval_outputs lib (selected_model net use_ema ema_model)
                           (heap w) (torch w) data_iter in
  Forall (fun bo => (0 <= num_correct lib (snd bo) (fst bo)
                     <= size_of lib (fst bo))%Z) outs ->
  Forall (fun bo => (lo <= loss_fn (snd bo) (fst bo))%Q
                    /\ (loss_fn (snd bo) (fst bo) <= hi)%Q) outs ->
  evaluate_accuracy lib data_iter net loss_fn device use_ema ema_model w
  = Ok (acc, l, w') ->
  (0 <= acc)%Q /\ (acc <= 1)%Q /\ (lo <= l)%Q /\ (l <= hi)%Q.
Proof.
  intros outs Hc Hl H.
  destruct (evaluate_accuracy_inputs lib loss_fn _ _ _ _ _ _ _ _ _ H)
    as (Hdev & Hema & Hne).
  destruct (evaluate_accuracy_ok lib loss_fn data_iter net device use_ema
              ema_model w Hdev Hema Hne)
    as (acc' & l' & w'' & Heq & Hacc & Hloss & _).
  fold outs in Hacc, Hloss.
  rewrite Heq in H. injection H as <- <- <-.
  assert (Hpos : (0 < inject_Z (samples lib outs))%Q).
  { change 0%Q with (inject_Z 0). rewrite <- Zlt_Qlt. apply samples_pos.
    intros Hnil. apply (f_equal (@length _)) in Hnil.
    unfold outs in Hnil. rewrite eval_outputs_length in Hnil.
    destruct data_iter; [congruence | discriminate]. }
  destruct (weighted_accuracy_sum_range lib outs Hc) as [A1 A2].
  destruct (weighted_loss_sum_range lib loss_fn lo hi outs Hl) as [L1 L2].
  rewrite Hacc, Hloss. repeat split.
  - apply Qle_shift_div_l; [exact Hpos | lra].
  - apply Qle_shift_div_r; [exact Hpos | lra].
  - apply Qle_shift_div_l; [exact Hpos | exact L1].
  - apply Qle_shift_div_r; [exact Hpos | exact L2].
Qed.

Lemma evaluate_accuracy_range_witness :
  exists acc l w',
    evaluate_accuracy Toy.lib Toy.ragged_batches Toy.net Toy.loss None true
                      (Some Toy.shadow) Toy.world1 = Ok (acc, l, w')
    /\ (0 <= acc)%Q /\ (acc <= 1)%Q /\ (1 # 2 <= l)%Q /\ (l <= 1 # 2)%Q.
Proof.
  destruct (evaluate_accuracy Toy.lib Toy.ragged_batches Toy.net Toy.loss None
              true (Some Toy.shadow) Toy.world1)
    as [[[acc l] w'] | e] eqn:Hrun.
  - exists acc, l, w'. split; [reflexivity |].
    apply (evaluate_accuracy_range Toy.lib Toy.loss Toy.ragged_batches Toy.net
             None true (Some Toy.shadow) Toy.world1 w' (1 # 2) (1 # 2) acc l).
    + repeat constructor; vm_compute; discriminate.
    + repeat constructor; vm_compute; discriminate.
    + exact Hrun.
  - vm_compute in Hrun. discriminate.
Defined.

(** ** The network and the optimizer's groups *)

Lemma py_unique_NoDup (l : list loc) :
  forall seen, NoDup l -> (forall x, x ∈ l -> x ∉ seen) ->
               py_unique seen l = l.
Proof.
  induction l as [| x rest IH]; intros seen Hnd Hseen; [reflexivity |].
  cbn [py_unique]. apply NoDup_cons in Hnd as [Hx Hrest].
  rewrite bool_decide_eq_false_2 by (apply Hseen; left).
  f_equal. apply IH; [exact Hrest |].
  intros y Hy [-> | Hin]%elem_of_cons; [contradiction |].
  apply (Hseen y); [right; exact Hy | exact Hin].
Qed.

Lemma sequential_parameters_NoDup (ls : list Layer) :
  NoDup (flat_map layer_parameters ls) ->
  sequential_parameters ls = flat_map layer_parameters ls.
Proof.
  intros Hnd. apply py_unique_NoDup; [exact Hnd |].
  intros x _. apply not_elem_of_nil.
Qed.

(** A slice and the slice from the same bound on split the sequence. *)
Lemma slice_to_from {A : Type} (l : list A) (i : Z) :
  slice_to l i ++ slice_from l i = l.
Proof. apply take_drop. Qed.

Lemma freeze_length (ps : list loc) :
  forall s, length (freeze ps s) = length s.
Proof.
  induction ps as [| p ps IH]; intros s; [reflexivity |].
  unfold freeze in *. cbn [fold_left]. rewrite IH. apply length_insert.
Qed.

Lemma freeze_lookup (ps : list loc) :
  forall (s : Store) (l : loc),
    freeze ps s !! l
    = (fun t => if bool_decide (l ∈ ps) then requires_grad_ t false else t)
        <$> s !! l.
Proof.
  induction ps as [| p ps IH]; intros s l.
  - cbn. destruct (s !! l); reflexivity.
  - unfold freeze in *. cbn [fold_left]. rewrite IH.
    destruct (decide (l = p)) as [-> | Hne].
    + rewrite (bool_decide_eq_true_2 (p ∈ p :: ps)) by left.
      destruct (s !! p) as [t |] eqn:Hp.
      * rewrite list_lookup_insert_eq by (eapply lookup_lt_Some; exact Hp).
        rewrite (list_lookup_total_correct _ _ _ Hp). cbn.
        destruct (bool_decide (p ∈ ps)); reflexivity.
      * rewrite list_insert_ge by (apply lookup_ge_None; exact Hp).
        rewrite Hp. reflexivity.
    + rewrite list_lookup_insert_ne by congruence.
      destruct (s !! l) as [t |]; [| reflexivity]. cbn.
      destruct (bool_decide (l ∈ ps)) eqn:E.
      * rewrite bool_decide_eq_true_2; [reflexivity |].
        right. now apply bool_decide_eq_true in E.
      * rewrite bool_decide_eq_false_2; [reflexivity |].
        intros [-> | Hin]%elem_of_cons; [congruence |].
        apply bool_decide_eq_false in E. contradiction.
Qed.

Lemma freeze_lookup_total (ps : list loc) (s : Store) (l : loc) :
  l < length s ->
  freeze ps s !!! l
  = if bool_decide (l ∈ ps) then requires_grad_ (s !!! l) false else s !!! l.
Proof.
  intros Hl. apply list_lookup_total_correct. rewrite freeze_lookup.
  destruct (lookup_lt_is_Some_2 s l Hl) as [t Ht].
  rewrite Ht, (list_lookup_total_correct _ _ _ Ht). reflexivity.
Qed.

(** The nine layers of the new head, their parameters at [n .. n+9]. *)
Lemma get_net_eq (init : loc -> Z -> list Q) (devices : Device)
    (model : EfficientNet) (s : Store) :
  let n := length s in
  exists new,
    get_net init devices model s
    = ({| features := features model;
          classifier :=
            [Dropout (1 # 2); Linear 1280 1024 n (1 + n);
             BatchNorm1d 1024 (2 + n) (3 + n); SiLU true; Dropout (3 # 10);
             Linear 1024 512 (4 + n) (5 + n); LayerNorm 512 (6 + n) (7 + n);
             SiLU true; Linear 512 120 (8 + n) (9 + n)] |},
       freeze (sequential_parameters (slice_to (features model) 4)) s ++ new)
    /\ length new = 10
    /\ Forall (fun t => requires_grad t = true) new.
Proof.
  intros n. unfold get_net, nn_Linear, nn_BatchNorm1d, nn_LayerNorm.
  set (s1 := freeze _ s).
  assert (Hn : length s1 = n) by apply freeze_length.
  rewrite !length_app, Hn. cbn [length Nat.add].
  replace (n + 2 + 2 + 2 + 2) with (8 + n) by lia.
  replace (n + 2 + 2 + 2) with (6 + n) by lia.
  replace (n + 2 + 2) with (4 + n) by lia.
  replace (n + 2) with (2 + n) by lia.
  cbn [Nat.add]. rewrite <- !app_assoc. cbn [app].
  eexists. split; [reflexivity |]. split; [reflexivity |].
  repeat constructor.
Qed.

Lemma filter_all {A : Type} (P : A -> Prop) `{!forall x, Decision (P x)}
    (l : list A) :
  Forall P l -> filter P l = l.
Proof.
  induction 1 as [| x l Hx _ IH]; [reflexivity |].
  rewrite filter_cons_True by exact Hx. now rewrite IH.
Qed.

Lemma filter_none {A : Type} (P : A -> Prop) `{!forall x, Decision (P x)}
    (l : list A) :
  Forall (fun x => ~ P x) l -> filter P l = [].
Proof.
  induction 1 as [| x l Hx _ IH]; [reflexivity |].
  rewrite filter_cons_False by exact Hx. exact IH.
Qed.

Lemma add_param_group_disjoint (groups : list OptimGroup) (g : OptimGroup) :
  Forall (fun l => l ∉ flat_map params groups) (params g) ->
  add_param_group groups g = Ok (groups ++ [g]).
Proof.
  intros Hdis. unfold add_param_group.
  now rewrite bool_decide_eq_true_2 by exact Hdis.
Qed.

Section HeadFacts.
Variables (init : loc -> Z -> list Q) (devices : Device).
Variables (model : EfficientNet) (s : Store).

(** The parameters of the stages before and from index 4 on. *)
Let stem : list loc :=
  flat_map layer_parameters (slice_to (features model) 4).
Let body : list loc :=
  flat_map layer_parameters (slice_from (features model) 4).

Lemma features_split :
  flat_map layer_parameters (features model) = stem ++ body.
Proof.
  unfold stem, body. rewrite <- flat_map_app, slice_to_from. reflexivity.
Qed.

Hypothesis backbone_distinct :
  NoDup (flat_map layer_parameters (features model)).
Hypothesis backbone_allocated :
  Forall (fun l => l < length s) (flat_map layer_parameters (features model)).

Lemma stem_body_facts :
  NoDup stem /\ NoDup body /\ (forall x, x ∈ stem -> x ∉ body)
  /\ Forall (fun l => l < length s) stem
  /\ Forall (fun l => l < length s) body.
Proof.
  pose proof backbone_distinct as Hnd. pose proof backbone_allocated as Hal.
  rewrite features_split in Hnd, Hal.
  apply NoDup_app in Hnd as (H1 & H2 & H3).
  apply Forall_app in Hal as [H4 H5]. auto.
Qed.

Lemma get_net_shape (net : EfficientNet) (s' : Store) :
  get_net init devices model s = (net, s') ->
  let n := length s in
  exists new,
    s' = freeze stem s ++ new
    /\ length new = 10
    /\ Forall (fun t => requires_grad t = true) new
    /\ features net = features model
    /\ flat_map layer_parameters (classifier net) = seq n 10
    /\ sequential_parameters (slice_from (features net) 4) = body
    /\ sequential_parameters (slice_to (classifier net) (-4)) = seq n 4
    /\ sequential_parameters (slice_from (classifier net) (-4))
       = seq (4 + n) 6
    /\ net_parameters net = stem ++ body ++ seq n 10.
Proof.
  intros Hrun n.
  destruct (get_net_eq init devices model s) as (new & Heq & Hlen & Hreq).
  fold n in Heq. rewrite Heq in Hrun. injection Hrun as <- <-.
  destruct stem_body_facts as (Hs & Hb & Hsb & Hsl & Hbl).
  exists new. cbn [features classifier].
  rewrite (sequential_parameters_NoDup (slice_to (features model) 4))
    by exact Hs.
  repeat split; try assumption; try reflexivity.
  - apply sequential_parameters_NoDup. exact Hb.
  - unfold sequential_parameters.
    apply (py_unique_NoDup (seq n 4)); [apply NoDup_seq |].
    intros x _. apply not_elem_of_nil.
  - unfold sequential_parameters.
    apply (py_unique_NoDup (seq (4 + n) 6)); [apply NoDup_seq |].
    intros x _. apply not_elem_of_nil.
  - unfold net_parameters. cbn [features classifier].
    rewrite flat_map_app, features_split, <- app_assoc.
    apply (py_unique_NoDup (stem ++ body ++ seq n 10));
      [| intros x _; apply not_elem_of_nil].
    apply NoDup_app. split; [exact Hs |]. split.
    + intros x Hx [Hin | Hin]%elem_of_app; [now apply (Hsb x) |].
      apply elem_of_seq in Hin. rewrite Forall_forall in Hsl.
      specialize (Hsl x Hx). unfold n in Hin. lia.
    + apply NoDup_app. split; [exact Hb |]. split; [| apply NoDup_seq].
      intros x Hx Hin. apply elem_of_seq in Hin.
      rewrite Forall_forall in Hbl. specialize (Hbl x Hx). unfold n in Hin.
      lia.
Qed.

End HeadFacts.

(** X16.  Built on a backbone whose stages share no tensor and whose
    parameters are all tracked by autograd, the three parameter groups of
    lines 125-129 are, in order, exactly the parameters of the returned
    network that still require a gradient: no frozen parameter reaches the
    optimizer, no trainable one is left out, none is listed twice, and
    the optimizer's constructor accepts the groups. *)
Theorem optimizer_groups_cover_trainable (init : loc -> Z -> list Q)
    (devices : Device) (model net : EfficientNet) (s s' : Store) :
  NoDup (flat_map layer_parameters (features model)) ->
  Forall (fun l => l < length s /\ requires_grad (s !!! l) = true)
         (flat_map layer_parameters (features model)) ->
  get_net init devices model s = (net, s') ->
  flat_map params (optimizer_groups net) = trainable s' (as_module net)
  /\ NoDup (flat_map params (optimizer_groups net))
  /\ AdamW (optimizer_groups net) = Ok (optimizer_groups net).
Proof.
  intros Hnd Hall Hrun.
  apply Forall_and in Hall as [Hal Hreq].
  destruct (stem_body_facts model s Hnd Hal) as (Hs & Hb & Hsb & Hsl & Hbl).
  destruct (get_net_shape init devices model s Hnd Hal net s' Hrun)
    as (new & -> & Hlen & Hnew & Hf & Hc & Hg0 & Hg1 & Hg2 & Hps).
  set (n := length s) in *.
  set (stem := flat_map layer_parameters (slice_to (features model) 4)) in *.
  set (body := flat_map layer_parameters (slice_from (features model) 4)) in *.
  assert (Hgroups : flat_map params (optimizer_groups net)
                    = body ++ seq n 10).
  { unfold optimizer_groups. cbn [flat_map params]. rewrite Hg0, Hg1, Hg2.
    rewrite app_nil_r. reflexivity. }
  assert (Hfresh : forall x, x ∈ body -> x ∉ seq n 10).
  { intros x Hx Hin. apply elem_of_seq in Hin.
    rewrite Forall_forall in Hbl. specialize (Hbl x Hx). unfold n in Hin.
    lia. }
  split; [| split].
  - rewrite Hgroups. unfold trainable, as_module. cbn [parameters].
    rewrite Hps, !filter_app.
    rewrite (filter_none _ stem), (filter_all _ body), (filter_all _ (seq n 10)).
    + reflexivity.
    + apply Forall_forall. intros x Hx. apply elem_of_seq in Hx.
      rewrite lookup_total_app_r by (rewrite freeze_length; unfold n in Hx; lia).
      rewrite Forall_forall in Hnew. apply Hnew.
      apply list_elem_of_lookup_total_2. rewrite freeze_length. fold n. lia.
    + apply Forall_forall. intros x Hx.
      rewrite Forall_forall in Hbl. pose proof (Hbl x Hx) as Hlt.
      rewrite lookup_total_app_l by (rewrite freeze_length; exact Hlt).
      rewrite freeze_lookup_total by exact Hlt.
      rewrite bool_decide_eq_false_2.
      * rewrite Forall_forall in Hreq. apply Hreq.
        rewrite (features_split model). apply elem_of_app. right. exact Hx.
      * intros Hin. now apply (Hsb x Hin).
    + apply Forall_forall. intros x Hx.
      rewrite Forall_forall in Hsl. pose proof (Hsl x Hx) as Hlt.
      rewrite lookup_total_app_l by (rewrite freeze_length; exact Hlt).
      rewrite freeze_lookup_total by exact Hlt.
      rewrite bool_decide_eq_true_2 by exact Hx. cbn. discriminate.
  - rewrite Hgroups. apply NoDup_app.
    split; [exact Hb |]. split; [exact Hfresh | apply NoDup_seq].
  - unfold optimizer_groups, AdamW. cbn [foldM].
    rewrite Hg0, Hg1, Hg2.
    rewrite add_param_group_disjoint by
      (apply Forall_forall; intros x _; apply not_elem_of_nil).
    cbn [mbind result_bind app].
    rewrite add_param_group_disjoint.
    2:{ cbn [flat_map params]. rewrite app_nil_r. apply Forall_forall.
        intros x Hx Hin. apply (Hfresh x Hin).
        apply elem_of_seq in Hx. apply elem_of_seq. lia. }
    cbn [mbind result_bind app].
    rewrite add_param_group_disjoint.
    2:{ cbn [flat_map params]. rewrite app_nil_r. apply Forall_forall.
        intros x Hx [Hin | Hin]%elem_of_app.
        - apply (Hfresh x Hin). apply elem_of_seq in Hx. apply elem_of_seq.
          lia.
        - apply elem_of_seq in Hx, Hin. lia. }
    reflexivity.
Qed.

(** X17.  [get_net] leaves the pretrained backbone as it found it: ten
    tensors are allocated for the new head, the [features] container is
    kept, and every tensor that existed before keeps its values and
    dtype; its autograd flag is cleared if it is a parameter of one of
    the first four stages and kept otherwise. *)
Theorem get_net_keeps_pretrained_weights (init : loc -> Z -> list Q)
    (devices : Device) (model net : EfficientNet) (s s' : Store) :
  get_net init devices model s = (net, s') ->
  length s' = length s + 10
  /\ features net = features model
  /\ flat_map layer_parameters (classifier net) = seq (length s) 10
  /\ forall l, l < length s ->
       data (s' !!! l) = data (s !!! l)
       /\ dtype (s' !!! l) = dtype (s !!! l)
       /\ requires_grad (s' !!! l)
          = if bool_decide
                 (l ∈ sequential_parameters (slice_to (features model) 4))
            then false else requires_grad (s !!! l).
Proof.
  intros Hrun.
  destruct (get_net_eq init devices model s) as (new & Heq & Hlen & _).
  rewrite Heq in Hrun. injection Hrun as <- <-. cbn [features classifier].
  split; [| split; [| split]].
  - rewrite length_app, freeze_length, Hlen. reflexivity.
  - reflexivity.
  - reflexivity.
  - intros l Hl.
    rewrite lookup_total_app_l by (rewrite freeze_length; exact Hl).
    rewrite freeze_lookup_total by exact Hl.
    destruct (bool_decide _); auto.
Qed.

Lemma optimizer_groups_cover_trainable_witness :
  exists net s',
    get_net ToyNet.init cuda ToyNet.pretrained ToyNet.heap = (net, s')
    /\ flat_map params (optimizer_groups net) = trainable s' (as_module net)
    /\ NoDup (flat_map params (optimizer_groups net))
    /\ AdamW (optimizer_groups net) = Ok (optimizer_groups net).
Proof.
  destruct (get_net ToyNet.init cuda ToyNet.pretrained ToyNet.heap)
    as [net s'] eqn:Hrun.
  exists net, s'. split; [reflexivity |].
  apply (optimizer_groups_cover_trainable ToyNet.init cuda ToyNet.pretrained
           net ToyNet.heap s').
  - apply (bool_decide_unpack _). vm_compute. reflexivity.
  - apply (bool_decide_unpack _). vm_compute. reflexivity.
  - exact Hrun.
Defined.

Lemma get_net_keeps_pretrained_weights_witness :
  exists net s',
    get_net ToyNet.init cuda ToyNet.pretrained ToyNet.heap = (net, s')
    /\ length s' = 19
    /\ features net = features ToyNet.pretrained.
Proof.
  destruct (get_net ToyNet.init cuda ToyNet.pretrained ToyNet.heap)
    as [net s'] eqn:Hrun.
  exists net, s'. split; [reflexivity |].
  destruct (get_net_keeps_pretrained_weights ToyNet.init cuda
              ToyNet.pretrained net ToyNet.heap s' Hrun) as (Hlen & Hf & _).
  split; [exact Hlen | exact Hf].
Defined.

(** ** The checkpoint files of a run *)

Lemma checkpoints_written_refl {T : Type} (best : Q) (w : World T) :
  checkpoints_written best best w w.
Proof.
  exists []. split; [reflexivity |]. split; [constructor |].
  split; [reflexivity | congruence].
Qed.

Lemma checkpoints_written_trans {T : Type} (b1 b2 b3 : Q) (w1 w2 w3 : World T) :
  checkpoints_written b1 b2 w1 w2 -> checkpoints_written b2 b3 w2 w3 ->
  checkpoints_written b1 b3 w1 w3.
Proof.
  intros (n1 & F1 & N1 & E1 & L1) (n2 & F2 & N2 & E2 & L2).
  exists (n2 ++ n1). split; [now rewrite F2, F1, app_assoc |].
  split; [now apply Forall_app |]. split.
  - intros [-> ->]%app_eq_nil. now rewrite E2, E1.
  - intros Hne. destruct n1 as [| f1 n1], n2 as [| f2 n2].
    + now contradiction Hne.
    + rewrite <- (E1 eq_refl). now apply L2.
    + rewrite (E2 eq_refl). now apply L1.
    + eapply Qlt_trans; [apply L1 | apply L2]; discriminate.
Qed.

Lemma checkpoints_written_kept {T : Type} (best best' : Q) (w0 w w' w1 : World T) :
  files w = files w0 -> files w1 = files w' ->
  checkpoints_written best best' w w' -> checkpoints_written best best' w0 w1.
Proof.
  intros H0 H1 (new & F & N & E & L). exists new. rewrite H1, F, H0. auto.
Qed.

Lemma checkpoint_phase_files {T : Type} (net : NNModule) (self : ModelEMA)
    (a b c : Q) (w : World T) :
  checkpoints_written c (fst (checkpoint_phase net self a b c w)) w
                      (snd (checkpoint_phase net self a b c w)).
Proof.
  unfold checkpoint_phase.
  destruct (py_gt a c) eqn:E1;
    match goal with
    | |- context [py_gt b ?x] => destruct (py_gt b x) eqn:E2
    end; cbn [fst snd]; apply py_gt_true in E1 || clear E1;
    apply py_gt_true in E2 || clear E2.
  - exists [("best_model_ema.pth"%string, state_dict (heap w) (ema self));
            ("best_model.pth"%string, state_dict (heap w) net)].
    split; [reflexivity |]. split; [repeat (constructor; [cbn [fst]; auto |]); constructor |].
    split; [discriminate |]. intros _. eapply Qlt_trans; eassumption.
  - exists [("best_model.pth"%string, state_dict (heap w) net)].
    split; [reflexivity |]. split; [repeat (constructor; [cbn [fst]; auto |]); constructor |].
    split; [discriminate |]. intros _. exact E1.
  - exists [("best_model_ema.pth"%string, state_dict (heap w) (ema self))].
    split; [reflexivity |]. split; [repeat (constructor; [cbn [fst]; auto |]); constructor |].
    split; [discriminate |]. intros _. exact E2.
  - apply checkpoints_written_refl.
Qed.

Section RunFiles.
Context {T Batch Output : Type} (lib : TorchLib T Batch Output).
Variables (train_iter test_iter : list Batch) (net : NNModule).
Variables (loss : Output -> Batch -> Q) (device : Device) (accum_steps : Z).
Variables (self : ModelEMA) (patience : Z).
Hypothesis total_nonzero : total_epochs self <> 0%Z.

Lemma train_epoch_files (epoch : Z) (st st' : LoopState) (stop : bool)
    (w w' : World T) :
  ema_wf (heap w) self net ->
  train_epoch lib train_iter test_iter net loss device accum_steps self
              patience epoch st w = Ok (st', stop, w') ->
  checkpoints_written (best_acc st) (best_acc st') w w'.
Proof.
  intros Hwf H.
  destruct (train_epoch_ok_inputs lib _ _ _ _ _ _ _ _ total_nonzero _ _ _ _ _ _
              Hwf H) as (_ & _ & Hnz).
  destruct (train_epoch_inv _ _ _ _ _ _ _ _ _ _ _ _ _ _ _ H)
    as (sums & w1 & test_acc & test_loss & w2 & tl & ta & ea & el & w3 & w4
        & Hb & He1 & _ & _ & He2 & Hlog & Hck & Hes).
  unfold run_batches in Hb.
  destruct (batch_loop_ok lib loss (set_training true net) self accum_steps
              epoch (Z.of_nat (length train_iter)) Hnz total_nonzero
              train_iter 0%Z (mkSums 0 0 0) w)
    as (sums' & w1' & Hb' & _ & Hsh1 & Hk1).
  { destruct Hwf. split; assumption. }
  rewrite Hb in Hb'. injection Hb' as <- <-.
  destruct (evaluate_accuracy_frame _ _ _ _ _ _ _ _ _ _ _ He1) as (_ & _ & Hk2).
  destruct (evaluate_accuracy_frame _ _ _ _ _ _ _ _ _ _ _ He2) as (_ & _ & Hk3).
  destruct (scheduler_phase_sink lib epoch test_acc w3) as (_ & Hfs).
  destruct (log_phase_scalars _ _ _ _ _ _ _ _ _ Hlog) as (lr0 & lr1 & _ & Hfl).
  pose proof (checkpoint_phase_files net self test_acc ea (best_acc st) w4)
    as Hfiles.
  rewrite Hck in Hfiles. cbn [fst snd] in Hfiles.
  apply (checkpoints_written_kept _ _ w w4 w' w'); [| reflexivity | exact Hfiles].
  destruct Hk1 as (_ & _ & F1 & _), Hk2 as (_ & _ & F2 & _),
    Hk3 as (_ & _ & F3 & _).
  now rewrite Hfl, Hfs, F3, F2, F1.
Qed.

Lemma epoch_loop_files (epochs : list Z) :
  forall (st st' : LoopState) (w w' : World T),
    ema_wf (heap w) self net ->
    epoch_loop (train_epoch lib train_iter test_iter net loss device
                            accum_steps self patience) epochs st w
    = Ok (st', w') ->
    checkpoints_written (best_acc st) (best_acc st') w w'.
Proof.
  induction epochs as [| e rest IH]; intros st st' w w' Hwf H;
    cbn [epoch_loop] in H.
  - injection H as <- <-. apply checkpoints_written_refl.
  - destruct (train_epoch lib train_iter test_iter net loss device accum_steps
                          self patience e st w)
      as [[[st1 stop] w1] | err] eqn:Hb; [| discriminate].
    cbn [mbind result_bind] in H.
    pose proof (train_epoch_files e st st1 stop w w1 Hwf Hb) as Hstep.
    destruct (train_epoch_log lib _ _ _ _ _ _ _ _ total_nonzero e st st1 stop
                w w1 Hwf Hb) as (_ & _ & _ & _ & _ & Hsh).
    destruct stop.
    + injection H as <- <-. exact Hstep.
    + eapply checkpoints_written_trans; [exact Hstep |].
      apply IH; [| exact H]. eapply ema_wf_same_shapes; eassumption.
Qed.

End RunFiles.

(** X18.  The files a run of [train] writes are checkpoints under the two
    names [best_model.pth] and [best_model_ema.pth], and a run writes one
    exactly when it raises the accuracy record: if nothing was written
    the returned value is the [best_acc] passed in, and if something was
    written the returned value is strictly larger. *)
Theorem train_checkpoints {T Batch Output : Type}
    (lib : TorchLib T Batch Output) (train_iter test_iter : list Batch)
    (net : NNModule) (loss : Output -> Batch -> Q) (device : Device)
    (num_epochs : Z) (best_acc0 : Q) (accum_steps : Z) (w w' : World T)
    (best : Q) :
  wf_module (heap w) net ->
  train lib train_iter test_iter net loss device num_epochs best_acc0
        accum_steps w = Ok (best, w') ->
  exists new,
    files w' = new ++ files w
    /\ Forall (fun f => fst f = "best_model.pth"%string
                        \/ fst f = "best_model_ema.pth"%string) new
    /\ (new = [] -> best = best_acc0)
    /\ (new <> [] -> (best_acc0 < best)%Q).
Proof.
  intros Hwf Hrun. unfold train in Hrun.
  rewrite ModelEMA_init_ok in Hrun by exact Hwf.
  cbn [mbind result_bind] in Hrun.
  match type of Hrun with
  | mbind _ ?r = _ => destruct r as [[st wf] | e] eqn:Hloop; [| discriminate]
  end.
  cbn [mbind result_bind] in Hrun. injection Hrun as <- <-.
  apply epoch_loop_files in Hloop;
    [| discriminate | cbn [set_heap heap]; now apply init_ema_wf].
  exact Hloop.
Qed.

Lemma train_checkpoints_witness :
  exists best w' new,
    train Toy.lib Toy.ten_batches Toy.ragged_batches Toy.net Toy.loss cuda 20
          0 4 Toy.world = Ok (best, w')
    /\ files w' = new ++ files Toy.world
    /\ (new <> [] -> (0 < best)%Q).
Proof.
  assert (Hwf : wf_module (heap Toy.world) Toy.net) by repeat constructor.
  destruct (train Toy.lib Toy.ten_batches Toy.ragged_batches Toy.net Toy.loss
                  cuda 20 0 4 Toy.world) as [[best w'] | e] eqn:Hrun.
  - destruct (train_checkpoints _ _ _ _ _ _ _ _ _ _ _ _ Hwf Hrun)
      as (new & Hf & _ & _ & Hlt).
    exists best, w', new. split; [reflexivity |]. split; assumption.
  - vm_compute in Hrun. discriminate.
Defined.

(** ** Optimizer steps per epoch *)

Lemma count_events_app (p : Event -> bool) (l k : list Event) :
  count_events p (l ++ k) = (count_events p l + count_events p k)%Z.
Proof.
  unfold count_events. rewrite List.filter_app, length_app. lia.
Qed.

Lemma count_steps_batch (accum_steps epoch total i : Z) :
  count_events is_optimizer_step (batch_events accum_steps epoch total i)
  = (if is_boundary accum_steps total i then 1 else 0)%Z
  /\ count_events is_ema_update (batch_events accum_steps epoch total i)
     = (if is_boundary accum_steps total i then 1 else 0)%Z.
Proof.
  unfold batch_events. destruct (is_boundary accum_steps total i);
    split; reflexivity.
Qed.

(** One more index adds a multiple of [a] exactly when it is one. *)
Lemma div_succ (a n : Z) :
  (1 <= a)%Z -> (0 <= n)%Z ->
  ((n + 1) / a = n / a + (if (n + 1) mod a =? 0 then 1 else 0))%Z.
Proof.
  intros Ha Hn.
  destruct (Z.eqb_spec ((n + 1) mod a) 0) as [E | E];
    Z.div_mod_to_equations; nia.
Qed.

Section StepCount.
Variables (accum_steps epoch total : Z).
Hypothesis accum_pos : (1 <= accum_steps)%Z.

Lemma count_before_last (p : Event -> bool) (n : nat) :
  (forall i, count_events p (batch_events accum_steps epoch total i)
             = (if is_boundary accum_steps total i then 1 else 0)%Z) ->
  (Z.of_nat n < total)%Z ->
  count_events p (concat (map (batch_events accum_steps epoch total)
                              (py_range (Z.of_nat n))))
  = (Z.of_nat n / accum_steps)%Z.
Proof.
  intros Hp. unfold py_range. rewrite Nat2Z.id.
  induction n as [| n IH]; intros Hlt; [reflexivity |].
  rewrite seq_S, map_app, map_app, concat_app, count_events_app.
  rewrite IH by lia. cbn [Nat.add map concat]. rewrite app_nil_r, Hp.
  unfold is_boundary.
  replace (Z.of_nat n + 1 =? total)%Z with false by (symmetry; lia).
  rewrite orb_false_r, Nat2Z.inj_succ, <- Z.add_1_r.
  rewrite (div_succ accum_steps (Z.of_nat n)) by lia. reflexivity.
Qed.

Lemma count_whole_epoch (p : Event -> bool) (n : nat) :
  (forall i, count_events p (batch_events accum_steps epoch total i)
             = (if is_boundary accum_steps total i then 1 else 0)%Z) ->
  total = Z.of_nat n ->
  count_events p (concat (map (batch_events accum_steps epoch total)
                              (py_range total)))
  = ((total + accum_steps - 1) / accum_steps)%Z.
Proof.
  intros Hp Htot. destruct n as [| n].
  - rewrite Htot. cbn. symmetry. apply Z.div_small. lia.
  - pose proof (count_before_last p n Hp ltac:(lia)) as Hn.
    rewrite Htot at 2. unfold py_range in *. rewrite Nat2Z.id in *.
    rewrite seq_S, map_app, map_app, concat_app, count_events_app, Hn.
    cbn [Nat.add map concat]. rewrite app_nil_r, Hp.
    unfold is_boundary.
    replace (Z.of_nat n + 1 =? total)%Z with true by (symmetry; lia).
    rewrite orb_true_r.
    replace (total + accum_steps - 1)%Z
      with (Z.of_nat n + 1 * accum_steps)%Z by lia.
    rewrite Z.div_add by lia. reflexivity.
Qed.

End StepCount.

(** X19.  An epoch over [N] batches with [accum_steps >= 1] takes
    [ceil(N / accum_steps)] optimizer steps (the last, possibly shorter
    window included) and updates the EMA shadow once per step. *)
Theorem optimizer_steps_per_epoch {T Batch Output : Type}
    (lib : TorchLib T Batch Output) (loss : Output -> Batch -> Q)
    (net : NNModule) (self : ModelEMA) (accum_steps epoch : Z)
    (train_iter : list Batch) (w : World T) :
  (1 <= accum_steps)%Z ->
  ema_wf (heap w) self net ->
  total_epochs self <> 0%Z ->
  let N := Z.of_nat (length train_iter) in
  exists sums w' calls,
    run_batches lib loss net self accum_steps epoch train_iter w
    = Ok (sums, w')
    /\ trace w' = trace w ++ calls
    /\ count_events is_optimizer_step calls
       = ((N + accum_steps - 1) / accum_steps)%Z
    /\ count_events is_ema_update calls
       = count_events is_optimizer_step calls.
Proof.
  intros Hacc Hwf Ht N. unfold run_batches.
  assert (Hnz : accum_steps <> 0%Z) by lia.
  destruct (batch_loop_ok lib loss (set_training true net) self accum_steps
              epoch N Hnz Ht train_iter 0%Z (mkSums 0 0 0) w)
    as (sums & w' & Hrun & Htr & _ & _).
  { destruct Hwf. split; assumption. }
  rewrite indices_from_0 in Htr. fold N in Htr.
  exists sums, w'. eexists. split; [exact Hrun |]. split; [exact Htr |].
  rewrite (count_whole_epoch accum_steps epoch N Hacc is_optimizer_step
             (length train_iter)
             (fun i => proj1 (count_steps_batch accum_steps epoch N i))
             eq_refl).
  rewrite (count_whole_epoch accum_steps epoch N Hacc is_ema_update
             (length train_iter)
             (fun i => proj2 (count_steps_batch accum_steps epoch N i))
             eq_refl).
  split; reflexivity.
Qed.

Lemma optimizer_steps_per_epoch_witness :
  exists sums w' calls,
    run_batches Toy.lib Toy.loss Toy.net Toy.shadow 4 0 Toy.ten_batches
                Toy.world1 = Ok (sums, w')
    /\ trace w' = trace Toy.world1 ++ calls
    /\ count_events is_optimizer_step calls = 3%Z.
Proof.
  destruct (optimizer_steps_per_epoch Toy.lib Toy.loss Toy.net Toy.shadow 4 0
              Toy.ten_batches Toy.world1)
    as (sums & w' & calls & Hrun & Htr & Hsteps & _).
  - lia.
  - apply (init_ema_wf Toy.heap0 Toy.net (999 # 1000) 50). repeat constructor.
  - discriminate.
  - exists sums, w', calls. split; [exact Hrun |]. split; [exact Htr |].
    exact Hsteps.
Defined.
